(** * Notes page: course filter, pagination and page initialisation

    A shallow embedding of the client-side logic of the notes page.  Two
    variants of the script exist in the repository:

    - [Flat] follows [static/notes-page.js], which derives the course index
      from the flat list [CLASSES] on every call of [parseClasses];
    - [Structured] follows the later variant of the same script, which reads
      the index from the globals [COURSES_DICT] and [SUBJECTS] supplied by the
      server.

    JavaScript strings are modelled as [string], one character per code unit
    (code units below 256), Numbers by the integer fragment of IEEE doubles
    ([number]), plain objects used as dictionaries as
    [gmap string _] together with the properties every object inherits from
    [Object.prototype], and the DOM by a record of the elements the script
    reads and writes.  Choices.js is kept as an opaque handle.  The note modal
    and the edit toggles, which share no state with the filter and the
    pagination, are modelled apart in [Notes]; [initializePage] looks the
    modal up there when it registers the modal's listeners.  The subject and
    number lists of the create and edit forms of the later script are left
    out. *)

From Stdlib Require Import ZArith Ascii String List Permutation Sorted Lia Bool.
From stdpp Require Import base option list gmap strings.

Local Open Scope Z_scope.

(* ================================================================== *)
(** ** Characters, character classes and the course-code pattern       *)
(* ================================================================== *)

Module Js.

(** [[A-Z]] of the regular expressions in the script. *)
Definition is_upper (c : ascii) : bool :=
  let n := N_of_ascii c in ((65 <=? n) && (n <=? 90))%N.

(** [\d] of the regular expressions in the script: exactly [[0-9]]. *)
Definition is_digit (c : ascii) : bool :=
  let n := N_of_ascii c in ((48 <=? n) && (n <=? 57))%N.

Fixpoint str_all (p : ascii → bool) (s : string) : bool :=
  match s with
  | EmptyString => true
  | String c s' => p c && str_all p s'
  end.

(** Truthiness of a JavaScript string: only the empty string is falsy. *)
Definition truthy (s : string) : bool :=
  match s with EmptyString => false | String _ _ => true end.

(** A greedy quantifier over a character class: the longest prefix whose
    characters all satisfy [p], and the rest of the input. *)
Fixpoint greedy (p : ascii → bool) (s : string) : string * string :=
  match s with
  | EmptyString => (EmptyString, EmptyString)
  | String c s' =>
      if p c then let '(a, b) := greedy p s' in (String c a, b)
      else (EmptyString, s)
  end.

(** [s.match(/^([A-Z]+)(\d+)$/)]: [None] for [null], otherwise the two capture
    groups.  Both quantifiers are greedy; giving characters back can never help
    ([[A-Z]+] would leave a letter in front of [\d], [\d+] would leave a digit
    in front of [$]), so the engine's only successful path is the greedy one. *)
Definition course_match (s : string) : option (string * string) :=
  let '(letters, rest) := greedy is_upper s in
  let '(digits, tail) := greedy is_digit rest in
  if truthy letters && truthy digits && negb (truthy tail)
  then Some (letters, digits) else None.

(** The regular expressions themselves, with their usual denotation: the set
    of whole strings they match (the anchors [^] and [$] of the source). *)
Inductive regex : Type :=
  | Class (p : ascii → bool)
  | Cat (r1 r2 : regex)
  | Plus (r : regex).

Inductive matches : regex → string → Prop :=
  | matches_class p c :
      p c = true → matches (Class p) (String c EmptyString)
  | matches_cat r1 r2 s1 s2 :
      matches r1 s1 → matches r2 s2 → matches (Cat r1 r2) (s1 +:+ s2)
  | matches_plus_one r s :
      matches r s → matches (Plus r) s
  | matches_plus_more r s1 s2 :
      matches r s1 → matches (Plus r) s2 → matches (Plus r) (s1 +:+ s2).

(** [^[A-Z]+[0-9]+$] *)
Definition course_code_pattern : regex :=
  Cat (Plus (Class is_upper)) (Plus (Class is_digit)).

(* ------------------------------------------------------------------ *)
(** *** Numbers                                                          *)
(* ------------------------------------------------------------------ *)

(** The integer fragment of the Number type: integer-valued doubles, the two
    infinities and NaN.  (The sign of zero is not represented.) *)
Inductive number : Type :=
  | Finite (z : Z)
  | PosInf
  | NegInf
  | NaN.

(** The double nearest to a non-negative integer [z], ties to even.  Below
    [2^53] every integer is a double; above, a double keeps the 53 leading
    bits, and a result that reaches [2^1024] overflows to [Infinity]. *)
Definition round_nonneg (z : Z) : number :=
  if z <? 2 ^ 53 then Finite z
  else
    let e := Z.log2 z - 52 in
    let q := z / 2 ^ e in
    let r := z mod 2 ^ e in
    let h := 2 ^ (e - 1) in
    let q' := if r <? h then q
              else if h <? r then q + 1
              else if Z.even q then q else q + 1 in
    let v := q' * 2 ^ e in
    if v <? 2 ^ 1024 then Finite v else PosInf.

Definition num_neg (x : number) : number :=
  match x with
  | Finite z => Finite (- z)
  | PosInf => NegInf
  | NegInf => PosInf
  | NaN => NaN
  end.

(** The Number value for a mathematical integer. *)
Definition to_number (z : Z) : number :=
  if z <? 0 then num_neg (round_nonneg (- z)) else round_nonneg z.

(** [x + y] *)
Definition num_add (x y : number) : number :=
  match x, y with
  | NaN, _ | _, NaN => NaN
  | Finite a, Finite b => to_number (a + b)
  | PosInf, NegInf | NegInf, PosInf => NaN
  | PosInf, _ | _, PosInf => PosInf
  | NegInf, _ | _, NegInf => NegInf
  end.

(** [x - y] *)
Definition num_sub (x y : number) : number := num_add x (num_neg y).

(** [x > 0]; false for NaN. *)
Definition num_pos (x : number) : bool :=
  match x with
  | Finite z => 0 <? z
  | PosInf => true
  | NegInf | NaN => false
  end.

(** [x <= y] on Numbers; false as soon as one side is NaN. *)
Definition num_le (x y : number) : Prop :=
  match x, y with
  | NaN, _ | _, NaN => False
  | NegInf, _ | _, PosInf => True
  | Finite a, Finite b => a <= b
  | _, _ => False
  end.

(* ------------------------------------------------------------------ *)
(** *** parseInt                                                         *)
(* ------------------------------------------------------------------ *)

(** White space that [parseInt] skips, among the code units below 256. *)
Definition is_space (c : ascii) : bool :=
  let n := N_of_ascii c in
  (((9 <=? n) && (n <=? 13)) || (n =? 32) || (n =? 160))%N.

Fixpoint skip_spaces (s : string) : string :=
  match s with
  | String c s' => if is_space c then skip_spaces s' else s
  | EmptyString => EmptyString
  end.

(** The value of a character as a digit of the given radix (10 or 16). *)
Definition digit_of (radix : Z) (c : ascii) : option Z :=
  let n := Z.of_N (N_of_ascii c) in
  if (48 <=? n) && (n <=? 57) then Some (n - 48)
  else if (radix =? 16) && (97 <=? n) && (n <=? 102) then Some (n - 87)
  else if (radix =? 16) && (65 <=? n) && (n <=? 70) then Some (n - 55)
  else None.

(** Reads the longest prefix of digits; [None] when there is no digit. *)
Fixpoint read_digits (radix : Z) (acc : option Z) (s : string) : option Z :=
  match s with
  | EmptyString => acc
  | String c s' =>
      match digit_of radix c with
      | Some d => read_digits radix (Some (radix * default 0 acc + d)) s'
      | None => acc
      end
  end.

(** [parseInt(s)] with no radix argument: white space is skipped, a sign is
    read, a [0x] or [0X] prefix selects radix 16, and the longest prefix of
    digits is converted; NaN when there is none.  (For more than twenty
    significant decimal digits the language lets an engine round from an
    approximation; the model rounds the exact value.) *)
Definition parseInt (s : string) : number :=
  let s1 := skip_spaces s in
  let '(negative, s2) :=
    match s1 with
    | String c t =>
        if (c =? "-")%char then (true, t)
        else if (c =? "+")%char then (false, t)
        else (false, s1)
    | EmptyString => (false, s1)
    end in
  let '(radix, s3) :=
    match s2 with
    | String c (String x t) =>
        if (c =? "0")%char && ((x =? "x")%char || (x =? "X")%char)
        then (16, t) else (10, s2)
    | _ => (10, s2)
    end in
  match read_digits radix None s3 with
  | None => NaN
  | Some v => if negative then num_neg (round_nonneg v) else round_nonneg v
  end.

(** The mathematical value of a string of decimal digits. *)
Definition decimal_value (s : string) : Z := default 0 (read_digits 10 None s).

(* ------------------------------------------------------------------ *)
(** *** Array.prototype.sort                                             *)
(* ------------------------------------------------------------------ *)

(** [Array.prototype.sort] is stable.  The model is the stable insertion sort:
    an element moves behind a later one exactly when the comparator's result
    for the pair is greater than zero (a NaN result counts as zero).  For a
    comparator that orders the elements consistently every stable sort gives
    this result; for any other the language leaves the order to the engine,
    and the model is one possible engine. *)
Fixpoint sort_insert {A : Type} (cmp : A → A → number) (x : A) (l : list A) : list A :=
  match l with
  | [] => [x]
  | y :: l' => if num_pos (cmp x y) then y :: sort_insert cmp x l' else x :: l
  end.

Fixpoint array_sort {A : Type} (cmp : A → A → number) (l : list A) : list A :=
  match l with
  | [] => []
  | x :: l' => sort_insert cmp x (array_sort cmp l')
  end.

(** The comparator of [sort()] without argument, on strings: code-unit order. *)
Definition default_compare (x y : string) : number :=
  match String.compare x y with
  | Lt => Finite (-1)
  | Eq => Finite 0
  | Gt => Finite 1
  end.

(** [(a, b) => parseInt(a) - parseInt(b)] *)
Definition numeric_compare (a b : string) : number :=
  num_sub (parseInt a) (parseInt b).

(* ------------------------------------------------------------------ *)
(** *** Sets, objects, exceptions                                        *)
(* ------------------------------------------------------------------ *)

(** [Set.prototype.add]: a Set keeps its elements in insertion order. *)
Definition set_add (x : string) (l : list string) : list string :=
  if decide (x ∈ l) then l else l ++ [x].

(** Property names every plain object inherits from [Object.prototype]. *)
Definition object_prototype_names : list string :=
  ["constructor"; "hasOwnProperty"; "isPrototypeOf"; "propertyIsEnumerable";
   "toLocaleString"; "toString"; "valueOf"; "__proto__";
   "__defineGetter__"; "__defineSetter__"; "__lookupGetter__";
   "__lookupSetter__"]%string.

(** The result of [o[k]] on a plain object whose own properties hold values
    of type [A]: an own property, a property inherited from
    [Object.prototype] (a function or an object: truthy, and not an array),
    or [undefined]. *)
Inductive property (A : Type) : Type :=
  | Own (v : A)
  | Inherited
  | Undefined.
Arguments Own {A} v.
Arguments Inherited {A}.
Arguments Undefined {A}.

Definition get_prop {A : Type} (o : gmap string A) (k : string) : property A :=
  match o !! k with
  | Some v => Own v
  | None => if decide (k ∈ object_prototype_names) then Inherited else Undefined
  end.

Inductive exn : Type :=
  | TypeError (msg : string)
  | SyntaxError (msg : string).

Inductive result (A : Type) : Type :=
  | Ok (a : A)
  | Throw (e : exn).
Arguments Ok {A} a.
Arguments Throw {A} e.

Definition bind {A B : Type} (r : result A) (k : A → result B) : result B :=
  match r with
  | Ok a => k a
  | Throw e => Throw e
  end.

(** [l.forEach(f)] for a callback that threads an accumulator and may throw. *)
Fixpoint for_each {A B : Type} (f : B → A → result B) (l : list A) (acc : B) : result B :=
  match l with
  | [] => Ok acc
  | x :: l' => bind (f acc x) (for_each f l')
  end.

End Js.

(* ================================================================== *)
(** ** The part of the document the script reads and writes             *)
(* ================================================================== *)

Module Dom.
Import Js.

(** An [<option>] element: its value, its text and its selectedness. *)
Record option_el : Type := OptionEl {
  opt_value : string;
  opt_text : string;
  opt_selected : bool
}.

Definition set_selected (b : bool) (o : option_el) : option_el :=
  OptionEl (opt_value o) (opt_text o) b.

(** The selectedness setting algorithm of a single-choice drop-down list, run
    whenever options are inserted or removed: with several options selected
    only the last stays selected, with none the first becomes selected. *)
Fixpoint keep_last_selected (opts : list option_el) : list option_el :=
  match opts with
  | [] => []
  | o :: rest =>
      (if opt_selected o && existsb opt_selected rest
       then set_selected false o else o) :: keep_last_selected rest
  end.

Definition select_first (opts : list option_el) : list option_el :=
  match opts with
  | [] => []
  | o :: rest => set_selected true o :: rest
  end.

Definition selectedness (opts : list option_el) : list option_el :=
  if existsb opt_selected opts then keep_last_selected opts
  else select_first opts.

(** [select.appendChild(option)] *)
Definition append_child (opts : list option_el) (o : option_el) : list option_el :=
  selectedness (opts ++ [o]).

(** [select.value]: the value of the first selected option, else [""]. *)
Definition select_value (opts : list option_el) : string :=
  match List.find opt_selected opts with
  | Some o => opt_value o
  | None => EmptyString
  end.

(** [while (select.options.length > 1) select.remove(1);] *)
Definition clear_after_first (opts : list option_el) : list option_el :=
  match opts with
  | o :: _ :: _ => [set_selected true o]
  | _ => opts
  end.

(** [numberSelect.innerHTML = '<option value="">All Numbers</option>'] *)
Definition all_numbers : option_el := OptionEl "" "All Numbers" true.

(** The elements the script looks up, all of them present in the document
    except [#load-more], whose absence the script allows for.  A form records
    its submissions, the console its error messages. *)
Record page : Type := Page {
  subject_select : list option_el;        (* #subject-select *)
  number_select : list option_el;         (* #number-select *)
  class_filter_hidden : string;           (* #class-filter-hidden, its value *)
  course_filter_submits : list string;    (* #course-filter-form: the hidden
                                             value sent by each submit() *)
  filter_form : list (string * string);   (* .filter-form, its fields *)
  notes_container : list string;          (* #notes-container: the fragments
                                             its children were parsed from *)
  load_more : option string;              (* #load-more: style.display *)
  console_errors : list string
}.

Definition set_subject_select (v : list option_el) (d : page) : page :=
  Page v (number_select d) (class_filter_hidden d) (course_filter_submits d)
       (filter_form d) (notes_container d) (load_more d) (console_errors d).

Definition set_number_select (v : list option_el) (d : page) : page :=
  Page (subject_select d) v (class_filter_hidden d) (course_filter_submits d)
       (filter_form d) (notes_container d) (load_more d) (console_errors d).

(** [hidden.value = v; form.submit()] on the course filter form. *)
Definition submit_filter (v : string) (d : page) : page :=
  Page (subject_select d) (number_select d) v (course_filter_submits d ++ [v])
       (filter_form d) (notes_container d) (load_more d) (console_errors d).

(** [container.insertAdjacentHTML('beforeend', html)] *)
Definition append_html (html : string) (d : page) : page :=
  Page (subject_select d) (number_select d) (class_filter_hidden d)
       (course_filter_submits d) (filter_form d) (notes_container d ++ [html])
       (load_more d) (console_errors d).

(** [const btn = document.getElementById('load-more');
     if (btn) btn.style.display = 'none';] *)
Definition hide_load_more (d : page) : page :=
  Page (subject_select d) (number_select d) (class_filter_hidden d)
       (course_filter_submits d) (filter_form d) (notes_container d)
       (match load_more d with Some _ => Some "none"%string | None => None end)
       (console_errors d).

(** [console.error(msg, err)] *)
Definition console_error (msg : string) (d : page) : page :=
  Page (subject_select d) (number_select d) (class_filter_hidden d)
       (course_filter_submits d) (filter_form d) (notes_container d)
       (load_more d) (console_errors d ++ [msg]).

(** A Choices.js instance, known by the element it wraps and its search
    placeholder; the library itself is outside the model. *)
Record choices : Type := Choices {
  choices_element : string;
  choices_placeholder : string
}.

(** The two anonymous listeners that [initializePage] registers for the note
    modal. *)
Inductive listener : Type :=
  | OverlayClick                 (* registered on [#note-modal] *)
  | EscapeKey (guarded : bool).  (* registered on the document; the later
                                    script tests [modal] before using it *)

(** What [addEventListener] is given: one of the two named functions of the
    filter, or one of the listeners of the modal. *)
Inductive handler : Type :=
  | HandleSubjectChange
  | HandleNumberChange
  | HandleModal (l : listener).

(** The outcome of running a piece of script on a state: it runs to its end,
    or it throws, and the state is then what it was when it threw. *)
Inductive outcome (S : Type) : Type :=
  | Done (s : S)
  | Raised (e : exn) (s : S).
Arguments Done {S} s.
Arguments Raised {S} e s.

Definition final {S : Type} (o : outcome S) : S :=
  match o with Done s | Raised _ s => s end.

Definition and_then {S : Type} (o : outcome S) (k : S → outcome S) : outcome S :=
  match o with
  | Done s => k s
  | Raised e s => Raised e s
  end.

(** [new URLSearchParams(new FormData(form))] followed by [set('page', p)]:
    the request carries the form's other fields and the page number. *)
Record request : Type := Request {
  req_path : string;
  req_fields : list (string * string);
  req_page : number
}.

(** What the server is expected to answer: [{html, has_more}]. *)
Record notes_data : Type := NotesData {
  html : string;
  has_more : bool
}.

(** How [await fetch(url)] and [await res.json()] can end. *)
Inductive fetched : Type :=
  | NetworkFailure                       (* fetch rejects *)
  | NotOk                                (* a response outside 200-299 *)
  | BadBody                              (* res.json() rejects *)
  | Fetched (data : notes_data).

(** The data attributes of [#page-data]; [None] when the attribute is absent
    ([dataset.x] is then [undefined]). *)
Record dataset : Type := Dataset {
  data_page : option string;
  data_classes : option string;
  data_courses_dict : option string;
  data_subjects : option string;
  data_selected_filter : option string
}.

(** [x || d] for an attribute value: the default replaces [undefined] and
    the empty string. *)
Definition or_default (x : option string) (d : string) : string :=
  match x with
  | Some s => if truthy s then s else d
  | None => d
  end.

(** The subject or the number of the active filter, as both scripts read it:
    [currentFilter && currentFilter !== "All"], then the pattern. *)
Definition filter_parts (currentFilter : option string) : option (string * string) :=
  match currentFilter with
  | Some f => if truthy f && negb (f =? "All")%string then course_match f else None
  | None => None
  end.

End Dom.

(* ================================================================== *)
(** ** The note modal and the edit toggles                              *)
(* ================================================================== *)

Module Notes.
Import Js Dom.

(** [classList.add], [classList.remove], [classList.toggle] and
    [classList.contains] on the ordered set of an element's classes. *)
Definition class_add (c : string) (l : list string) : list string :=
  if decide (c ∈ l) then l else l ++ [c].

Definition class_remove (c : string) (l : list string) : list string :=
  List.filter (λ x, negb (x =? c)%string) l.

Definition class_toggle (c : string) (l : list string) : list string :=
  if decide (c ∈ l) then class_remove c l else l ++ [c].

Definition class_contains (c : string) (l : list string) : bool :=
  bool_decide (c ∈ l).

(** A control of a form: its name, its value, and the value [reset()] gives
    it back. *)
Record field : Type := Field {
  field_name : string;
  field_value : string;
  field_default : string
}.

Definition reset_field (f : field) : field :=
  Field (field_name f) (field_default f) (field_default f).

(** What the modal functions and the edit toggle see of the document: the
    class list of every element that has an id, the inline overflow of the
    body, and the controls of [#create-note-form] if the form is there. *)
Record ui : Type := Ui {
  elements : gmap string (list string);
  body_overflow : string;
  create_note_form : option (list field)
}.

(** [document.getElementById(id).classList.<op>(...)]: a [TypeError] when
    there is no such element. *)
Definition update_classes (id : string) (op : list string → list string) (u : ui)
  : outcome ui :=
  match elements u !! id with
  | Some classes =>
      Done (Ui (<[id := op classes]> (elements u)) (body_overflow u)
               (create_note_form u))
  | None => Raised (TypeError "Cannot read properties of null") u
  end.

Definition set_overflow (v : string) (u : ui) : ui :=
  Ui (elements u) v (create_note_form u).

Definition toggleEdit (noteId : string) (u : ui) : outcome ui :=
  (* [noteId] is the text that ['edit-form-' + noteId] makes of the argument;
     both elements are looked up before either is toggled, and they are
     never the same element *)
  and_then (update_classes ("edit-form-" +:+ noteId) (class_toggle "active") u)
           (update_classes ("note-content-" +:+ noteId) (class_toggle "editing")).

Definition openModal (u : ui) : outcome ui :=
  and_then (update_classes "note-modal" (class_add "active") u)
           (λ u1, Done (set_overflow "hidden" u1)).

Definition closeModal (u : ui) : outcome ui :=
  and_then (update_classes "note-modal" (class_remove "active") u) (λ u1,
    let u2 := set_overflow "" u1 in
    match create_note_form u2 with
    | Some controls =>
        Done (Ui (elements u2) (body_overflow u2) (Some (map reset_field controls)))
    | None => Raised (TypeError "Cannot read properties of null") u2
    end).

(** The events the two listeners of [initializePage] receive: a click that
    reaches the modal, on the overlay itself or on something inside it, and
    a key pressed anywhere in the document. *)
Inductive event : Type :=
  | Click (on_overlay : bool)
  | KeyDown (key : string).

(** The end of [initializePage] in [static/notes-page.js]: the modal is
    looked up and both listeners are registered, the first one on it. *)
Definition flat_wire (u : ui) : result (list listener) :=
  match elements u !! "note-modal" with
  | Some _ => Ok [OverlayClick; EscapeKey false]
  | None => Throw (TypeError "Cannot read properties of null")
  end.

(** The same place in the later script: the click listener is registered
    only if the modal exists. *)
Definition structured_wire (u : ui) : result (list listener) :=
  Ok ((match elements u !! "note-modal" with
       | Some _ => [OverlayClick]
       | None => []
       end) ++ [EscapeKey true]).

(** The target and the function of a listener of the modal, as
    [addEventListener] records them. *)
Definition modal_listener (l : listener) : string * handler :=
  (match l with
   | OverlayClick => "note-modal"
   | EscapeKey _ => "document"
   end%string, HandleModal l).

(** One listener receiving one event.  The modal a listener refers to is the
    element found when the listeners were registered; the document is taken
    not to gain or lose that element afterwards. *)
Definition listen (l : listener) (ev : event) (u : ui) : outcome ui :=
  match l, ev with
  | OverlayClick, Click on_overlay =>
      if on_overlay then closeModal u else Done u
  | EscapeKey guarded, KeyDown key =>
      if (key =? "Escape")%string then
        match elements u !! "note-modal" with
        | Some classes =>
            if class_contains "active" classes then closeModal u else Done u
        | None =>
            if guarded then Done u
            else Raised (TypeError "Cannot read properties of null") u
        end
      else Done u
  | _, _ => Done u
  end.

(** An event reaching every registered listener in turn; a listener that
    throws does not keep the later ones from running. *)
Fixpoint dispatch (ls : list listener) (ev : event) (u : ui) : ui :=
  match ls with
  | [] => u
  | l :: rest => dispatch rest ev (final (listen l ev u))
  end.

End Notes.

(* ================================================================== *)
(** ** The script that parses the flat class list                       *)
(* ================================================================== *)

Module Flat.
Import Js Dom.

(** The globals of the script and the document. *)
Record state : Type := State {
  currentPage : number;
  CLASSES : list string;
  subjectChoice : option choices;
  numberChoice : option choices;
  listeners : list (string * handler);
  dom : page
}.

Definition set_dom (d : page) (s : state) : state :=
  State (currentPage s) (CLASSES s) (subjectChoice s) (numberChoice s)
        (listeners s) d.

Definition set_currentPage (p : number) (s : state) : state :=
  State p (CLASSES s) (subjectChoice s) (numberChoice s) (listeners s) (dom s).

Definition set_numberChoice (c : option choices) (s : state) : state :=
  State (currentPage s) (CLASSES s) (subjectChoice s) c (listeners s) (dom s).

(** What [parseClasses] returns. *)
Record index : Type := Index {
  subjects : list string;
  classesBySubject : gmap string (list string)
}.

(** The body of the [forEach] callback of [parseClasses], on the pair of the
    Set [subjects] and the object [classesBySubject]. *)
Definition parse_class (acc : list string * gmap string (list string)) (cls : string)
  : result (list string * gmap string (list string)) :=
  match course_match cls with
  | None => Ok acc
  | Some (subject, number) =>
      let seen := set_add subject (fst acc) in
      match get_prop (snd acc) subject with
      | Undefined => Ok (seen, <[subject := [number]]> (snd acc))
      | Own numbers => Ok (seen, <[subject := numbers ++ [number]]> (snd acc))
      | Inherited =>
          Throw (TypeError "classesBySubject[subject].push is not a function")
      end
  end.

Definition parse_list (classes : list string) : result index :=
  bind (for_each parse_class classes ([], ∅))
       (λ acc, Ok (Index (array_sort default_compare (fst acc)) (snd acc))).

Definition parseClasses (s : state) : result index := parse_list (CLASSES s).

(** One pass of a [forEach] that appends an option per entry. *)
Definition add_options (current : string) (entries : list string)
    (opts : list option_el) : list option_el :=
  fold_left
    (λ acc entry, append_child acc (OptionEl entry entry (entry =? current)%string))
    entries opts.

Definition populateSubjects (currentFilter : option string) (s : state) : outcome state :=
  match parseClasses s with
  | Throw e => Raised e s
  | Ok idx =>
      let currentSubject :=
        match filter_parts currentFilter with
        | Some (subject, _) => subject
        | None => EmptyString
        end in
      let cleared := clear_after_first (subject_select (dom s)) in
      Done (set_dom (set_subject_select
                       (add_options currentSubject (subjects idx) cleared) (dom s)) s)
  end.

Definition updateNumberDropdown (preserveSelection : bool)
    (currentFilter : option string) (s : state) : outcome state :=
  match parseClasses s with
  | Throw e => Raised e s
  | Ok idx =>
      let selectedSubject := select_value (subject_select (dom s)) in
      let currentNumber :=
        match (if preserveSelection then filter_parts currentFilter else None) with
        | Some (_, number) => number
        | None => EmptyString
        end in
      let s1 := set_dom (set_number_select [all_numbers] (dom s)) s in
      if truthy selectedSubject then
        match get_prop (classesBySubject idx) selectedSubject with
        | Inherited => Raised (TypeError "numbers.sort is not a function") s1
        | found =>
            let numbers := match found with Own l => l | _ => [] end in
            (* the array sorted in place belongs to the index built by this
               call, which nothing else refers to *)
            let numbers := array_sort numeric_compare numbers in
            Done (set_dom (set_number_select
                             (add_options currentNumber numbers [all_numbers])
                             (dom s1)) s1)
        end
      else Done s1
  end.

Definition applyClassFilter (s : state) : outcome state :=
  let selectedSubject := select_value (subject_select (dom s)) in
  let selectedNumber := select_value (number_select (dom s)) in
  let combined :=
    if truthy selectedSubject && truthy selectedNumber
    then selectedSubject +:+ selectedNumber
    else if truthy selectedSubject then "All"%string
    else "All"%string in
  Done (set_dom (submit_filter combined (dom s)) s).

Definition handleSubjectChange (s : state) : outcome state :=
  and_then (updateNumberDropdown false None s) (λ s1,
    match numberChoice s1 with
    | None => Raised (TypeError "numberChoice is undefined") s1
    | Some _ =>
        let s2 := set_numberChoice
                    (Some (Choices "number-select" "Type to search numbers...")) s1 in
        if negb (truthy (select_value (subject_select (dom s2))))
        then Done (set_dom (submit_filter "All" (dom s2)) s2)
        else Done s2
    end).

Definition handleNumberChange (s : state) : outcome state :=
  let number := select_value (number_select (dom s)) in
  let subject := select_value (subject_select (dom s)) in
  if negb (truthy number) && truthy subject
  then Done (set_dom (submit_filter "All" (dom s)) s)
  else applyClassFilter s.

(** [loadMore] up to its first [await]: the counter is advanced and the
    request for that page leaves. *)
Definition loadMore_request (s : state) : state * request :=
  let s1 := set_currentPage (num_add (currentPage s) (Finite 1)) s in
  (s1, Request "/notes"
         (List.filter (λ kv, negb (fst kv =? "page")%string) (filter_form (dom s1)))
         (currentPage s1)).

(** [loadMore] from the moment the fetch settles. *)
Definition loadMore_settle (r : fetched) (s : state) : state :=
  match r with
  | Fetched data =>
      let d := append_html (html data) (dom s) in
      set_dom (if negb (has_more data) then hide_load_more d else d) s
  | NetworkFailure | NotOk | BadBody =>
      set_dom (console_error "Failed to load more notes" (dom s)) s
  end.

(** A call of [loadMore] that nothing else interleaves with. *)
Definition loadMore (r : fetched) (s : state) : state :=
  loadMore_settle r (fst (loadMore_request s)).

Definition add_listeners (ls : list (string * handler)) (s : state) : state :=
  State (currentPage s) (CLASSES s) (subjectChoice s) (numberChoice s)
        (listeners s ++ ls) (dom s).

(** [initializePage].  [u] is the part of the document in which the note
    modal is looked up, once both lists are built and their listeners
    registered: [modal.addEventListener] throws when there is no
    [#note-modal], and nothing is registered for the modal then. *)
Definition initializePage (initialPage : number) (classes : list string)
    (selectedFilter : string) (u : Notes.ui) (s : state) : outcome state :=
  let s0 := State initialPage classes (subjectChoice s) (numberChoice s)
                  (listeners s) (dom s) in
  and_then (populateSubjects (Some selectedFilter) s0) (λ s1,
  and_then (updateNumberDropdown true (Some selectedFilter) s1) (λ s2,
    let s3 :=
      State (currentPage s2) (CLASSES s2)
            (Some (Choices "subject-select" "Type to search subjects..."))
            (Some (Choices "number-select" "Type to search numbers..."))
            (listeners s2 ++ [("subject-select"%string, HandleSubjectChange);
                              ("number-select"%string, HandleNumberChange)])
            (dom s2) in
    match Notes.flat_wire u with
    | Ok ls => Done (add_listeners (map Notes.modal_listener ls) s3)
    | Throw e => Raised e s3
    end)).

(** The operations that follow initialization: the two populating functions,
    the filter submission and the two change listeners. *)
Inductive operation : Type :=
  | PopulateSubjects (currentFilter : option string)
  | UpdateNumberDropdown (preserveSelection : bool) (currentFilter : option string)
  | ApplyClassFilter
  | SubjectChange
  | NumberChange.

Definition run (op : operation) (s : state) : outcome state :=
  match op with
  | PopulateSubjects f => populateSubjects f s
  | UpdateNumberDropdown p f => updateNumberDropdown p f s
  | ApplyClassFilter => applyClassFilter s
  | SubjectChange => handleSubjectChange s
  | NumberChange => handleNumberChange s
  end.

Section Initialization.
(** [JSON.parse] on the text of the [data-classes] attribute, for the shape
    the page promises (an array of strings); it throws on malformed text. *)
Variable parse_string_array : string → result (list string).

(** The three constants the [DOMContentLoaded] listener reads from the data
    attributes of [#page-data]. *)
Definition read_page_data (data : dataset) : result (number * list string * string) :=
  let initialPage := parseInt (or_default (data_page data) "1") in
  bind (parse_string_array (or_default (data_classes data) "[]")) (λ classes,
    let selectedFilter := or_default (data_selected_filter data) "All" in
    Ok (initialPage, classes, selectedFilter)).

(** The [DOMContentLoaded] listener. *)
Definition on_DOMContentLoaded (data : dataset) (u : Notes.ui) (s : state)
  : outcome state :=
  match read_page_data data with
  | Throw e => Raised e s
  | Ok (initialPage, classes, selectedFilter) =>
      initializePage initialPage classes selectedFilter u s
  end.
End Initialization.

End Flat.

(* ================================================================== *)
(** ** The script that receives the structured catalog                  *)
(* ================================================================== *)

Module Structured.
Import Js Dom.

(** The globals of the script and the document.  [COURSES_DICT] maps a subject
    to its array of number strings; the arrays are shared with whoever reads
    the object, so sorting one in place is an update of [COURSES_DICT]. *)
Record state : Type := State {
  currentPage : number;
  CLASSES : list string;
  COURSES_DICT : gmap string (list string);
  SUBJECTS : list string;
  subjectChoice : option choices;
  numberChoice : option choices;
  listeners : list (string * handler);
  dom : page
}.

Definition set_dom (d : page) (s : state) : state :=
  State (currentPage s) (CLASSES s) (COURSES_DICT s) (SUBJECTS s)
        (subjectChoice s) (numberChoice s) (listeners s) d.

Definition set_currentPage (p : number) (s : state) : state :=
  State p (CLASSES s) (COURSES_DICT s) (SUBJECTS s)
        (subjectChoice s) (numberChoice s) (listeners s) (dom s).

Definition set_COURSES_DICT (m : gmap string (list string)) (s : state) : state :=
  State (currentPage s) (CLASSES s) m (SUBJECTS s)
        (subjectChoice s) (numberChoice s) (listeners s) (dom s).

Definition set_numberChoice (c : option choices) (s : state) : state :=
  State (currentPage s) (CLASSES s) (COURSES_DICT s) (SUBJECTS s)
        (subjectChoice s) c (listeners s) (dom s).

(** What [parseClasses] returns: the two globals themselves. *)
Record index : Type := Index {
  subjects : list string;
  classesBySubject : gmap string (list string)
}.

Definition parseClasses (s : state) : index := Index (SUBJECTS s) (COURSES_DICT s).

Definition add_options (current : string) (entries : list string)
    (opts : list option_el) : list option_el :=
  fold_left
    (λ acc entry, append_child acc (OptionEl entry entry (entry =? current)%string))
    entries opts.

Definition populateSubjects (currentFilter : option string) (s : state) : outcome state :=
  let idx := parseClasses s in
  let currentSubject :=
    match filter_parts currentFilter with
    | Some (subject, _) => subject
    | None => EmptyString
    end in
  let cleared := clear_after_first (subject_select (dom s)) in
  Done (set_dom (set_subject_select
                   (add_options currentSubject (subjects idx) cleared) (dom s)) s).

Definition updateNumberDropdown (preserveSelection : bool)
    (currentFilter : option string) (s : state) : outcome state :=
  let idx := parseClasses s in
  let selectedSubject := select_value (subject_select (dom s)) in
  let currentNumber :=
    match (if preserveSelection then filter_parts currentFilter else None) with
    | Some (_, number) => number
    | None => EmptyString
    end in
  let s1 := set_dom (set_number_select [all_numbers] (dom s)) s in
  if truthy selectedSubject then
    match get_prop (classesBySubject idx) selectedSubject with
    | Inherited => Raised (TypeError "numbers.sort is not a function") s1
    | Undefined =>
        (* [numbers] is a fresh empty array *)
        Done (set_dom (set_number_select
                         (add_options currentNumber (array_sort numeric_compare [])
                            [all_numbers]) (dom s1)) s1)
    | Own numbers =>
        (* [numbers] is the array held by [COURSES_DICT]: it is sorted in place *)
        let sorted := array_sort numeric_compare numbers in
        let s2 := set_COURSES_DICT (<[selectedSubject := sorted]> (COURSES_DICT s1)) s1 in
        Done (set_dom (set_number_select
                         (add_options currentNumber sorted [all_numbers]) (dom s2)) s2)
    end
  else Done s1.

Definition applyClassFilter (s : state) : outcome state :=
  let selectedSubject := select_value (subject_select (dom s)) in
  let selectedNumber := select_value (number_select (dom s)) in
  let combined :=
    if truthy selectedSubject && truthy selectedNumber
    then selectedSubject +:+ selectedNumber
    else if truthy selectedSubject then "All"%string
    else "All"%string in
  Done (set_dom (submit_filter combined (dom s)) s).

Definition handleSubjectChange (s : state) : outcome state :=
  and_then (updateNumberDropdown false None s) (λ s1,
    match numberChoice s1 with
    | None => Raised (TypeError "numberChoice is undefined") s1
    | Some _ =>
        let s2 := set_numberChoice
                    (Some (Choices "number-select" "Type to search numbers...")) s1 in
        if negb (truthy (select_value (subject_select (dom s2))))
        then Done (set_dom (submit_filter "All" (dom s2)) s2)
        else Done s2
    end).

Definition handleNumberChange (s : state) : outcome state :=
  let number := select_value (number_select (dom s)) in
  let subject := select_value (subject_select (dom s)) in
  if negb (truthy number) && truthy subject
  then Done (set_dom (submit_filter "All" (dom s)) s)
  else applyClassFilter s.

Definition loadMore_request (s : state) : state * request :=
  let s1 := set_currentPage (num_add (currentPage s) (Finite 1)) s in
  (s1, Request "/notes"
         (List.filter (λ kv, negb (fst kv =? "page")%string) (filter_form (dom s1)))
         (currentPage s1)).

Definition loadMore_settle (r : fetched) (s : state) : state :=
  match r with
  | Fetched data =>
      let d := append_html (html data) (dom s) in
      set_dom (if negb (has_more data) then hide_load_more d else d) s
  | NetworkFailure | NotOk | BadBody =>
      set_dom (console_error "Failed to load more notes" (dom s)) s
  end.

Definition loadMore (r : fetched) (s : state) : state :=
  loadMore_settle r (fst (loadMore_request s)).

Definition add_listeners (ls : list (string * handler)) (s : state) : state :=
  State (currentPage s) (CLASSES s) (COURSES_DICT s) (SUBJECTS s)
        (subjectChoice s) (numberChoice s) (listeners s ++ ls) (dom s).

(** [initializePage], on a page whose create and edit forms carry no subject
    and number lists of their own ([initializeCreateModalDropdowns] then
    returns at once and [initializeEditModalDropdowns] has nothing to visit).
    [u] is the part of the document in which the note modal is looked up;
    here the click listener is registered only [if (modal)]. *)
Definition initializePage (initialPage : number) (classes : list string)
    (coursesDict : gmap string (list string)) (subjects : list string)
    (selectedFilter : string) (u : Notes.ui) (s : state) : outcome state :=
  let s0 := State initialPage classes coursesDict subjects
                  (subjectChoice s) (numberChoice s) (listeners s) (dom s) in
  and_then (populateSubjects (Some selectedFilter) s0) (λ s1,
  and_then (updateNumberDropdown true (Some selectedFilter) s1) (λ s2,
    let s3 :=
      State (currentPage s2) (CLASSES s2) (COURSES_DICT s2) (SUBJECTS s2)
            (Some (Choices "subject-select" "Search subjects..."))
            (Some (Choices "number-select" "Search numbers..."))
            (listeners s2 ++ [("subject-select"%string, HandleSubjectChange);
                              ("number-select"%string, HandleNumberChange)])
            (dom s2) in
    match Notes.structured_wire u with
    | Ok ls => Done (add_listeners (map Notes.modal_listener ls) s3)
    | Throw e => Raised e s3
    end)).

(** The operations that follow initialization: the two populating functions,
    the filter submission and the two change listeners. *)
Inductive operation : Type :=
  | PopulateSubjects (currentFilter : option string)
  | UpdateNumberDropdown (preserveSelection : bool) (currentFilter : option string)
  | ApplyClassFilter
  | SubjectChange
  | NumberChange.

Definition run (op : operation) (s : state) : outcome state :=
  match op with
  | PopulateSubjects f => populateSubjects f s
  | UpdateNumberDropdown p f => updateNumberDropdown p f s
  | ApplyClassFilter => applyClassFilter s
  | SubjectChange => handleSubjectChange s
  | NumberChange => handleNumberChange s
  end.

Section Initialization.
(** [JSON.parse] on the text of a data attribute, for the shapes the page
    promises: an array of strings, and an object from subjects to arrays of
    number strings.  Both throw on malformed text. *)
Variable parse_string_array : string → result (list string).
Variable parse_catalog : string → result (gmap string (list string)).

Definition read_page_data (data : dataset)
  : result (number * list string * gmap string (list string) * list string * string) :=
  let initialPage := parseInt (or_default (data_page data) "1") in
  bind (parse_string_array (or_default (data_classes data) "[]")) (λ classes,
  bind (parse_catalog (or_default (data_courses_dict data) "{}")) (λ coursesDict,
  bind (parse_string_array (or_default (data_subjects data) "[]")) (λ subjects,
    let selectedFilter := or_default (data_selected_filter data) "All" in
    Ok (initialPage, classes, coursesDict, subjects, selectedFilter)))).

Definition on_DOMContentLoaded (data : dataset) (u : Notes.ui) (s : state)
  : outcome state :=
  match read_page_data data with
  | Throw e => Raised e s
  | Ok (initialPage, classes, coursesDict, subjects, selectedFilter) =>
      initializePage initialPage classes coursesDict subjects selectedFilter u s
  end.
End Initialization.

End Structured.

(* ================================================================== *)
(** ** Notions the specification uses                                   *)
(* ================================================================== *)

Module Spec.
Import Js Dom.

(** The combination rule for the two drop-down values: subject and number
    give their concatenation, a subject alone gives ["All"], no subject gives
    ["All"]. *)
Definition combined_filter (subject number : string) : string :=
  match subject, number with
  | String _ _, String _ _ => subject +:+ number
  | String _ _, EmptyString => "All"
  | EmptyString, _ => "All"
  end.

(** The numbers that the codes of a class list contribute to a subject, in
    the order of the list. *)
Fixpoint numbers_for (subject : string) (classes : list string) : list string :=
  match classes with
  | [] => []
  | cls :: rest =>
      match course_match cls with
      | Some (s, n) =>
          if decide (s = subject) then n :: numbers_for subject rest
          else numbers_for subject rest
      | None => numbers_for subject rest
      end
  end.

(** A string of digits, as the second group of the pattern captures it. *)
Definition digits (s : string) : Prop :=
  truthy s = true ∧ str_all is_digit s = true.

(** A result of [round_nonneg] is a non-negative integer or [Infinity]. *)
Definition ordinary (x : Js.number) : Prop :=
  match x with
  | Finite z => 0 <= z
  | PosInf => True
  | NegInf | NaN => False
  end.

(** Ascending numeric order of two number strings: by the Numbers that
    [parseInt] reads from them. *)
Definition numeric_le (a b : string) : Prop := num_le (parseInt a) (parseInt b).

(** The number that a string of decimal digits denotes, by the place of each
    digit: the last one counts ones, the one before it tens, and so on. *)
Fixpoint digits_value (s : string) : Z :=
  match s with
  | EmptyString => 0
  | String c rest =>
      (Z.of_N (N_of_ascii c) - 48) * 10 ^ Z.of_nat (String.length rest)
      + digits_value rest
  end.

(** Ascending order of two number strings by the numbers they denote. *)
Definition value_le (a b : string) : Prop := digits_value a <= digits_value b.

(** Ascending order of two number strings by the doubles nearest to the
    numbers they denote. *)
Definition double_le (a b : string) : Prop :=
  num_le (to_number (digits_value a)) (to_number (digits_value b)).

(** Lexicographic order of strings by character code. *)
Definition string_lt (a b : string) : Prop := String.compare a b = Lt.

(** An array already in the order [sort] with the numeric comparator leaves
    it in: no element is followed by one it compares greater than. *)
Fixpoint in_sort_order (l : list string) : bool :=
  match l with
  | x :: (y :: _) as rest => negb (num_pos (numeric_compare x y)) && in_sort_order rest
  | _ => true
  end.

(** The catalog after the array of one subject has been sorted in place with
    the numeric comparator. *)
Definition sorted_at (subject : string) (m : gmap string (list string))
  : gmap string (list string) :=
  match m !! subject with
  | Some numbers => <[subject := array_sort numeric_compare numbers]> m
  | None => m
  end.

(** The page as the template delivers it: the subject list starts with the
    "All Subjects" entry, whose value is empty. *)
Definition template_page (d : page) : Prop :=
  match subject_select d with
  | o :: _ => opt_value o = EmptyString
  | [] => False
  end.

(** A subject list as both scripts keep it: the entry with the empty value
    comes first, and any other entry that is selected carries the subject of
    the active filter. *)
Definition headed (current : string) (opts : list option_el) : Prop :=
  match opts with
  | o :: rest =>
      opt_value o = EmptyString
      ∧ Forall (λ x, opt_selected x = true → opt_value x = current) rest
  | [] => False
  end.

(** [JSON.parse] cut down to the two default texts: the empty array, the
    empty object; every other text is refused. *)
Definition parse_empty_array (text : string) : result (list string) :=
  if (text =? "[]")%string then Ok []
  else Throw (SyntaxError "unexpected token").


(** What the user sees of the page: everything but the console and the
    record of past submissions. *)
Definition visible (d : page) :=
  (subject_select d, number_select d, class_filter_hidden d, filter_form d,
   notes_container d, load_more d).

End Spec.

(* ================================================================== *)
(** ** The user at the filter form                                      *)
(* ================================================================== *)

Module Session.
Import Js Dom.

(** The list after the user has chosen its [i]-th entry: that entry alone is
    selected.  Choosing where there is no entry changes nothing. *)
Definition choose (i : nat) (opts : list option_el) : list option_el :=
  if decide (i < length opts)%nat
  then imap (λ j o, set_selected (bool_decide (j = i)) o) opts
  else opts.

Inductive user_event : Type :=
  | PickSubject (i : nat)
  | PickNumber (i : nat).

(** The choice is made in the list, then the [change] listener that
    [initializePage] registered on it runs. *)
Definition react (ev : user_event) (s : Flat.state) : outcome Flat.state :=
  match ev with
  | PickSubject i =>
      Flat.handleSubjectChange
        (Flat.set_dom (set_subject_select (choose i (subject_select (Flat.dom s)))
                         (Flat.dom s)) s)
  | PickNumber i =>
      Flat.handleNumberChange
        (Flat.set_dom (set_number_select (choose i (number_select (Flat.dom s)))
                         (Flat.dom s)) s)
  end.

Fixpoint play (evs : list user_event) (s : Flat.state) : outcome Flat.state :=
  match evs with
  | [] => Done s
  | ev :: rest => and_then (react ev s) (play rest)
  end.

(** Calls of [loadMore] one after the other, each settled before the next
    starts, with the given outcomes of their fetches. *)
Definition load_all (rs : list fetched) (s : Flat.state) : Flat.state :=
  fold_left (λ acc r, Flat.loadMore r acc) rs s.

End Session.

(* ================================================================== *)
(** ** Further notions                                                  *)
(* ================================================================== *)

Module Notions.
Import Js Dom.

(** A list with exactly one selected entry, whose value is [v]. *)
Definition one_selected (v : string) (opts : list option_el) : Prop :=
  existsb opt_selected opts = true
  ∧ keep_last_selected opts = opts
  ∧ select_value opts = v.

(** The filter form as the flat script builds it from a class list: the
    subject list holds the empty entry and then the subjects of the index,
    the number list the empty entry and then numbers of the selected
    subject. *)
Definition form_built (classes : list string) (d : page) : Prop :=
  (∃ idx, Flat.parse_list classes = Ok idx
     ∧ map opt_value (subject_select d) = EmptyString :: Flat.subjects idx)
  ∧ ∃ numbers,
      map opt_value (number_select d) = EmptyString :: numbers
      ∧ ∀ n, n ∈ numbers →
          n ∈ Spec.numbers_for (select_value (subject_select d)) classes.

(** An initialized page of the flat script with such a form. *)
Definition built_from (classes : list string) (s : Flat.state) : Prop :=
  Flat.CLASSES s = classes
  ∧ is_Some (Flat.numberChoice s)
  ∧ form_built classes (Flat.dom s).

(** Equality of two Numbers as values of the model ([NaN] is one value). *)
Definition same_number (x y : number) : bool :=
  match x, y with
  | Finite a, Finite b => (a =? b)%Z
  | PosInf, PosInf | NegInf, NegInf | NaN, NaN => true
  | _, _ => false
  end.

(** The numbers of a list that [parseInt] reads as [v], in their order. *)
Definition reading_as (v : number) (l : list string) : list string :=
  List.filter (λ s, same_number (parseInt s) v) l.

(** The fragments of the fetches that delivered, in their order. *)
Definition delivered (rs : list fetched) : list string :=
  omap (λ r, match r with Fetched data => Some (html data) | _ => None end) rs.

(** A value a submission may carry: "All", or a code of the class list. *)
Definition allowed (classes : list string) (v : string) : Prop :=
  v = "All"%string ∨ (v ∈ classes ∧ is_Some (course_match v)).

(** The events that dismiss the modal: a click on the overlay itself, and
    the Escape key while the modal is active. *)
Definition dismisses (ev : Notes.event) (u : Notes.ui) : bool :=
  match ev with
  | Notes.Click on_overlay => on_overlay
  | Notes.KeyDown key =>
      (key =? "Escape")%string
      && match Notes.elements u !! "note-modal"%string with
         | Some classes => Notes.class_contains "active" classes
         | None => false
         end
  end.

(** Two class lists that hold the same classes. *)
Definition same_classes (a b : option (list string)) : Prop :=
  match a, b with
  | Some l, Some l' => ∀ c, c ∈ l ↔ c ∈ l'
  | None, None => True
  | _, _ => False
  end.

(** What a filter operation leaves to apply to the state when it ends. *)
Definition outcome_map {S : Type} (f : S → S) (o : outcome S) : outcome S :=
  match o with
  | Done s => Done (f s)
  | Raised e s => Raised e (f s)
  end.

End Notions.

(* ================================================================== *)
(** ** Facts about the pattern                                          *)
(* ================================================================== *)

Module JsFacts.
Import Js.

Lemma app_nil (b : string) : EmptyString +:+ b = b.
Proof. reflexivity. Qed.

Lemma app_cons c (a b : string) : String c a +:+ b = String c (a +:+ b).
Proof. reflexivity. Qed.

Lemma app_empty_r (s : string) : s +:+ EmptyString = s.
Proof. induction s as [|c s IH]; [done|]. by rewrite app_cons, IH. Qed.

(** A class under [+] matches exactly the non-empty strings of the class. *)
Lemma matches_plus_class p s :
  matches (Plus (Class p)) s ↔ truthy s = true ∧ str_all p s = true.
Proof.
  split.
  - intros H. remember (Plus (Class p)) as r eqn:Er.
    induction H as [| | r s H _ | r s1 s2 H1 _ H2 IH2]; try discriminate.
    + injection Er as ->. inversion H; subst; simpl.
      match goal with Hp : p _ = true |- _ => rewrite Hp end. done.
    + injection Er as ->. destruct (IH2 eq_refl) as [_ Hall].
      inversion H1; subst. rewrite app_cons, app_nil. simpl.
      match goal with Hp : p _ = true |- _ => rewrite Hp end. done.
  - induction s as [|c s IH]; intros [Ht Hall]; [discriminate|].
    simpl in Hall. apply andb_true_iff in Hall as [Hc Hs].
    destruct s as [|c' s'].
    + apply matches_plus_one. by constructor.
    + change (String c (String c' s')) with (String c EmptyString +:+ String c' s').
      apply matches_plus_more; [by constructor|]. apply IH. done.
Qed.

Lemma class_disjoint c : is_upper c = true → is_digit c = false.
Proof.
  unfold is_upper, is_digit. intros H.
  apply andb_true_iff in H as [H1 H2]. apply N.leb_le in H1.
  apply andb_false_iff. right. apply N.leb_gt. lia.
Qed.

(** The greedy quantifier takes a whole run of the class when what follows
    does not start with a character of the class. *)
Lemma greedy_run p a b :
  str_all p a = true →
  match b with String c _ => p c = false | EmptyString => True end →
  greedy p (a +:+ b) = (a, b).
Proof.
  intros Ha Hb. induction a as [|c a IH].
  - rewrite app_nil. destruct b as [|c b]; [done|]. simpl. by rewrite Hb.
  - simpl in Ha. apply andb_true_iff in Ha as [Hc Ha].
    rewrite app_cons. simpl. rewrite Hc, (IH Ha). done.
Qed.

Lemma greedy_split p s a b :
  greedy p s = (a, b) →
  s = a +:+ b ∧ str_all p a = true
  ∧ match b with String c _ => p c = false | EmptyString => True end.
Proof.
  revert a b. induction s as [|c s IH]; simpl; intros a b H.
  - by injection H as <- <-.
  - destruct (p c) eqn:Hc.
    + destruct (greedy p s) as [a' b'] eqn:Hg. injection H as <- <-.
      destruct (IH _ _ eq_refl) as (-> & Ha & Hb).
      rewrite app_cons. simpl. rewrite Hc. done.
    + injection H as <- <-. done.
Qed.

(** What a successful match returns: the one way to cut the input into a
    non-empty run of capitals and a non-empty run of digits. *)
Lemma course_match_Some s a b :
  course_match s = Some (a, b) ↔
  s = a +:+ b ∧ truthy a = true ∧ str_all is_upper a = true
  ∧ truthy b = true ∧ str_all is_digit b = true.
Proof.
  unfold course_match. split.
  - destruct (greedy is_upper s) as [l r] eqn:H1.
    destruct (greedy is_digit r) as [d t] eqn:H2.
    destruct (truthy l && truthy d && negb (truthy t)) eqn:Hc; [|discriminate].
    intros [= <- <-].
    apply andb_true_iff in Hc as [Hc Ht]. apply andb_true_iff in Hc as [Hl Hd].
    destruct (greedy_split _ _ _ _ H1) as (-> & Hla & _).
    destruct (greedy_split _ _ _ _ H2) as (-> & Hda & _).
    destruct t; [|discriminate]. rewrite app_empty_r. done.
  - intros (-> & Ha & Hau & Hb & Hbd).
    rewrite (greedy_run is_upper a b Hau).
    + rewrite <- (app_empty_r b) at 1.
      rewrite (greedy_run is_digit b EmptyString Hbd I).
      rewrite Ha, Hb. done.
    + destruct b as [|c b]; [discriminate|]. simpl in Hbd.
      apply andb_true_iff in Hbd as [Hc _].
      destruct (is_upper c) eqn:Hu; [|done].
      apply class_disjoint in Hu. congruence.
Qed.

Lemma matches_course_code s :
  matches course_code_pattern s ↔
  ∃ a b, s = a +:+ b ∧ truthy a = true ∧ str_all is_upper a = true
         ∧ truthy b = true ∧ str_all is_digit b = true.
Proof.
  unfold course_code_pattern. split.
  - intros H. inversion H; subst.
    repeat match goal with
           | Hm : matches (Plus (Class _)) _ |- _ => apply matches_plus_class in Hm as [? ?]
           end.
    eauto 10.
  - intros (a & b & -> & Ha & Hau & Hb & Hbd).
    constructor; apply matches_plus_class; done.
Qed.

Lemma course_match_iff s :
  matches course_code_pattern s ↔ is_Some (course_match s).
Proof.
  rewrite matches_course_code. split.
  - intros (a & b & H). exists (a, b). by apply course_match_Some.
  - intros [[a b] H]. apply course_match_Some in H. eauto.
Qed.

Lemma course_match_None s :
  ¬ matches course_code_pattern s ↔ course_match s = None.
Proof.
  rewrite course_match_iff. destruct (course_match s) as [r|]; split.
  - intros H. destruct H. by exists r.
  - discriminate.
  - done.
  - intros _ [? ?]. discriminate.
Qed.

End JsFacts.

(* ================================================================== *)
(** ** Facts about Numbers and parseInt                                 *)
(* ================================================================== *)

Module NumberFacts.
Import Js JsFacts Spec.

(** Integers below [2^53] are Numbers as they are. *)
Lemma round_nonneg_exact z : z < 2 ^ 53 → round_nonneg z = Finite z.
Proof.
  intros H. unfold round_nonneg.
  destruct (z <? 2 ^ 53) eqn:E; [done|]. apply Z.ltb_ge in E. lia.
Qed.

Lemma to_number_exact z : - 2 ^ 53 < z < 2 ^ 53 → to_number z = Finite z.
Proof.
  intros H. unfold to_number. destruct (z <? 0) eqn:E.
  - rewrite round_nonneg_exact by lia. simpl. f_equal. lia.
  - apply round_nonneg_exact. lia.
Qed.

(** Rounding never turns a positive integer into zero or a negative. *)
Lemma round_nonneg_pos z :
  0 < z → num_pos (round_nonneg z) = true.
Proof.
  intros Hz. unfold round_nonneg.
  destruct (z <? 2 ^ 53) eqn:E; [simpl; by apply Z.ltb_lt|].
  apply Z.ltb_ge in E.
  set (e := Z.log2 z - 52).
  assert (He : 0 < e).
  { assert (53 <= Z.log2 z); [|lia].
    change 53 with (Z.log2 (2 ^ 53)). apply Z.log2_le_mono. done. }
  assert (Hq : 1 <= z / 2 ^ e).
  { apply Z.div_le_lower_bound; [apply Z.pow_pos_nonneg; lia|].
    rewrite Z.mul_1_r. transitivity (2 ^ Z.log2 z).
    - apply Z.pow_le_mono_r; lia.
    - apply Z.log2_spec. lia. }
  set (q := z / 2 ^ e) in *.
  set (q' := if z mod 2 ^ e <? 2 ^ (e - 1) then q
             else if 2 ^ (e - 1) <? z mod 2 ^ e then q + 1
             else if Z.even q then q else q + 1).
  assert (Hq' : 1 <= q').
  { unfold q'. repeat match goal with |- context [if ?b then _ else _] => destruct b end; lia. }
  destruct (q' * 2 ^ e <? 2 ^ 1024); [|done].
  simpl. apply Z.ltb_lt. apply Z.mul_pos_pos; [lia|]. apply Z.pow_pos_nonneg; lia.
Qed.

Lemma round_nonneg_ordinary z : 0 <= z → ordinary (round_nonneg z).
Proof.
  intros Hz. destruct (decide (z = 0)) as [->|Hne]; [simpl; lia|].
  pose proof (round_nonneg_pos z ltac:(lia)) as H.
  destruct (round_nonneg z); simpl in *; try done.
  apply Z.ltb_lt in H. lia.
Qed.

(** The sign test of the comparator sees the sign of the exact difference. *)
Lemma num_pos_to_number d : num_pos (to_number d) = (0 <? d).
Proof.
  unfold to_number. destruct (d <? 0) eqn:E.
  - apply Z.ltb_lt in E.
    pose proof (round_nonneg_pos (- d) ltac:(lia)) as H.
    replace (0 <? d) with false by (symmetry; apply Z.ltb_ge; lia).
    destruct (round_nonneg (- d)); simpl in *; try done.
    apply Z.ltb_lt in H. apply Z.ltb_ge. lia.
  - apply Z.ltb_ge in E. destruct (decide (d = 0)) as [->|Hne]; [done|].
    rewrite round_nonneg_pos by lia. symmetry. apply Z.ltb_lt. lia.
Qed.

Lemma num_sub_pos x y :
  ordinary x → ordinary y →
  num_pos (num_sub x y) = false ↔ num_le x y.
Proof.
  destruct x as [a| | |], y as [b| | |]; simpl; try done.
  intros _ _. unfold num_sub. simpl.
  replace (a + - b) with (a - b) by lia. rewrite num_pos_to_number.
  rewrite Z.ltb_ge. lia.
Qed.

Lemma num_le_total x y : ordinary x → ordinary y → num_le x y ∨ num_le y x.
Proof. destruct x, y; simpl; try done; try tauto. lia. Qed.

Lemma num_le_trans x y z : num_le x y → num_le y z → num_le x z.
Proof. destruct x, y, z; simpl; try done. lia. Qed.

(** *** parseInt on a string of digits *)

Lemma digit_of_decimal c : is_digit c = true →
  digit_of 10 c = Some (Z.of_N (N_of_ascii c) - 48) ∧ 0 <= Z.of_N (N_of_ascii c) - 48.
Proof.
  unfold is_digit, digit_of. intros H.
  apply andb_true_iff in H as [H1 H2]. apply N.leb_le in H1, H2.
  replace (48 <=? Z.of_N (N_of_ascii c)) with true by (symmetry; apply Z.leb_le; lia).
  replace (Z.of_N (N_of_ascii c) <=? 57) with true by (symmetry; apply Z.leb_le; lia).
  simpl. split; [done|lia].
Qed.

Lemma read_digits_decimal s acc :
  str_all is_digit s = true → 0 <= default 0 acc →
  match s with
  | EmptyString => read_digits 10 acc s = acc
  | String _ _ => ∃ v, read_digits 10 acc s = Some v ∧ 0 <= v
  end.
Proof.
  revert acc. induction s as [|c s IH]; intros acc Hs Hacc; [done|].
  simpl in Hs. apply andb_true_iff in Hs as [Hc Hs].
  destruct (digit_of_decimal c Hc) as [Hd Hn]. simpl. rewrite Hd.
  specialize (IH (Some (10 * default 0 acc + (Z.of_N (N_of_ascii c) - 48))) Hs).
  simpl in IH. specialize (IH ltac:(lia)).
  destruct s as [|c' s']; [|done].
  simpl in *. eexists. split; [done|lia].
Qed.

Lemma digit_not c (k : ascii) : is_digit c = true → is_digit k = false → (c =? k)%char = false.
Proof.
  intros Hc Hk. apply Ascii.eqb_neq. intros ->. congruence.
Qed.

(** On a non-empty string of digits [parseInt] finds no white space, no
    sign and no radix prefix: it rounds the decimal value. *)
Lemma parseInt_digits s :
  truthy s = true → str_all is_digit s = true →
  parseInt s = round_nonneg (decimal_value s) ∧ 0 <= decimal_value s.
Proof.
  intros Ht Hs. destruct s as [|c s]; [discriminate|].
  pose proof Hs as Hs'. simpl in Hs'. apply andb_true_iff in Hs' as [Hc Hrest].
  assert (Hsp : is_space c = false).
  { unfold is_space, is_digit in *.
    apply andb_true_iff in Hc as [H1 H2]. apply N.leb_le in H1, H2.
    repeat (apply orb_false_iff; split).
    - apply andb_false_iff. right. apply N.leb_gt. lia.
    - apply N.eqb_neq. lia.
    - apply N.eqb_neq. lia. }
  unfold parseInt. simpl skip_spaces. rewrite Hsp.
  rewrite (digit_not c "-" Hc eq_refl), (digit_not c "+" Hc eq_refl).
  assert (Hpre : (match String c s with
                  | String c0 (String x t) =>
                      if (c0 =? "0")%char && ((x =? "x")%char || (x =? "X")%char)
                      then (16, t) else (10, String c s)
                  | _ => (10, String c s)
                  end) = (10, String c s)).
  { destruct s as [|x t]; [done|].
    simpl in Hrest. apply andb_true_iff in Hrest as [Hx _].
    rewrite (digit_not x "x" Hx eq_refl), (digit_not x "X" Hx eq_refl).
    by rewrite andb_false_r. }
  rewrite Hpre.
  pose proof (read_digits_decimal (String c s) None Hs ltac:(simpl; lia)) as (v & Hv & Hv0).
  unfold decimal_value. rewrite Hv. simpl. done.
Qed.

Lemma parseInt_ordinary s :
  truthy s = true → str_all is_digit s = true → ordinary (parseInt s).
Proof.
  intros Ht Hs. destruct (parseInt_digits s Ht Hs) as [-> H0].
  by apply round_nonneg_ordinary.
Qed.

(** Below [2^53] the Number read from a string of digits is its value. *)
Lemma parseInt_exact s :
  truthy s = true → str_all is_digit s = true → decimal_value s < 2 ^ 53 →
  parseInt s = Finite (decimal_value s).
Proof.
  intros Ht Hs Hb. destruct (parseInt_digits s Ht Hs) as [-> _].
  by apply round_nonneg_exact.
Qed.

(** Below [2^53] the numeric order of two strings of digits is the order of
    their decimal values. *)
Lemma numeric_le_exact a b :
  digits a → digits b → decimal_value a < 2 ^ 53 → decimal_value b < 2 ^ 53 →
  numeric_le a b ↔ decimal_value a <= decimal_value b.
Proof.
  intros [Ha1 Ha2] [Hb1 Hb2] Ha Hb. unfold numeric_le.
  by rewrite (parseInt_exact a), (parseInt_exact b).
Qed.

(** The digits that [parseInt] accumulates one by one make the number the
    string denotes by the places of its digits. *)
Lemma read_digits_value s acc :
  str_all is_digit s = true →
  default 0 (read_digits 10 acc s)
  = default 0 acc * 10 ^ Z.of_nat (String.length s) + digits_value s.
Proof.
  revert acc. induction s as [|c s IH]; intros acc Hs.
  - simpl. lia.
  - simpl in Hs. apply andb_true_iff in Hs as [Hc Hs].
    destruct (digit_of_decimal c Hc) as [Hd _].
    cbn [read_digits digits_value String.length]. rewrite Hd, (IH _ Hs).
    rewrite Nat2Z.inj_succ, Z.pow_succ_r by lia.
    change (default 0 (Some ?x)) with x.
    generalize (10 ^ Z.of_nat (String.length s)), (default 0 acc),
      (Z.of_N (N_of_ascii c)), (digits_value s).
    intros. ring.
Qed.

Lemma decimal_value_digits s :
  str_all is_digit s = true → decimal_value s = digits_value s.
Proof.
  intros Hs. unfold decimal_value. rewrite (read_digits_value s None Hs).
  simpl. lia.
Qed.

(** [parseInt] reads from a string of digits the double nearest to the
    number it denotes. *)
Lemma parseInt_value s :
  digits s → parseInt s = to_number (digits_value s) ∧ 0 <= digits_value s.
Proof.
  intros [Ht Hs]. destruct (parseInt_digits s Ht Hs) as [-> H0].
  rewrite (decimal_value_digits s Hs) in *. split; [|done].
  unfold to_number. by replace (digits_value s <? 0) with false by (symmetry; apply Z.ltb_ge; lia).
Qed.

Lemma numeric_le_double a b :
  digits a → digits b → numeric_le a b → double_le a b.
Proof.
  intros Ha Hb. unfold numeric_le, double_le.
  destruct (parseInt_value a Ha) as [-> _]. by destruct (parseInt_value b Hb) as [-> _].
Qed.

(** Below [2^53] the order of the doubles is the order of the numbers. *)
Lemma double_le_value a b :
  digits a → digits b → digits_value a < 2 ^ 53 → digits_value b < 2 ^ 53 →
  double_le a b → value_le a b.
Proof.
  intros Ha Hb Hva Hvb. unfold double_le, value_le.
  destruct (parseInt_value a Ha) as [_ H0a]. destruct (parseInt_value b Hb) as [_ H0b].
  rewrite !to_number_exact by lia. done.
Qed.

(** Adding one to a page number below [2^53 - 1] is exact. *)
Lemma num_add_one_exact n :
  0 <= n < 2 ^ 53 - 1 → num_add (Finite n) (Finite 1) = Finite (n + 1).
Proof. intros H. simpl. apply to_number_exact. lia. Qed.

End NumberFacts.

(* ================================================================== *)
(** ** Facts about sorting                                              *)
(* ================================================================== *)

Module SortFacts.
Import Js JsFacts Spec NumberFacts.

Section Generic.
Context {A : Type} (cmp : A → A → number).

Lemma sort_insert_perm x l : sort_insert cmp x l ≡ₚ x :: l.
Proof.
  induction l as [|y l IH]; simpl; [done|].
  destruct (num_pos (cmp x y)); [|done].
  rewrite IH. apply perm_swap.
Qed.

Lemma array_sort_perm l : array_sort cmp l ≡ₚ l.
Proof.
  induction l as [|x l IH]; simpl; [done|].
  by rewrite sort_insert_perm, IH.
Qed.

(** The elements all lie in a domain [P] on which the comparator's sign
    test decides a transitive relation [R]. *)
Variable P : A → Prop.
Variable R : A → A → Prop.
Hypothesis cmp_le : ∀ x y, P x → P y → num_pos (cmp x y) = false → R x y.
Hypothesis cmp_gt : ∀ x y, P x → P y → num_pos (cmp x y) = true → R y x.
Hypothesis R_trans : ∀ x y z, R x y → R y z → R x z.

Lemma sort_insert_sorted x l :
  P x → Forall P l → StronglySorted R l → StronglySorted R (sort_insert cmp x l).
Proof.
  intros Hx Hl Hs. induction l as [|y l IH]; simpl.
  - repeat constructor.
  - apply Forall_cons in Hl as [Hy Hl].
    apply StronglySorted_inv in Hs as [Hs Hall].
    destruct (num_pos (cmp x y)) eqn:E.
    + constructor; [by apply IH|].
      rewrite sort_insert_perm. constructor; [by apply cmp_gt|done].
    + pose proof (cmp_le x y Hx Hy E) as Hxy.
      constructor; [by constructor|].
      constructor; [done|].
      eapply Forall_impl; [exact Hall|]. intros z Hz. by eapply R_trans.
Qed.

Lemma array_sort_sorted l : Forall P l → StronglySorted R (array_sort cmp l).
Proof.
  induction l as [|x l IH]; intros Hl; simpl; [constructor|].
  apply Forall_cons in Hl as [Hx Hl].
  apply sort_insert_sorted; [done| |by apply IH].
  by rewrite array_sort_perm.
Qed.
End Generic.

(** A list sorted by one relation is sorted by another that follows from it
    on the elements of the list. *)
Lemma sorted_among {A : Type} (P : A → Prop) (R R' : A → A → Prop) (l : list A) :
  (∀ a b, P a → P b → R a b → R' a b) →
  Forall P l → StronglySorted R l → StronglySorted R' l.
Proof.
  intros HR Hl Hs. induction Hs as [|x l Hs IH Hall]; [constructor|].
  apply Forall_cons in Hl as [Hx Hl].
  constructor; [by apply IH|].
  rewrite Forall_forall in Hall, Hl |- *.
  intros y Hy. apply HR; [done|by apply Hl|by apply Hall].
Qed.

(** Sorting an array that is already in order changes nothing. *)
Lemma array_sort_in_order l :
  in_sort_order l = true → array_sort numeric_compare l = l.
Proof.
  induction l as [|x l IH]; [done|]. intros H. simpl.
  destruct l as [|y l]; [done|].
  change (in_sort_order (x :: y :: l))
    with (negb (num_pos (numeric_compare x y)) && in_sort_order (y :: l)) in H.
  apply andb_true_iff in H as [Hxy Hl]. rewrite (IH Hl). simpl.
  apply negb_true_iff in Hxy. by rewrite Hxy.
Qed.

(** The numeric comparator orders strings of digits by their Numbers. *)
Lemma numeric_sorted l :
  Forall digits l → StronglySorted numeric_le (array_sort numeric_compare l).
Proof.
  apply (array_sort_sorted numeric_compare digits numeric_le).
  - intros x y [Hx1 Hx2] [Hy1 Hy2] H. unfold numeric_le.
    apply num_sub_pos; [by apply parseInt_ordinary..|done].
  - intros x y [Hx1 Hx2] [Hy1 Hy2] H. unfold numeric_le, numeric_compare in *.
    pose proof (parseInt_ordinary x Hx1 Hx2) as Ox.
    pose proof (parseInt_ordinary y Hy1 Hy2) as Oy.
    destruct (num_le_total _ _ Ox Oy) as [Hle|Hle]; [|done].
    apply num_sub_pos in Hle; [congruence|done..].
  - intros x y z. apply num_le_trans.
Qed.

(** *** The default order on strings *)

Lemma leb_compare a b : String.leb a b = true ↔ String.compare a b ≠ Gt.
Proof. unfold String.leb. destruct (String.compare a b); split; congruence. Qed.

Lemma default_sorted l : StronglySorted String.le (array_sort default_compare l).
Proof.
  apply (array_sort_sorted default_compare (λ _, True) String.le); [| |..].
  - intros x y _ _ H. unfold String.le. apply Is_true_true, leb_compare.
    unfold default_compare in H. destruct (String.compare x y); cbv in H; congruence.
  - intros x y _ _ H. unfold String.le. apply Is_true_true, leb_compare.
    unfold default_compare in H. rewrite String.compare_antisym.
    destruct (String.compare x y); cbv in H |- *; congruence.
  - intros x y z. apply transitivity.
  - by apply Forall_forall.
Qed.

Lemma le_neq_lt a b : String.le a b → a ≠ b → string_lt a b.
Proof.
  unfold String.le, string_lt. intros H Hne.
  apply Is_true_true, leb_compare in H.
  destruct (String.compare a b) eqn:E; try done.
  apply String.compare_eq_iff in E. done.
Qed.

Lemma sorted_nodup_strict l :
  StronglySorted String.le l → NoDup l → StronglySorted string_lt l.
Proof.
  induction 1 as [|x l Hs IH Hall]; intros Hnd; [constructor|].
  apply NoDup_cons in Hnd as [Hx Hnd].
  constructor; [by apply IH|].
  apply Forall_forall. intros y Hy.
  apply le_neq_lt; [by eapply Forall_forall in Hall|].
  intros ->. done.
Qed.

End SortFacts.

(* ================================================================== *)
(** ** Facts about the drop-down lists                                  *)
(* ================================================================== *)

Module DomFacts.
Import Js Dom.

Lemma values_keep_last opts :
  map opt_value (keep_last_selected opts) = map opt_value opts.
Proof.
  induction opts as [|o opts IH]; simpl; [done|].
  rewrite IH. by destruct (opt_selected o && existsb opt_selected opts).
Qed.

Lemma values_selectedness opts :
  map opt_value (selectedness opts) = map opt_value opts.
Proof.
  unfold selectedness. destruct (existsb opt_selected opts).
  - apply values_keep_last.
  - by destruct opts.
Qed.

Lemma values_append_child opts o :
  map opt_value (append_child opts o) = map opt_value opts ++ [opt_value o].
Proof. unfold append_child. by rewrite values_selectedness, map_app. Qed.

(** The values of a list after a pass that appends one option per entry. *)
Lemma values_add_options current entries opts :
  map opt_value (Flat.add_options current entries opts)
  = map opt_value opts ++ entries.
Proof.
  revert opts. unfold Flat.add_options.
  induction entries as [|e entries IH]; intros opts; simpl.
  - by rewrite app_nil_r.
  - rewrite IH, values_append_child. simpl. by rewrite <- app_assoc.
Qed.

End DomFacts.

(* ================================================================== *)
(** ** Facts about the index built from the class list                  *)
(* ================================================================== *)

Module FlatFacts.
Import Js Dom Flat Spec JsFacts NumberFacts SortFacts DomFacts.

(** No name inherited from [Object.prototype] is made of capitals only. *)
Lemma upper_not_inherited subject :
  str_all is_upper subject = true → subject ∉ object_prototype_names.
Proof.
  intros Hup Hin. apply list_elem_of_In in Hin. simpl in Hin.
  repeat (destruct Hin as [<-|Hin]; [vm_compute in Hup; discriminate|]).
  done.
Qed.

Lemma set_add_elem x y l : x ∈ set_add y l ↔ x ∈ l ∨ x = y.
Proof.
  unfold set_add. destruct (decide (y ∈ l)) as [Hy|Hy].
  - split; [by left|]. intros [H| ->]; done.
  - rewrite elem_of_app, list_elem_of_singleton. done.
Qed.

Lemma set_add_NoDup y l : NoDup l → NoDup (set_add y l).
Proof.
  unfold set_add. intros H. destruct (decide (y ∈ l)) as [Hy|Hy]; [done|].
  apply NoDup_app. split; [done|]. split; [|apply NoDup_singleton].
  intros x Hx Hx'. apply list_elem_of_singleton in Hx'. by subst.
Qed.

(** What one pass over the class list leaves in the Set and in the object. It
    never throws: a captured subject is made of capitals, so the object has
    the property itself or does not have it at all. *)
Lemma for_each_parse classes seen m :
  ∃ seen' m',
    for_each parse_class classes (seen, m) = Ok (seen', m')
    ∧ (∀ subject, m' !! subject =
         match numbers_for subject classes with
         | [] => m !! subject
         | ns => Some (default [] (m !! subject) ++ ns)
         end)
    ∧ (∀ x, x ∈ seen' ↔ x ∈ seen ∨ numbers_for x classes ≠ [])
    ∧ (NoDup seen → NoDup seen').
Proof.
  revert seen m. induction classes as [|cls classes IH]; intros seen m.
  - exists seen, m. simpl. split_and!; try done.
    intros x. split; [by left|]. intros [H|H]; done.
  - simpl. unfold parse_class at 1.
    destruct (course_match cls) as [[s n]|] eqn:Hm.
    + pose proof Hm as Hm'. apply course_match_Some in Hm' as (_ & _ & Hup & _).
      pose proof (upper_not_inherited s Hup) as Hni.
      set (m1 := <[s := default [] (m !! s) ++ [n]]> m).
      assert (match get_prop (snd (seen, m)) s with
              | Own numbers0 => Ok (set_add s (fst (seen, m)), <[s:=numbers0 ++ [n]]> (snd (seen, m)))
              | Inherited => Throw (TypeError "classesBySubject[subject].push is not a function")
              | Undefined => Ok (set_add s (fst (seen, m)), <[s:=[n]]> (snd (seen, m)))
              end = Ok (set_add s seen, m1)) as ->.
      { unfold get_prop, m1. simpl. destruct (m !! s) as [l0|]; [done|].
        by rewrite decide_False. }
      simpl. destruct (IH (set_add s seen) m1) as (seen' & m' & Hrun & Hmap & Hseen & Hnd).
      exists seen', m'. split; [done|]. split_and!.
      * intros subject. rewrite Hmap. unfold m1.
        destruct (decide (s = subject)) as [->|Hne].
        -- rewrite lookup_insert_eq. simpl.
           destruct (numbers_for subject classes); [done|].
           by rewrite <- app_assoc.
        -- by rewrite lookup_insert_ne.
      * intros x. rewrite Hseen, set_add_elem.
        destruct (decide (s = x)) as [->|Hne].
        -- split; [right; discriminate|tauto].
        -- split; [intros [[H|H]|H]|intros [H|H]]; try tauto. congruence.
      * intros H. by apply Hnd, set_add_NoDup.
    + simpl. apply IH.
Qed.

(** [parseClasses] returns, whatever the class list. *)
Lemma parse_list_index classes :
  ∃ idx, parse_list classes = Ok idx
    ∧ (∀ subject, classesBySubject idx !! subject =
         match numbers_for subject classes with
         | [] => None
         | ns => Some ns
         end)
    ∧ (∀ x, x ∈ subjects idx ↔ numbers_for x classes ≠ [])
    ∧ NoDup (subjects idx)
    ∧ StronglySorted string_lt (subjects idx).
Proof.
  unfold parse_list.
  destruct (for_each_parse classes [] ∅) as (seen & m & -> & Hmap & Hseen & Hnd).
  simpl. eexists. split; [done|]. simpl.
  assert (NoDup (array_sort default_compare seen)) as Hnd'.
  { rewrite array_sort_perm. apply Hnd. constructor. }
  split_and!.
  - intros subject. rewrite Hmap, lookup_empty.
    by destruct (numbers_for subject classes).
  - intros x. rewrite array_sort_perm, Hseen. split; [|by right].
    intros [H|H]; [|done]. by apply elem_of_nil in H.
  - done.
  - apply sorted_nodup_strict; [apply default_sorted|done].
Qed.

Lemma numbers_for_elem subject n classes :
  n ∈ numbers_for subject classes ↔
  ∃ cls, cls ∈ classes ∧ course_match cls = Some (subject, n).
Proof.
  induction classes as [|cls classes IH]; simpl.
  - split; [by intros ?%elem_of_nil|]. by intros (? & ?%elem_of_nil & _).
  - destruct (course_match cls) as [[s k]|] eqn:Hm.
    + destruct (decide (s = subject)) as [->|Hne].
      * rewrite elem_of_cons, IH. split.
        -- intros [->|(c & Hc & Hc')]; [exists cls|exists c]; rewrite elem_of_cons; eauto.
        -- intros (c & [->|Hc]%elem_of_cons & Hc'); [left; congruence|right; eauto].
      * rewrite IH. split.
        -- intros (c & Hc & Hc'). exists c. rewrite elem_of_cons; eauto.
        -- intros (c & [->|Hc]%elem_of_cons & Hc'); [congruence|eauto].
    + rewrite IH. split.
      * intros (c & Hc & Hc'). exists c. rewrite elem_of_cons; eauto.
      * intros (c & [->|Hc]%elem_of_cons & Hc'); [congruence|eauto].
Qed.

Lemma numbers_for_digits subject classes : Forall digits (numbers_for subject classes).
Proof.
  apply Forall_forall. intros n Hn.
  apply numbers_for_elem in Hn as (cls & _ & Hm).
  apply course_match_Some in Hm as (_ & _ & _ & H1 & H2). by split.
Qed.

(** A code the pattern rejects leaves the pass where it was. *)
Lemma for_each_skip l1 c l2 acc :
  course_match c = None →
  for_each parse_class (l1 ++ c :: l2) acc = for_each parse_class (l1 ++ l2) acc.
Proof.
  intros Hc. revert acc. induction l1 as [|x l1 IH]; intros acc; simpl.
  - unfold parse_class at 1. by rewrite Hc.
  - destruct (parse_class acc x); simpl; [apply IH|done].
Qed.

End FlatFacts.

(* ================================================================== *)
(** ** What the operations leave of the course index                    *)
(* ================================================================== *)

Module IndexFacts.
Import Js Dom Spec JsFacts NumberFacts SortFacts DomFacts.

(** The flat script never assigns [CLASSES] after initialization. *)
Lemma flat_run_CLASSES op s : Flat.CLASSES (final (Flat.run op s)) = Flat.CLASSES s.
Proof.
  destruct op as [f|p f| | |]; simpl.
  - unfold Flat.populateSubjects. by destruct (Flat.parseClasses s).
  - unfold Flat.updateNumberDropdown. destruct (Flat.parseClasses s) as [idx|]; [|done].
    destruct (truthy _); [|done]. by destruct (get_prop _ _).
  - done.
  - unfold Flat.handleSubjectChange, Flat.updateNumberDropdown.
    destruct (Flat.parseClasses s) as [idx|]; [|done].
    destruct (truthy (select_value (subject_select (Flat.dom s)))).
    + destruct (get_prop _ _); simpl; try done;
        destruct (Flat.numberChoice s); simpl; try done;
        by match goal with |- context [if ?b then _ else _] => destruct b end.
    + simpl. destruct (Flat.numberChoice s); simpl; [|done].
      by match goal with |- context [if ?b then _ else _] => destruct b end.
  - unfold Flat.handleNumberChange, Flat.applyClassFilter.
    by match goal with |- context [if ?b then _ else _] => destruct b end.
Qed.

(** What rebuilding the number list does to the globals of the structured
    script: the array of the selected subject, if the catalog has one, is
    sorted in place; nothing else is assigned. *)
Lemma structured_update_globals p f s :
  let s' := final (Structured.updateNumberDropdown p f s) in
  Structured.SUBJECTS s' = Structured.SUBJECTS s
  ∧ Structured.CLASSES s' = Structured.CLASSES s
  ∧ Structured.numberChoice s' = Structured.numberChoice s
  ∧ subject_select (Structured.dom s') = subject_select (Structured.dom s)
  ∧ (Structured.COURSES_DICT s' = Structured.COURSES_DICT s
     ∨ Structured.COURSES_DICT s'
       = sorted_at (select_value (subject_select (Structured.dom s)))
                   (Structured.COURSES_DICT s)).
Proof.
  unfold Structured.updateNumberDropdown, sorted_at, get_prop. simpl.
  destruct (truthy _); [|simpl; tauto].
  destruct (Structured.COURSES_DICT s !! _) as [numbers|]; simpl; [tauto|].
  destruct (decide _); simpl; tauto.
Qed.

Lemma structured_run_globals op s :
  let s' := final (Structured.run op s) in
  Structured.SUBJECTS s' = Structured.SUBJECTS s
  ∧ Structured.CLASSES s' = Structured.CLASSES s
  ∧ (Structured.COURSES_DICT s' = Structured.COURSES_DICT s
     ∨ Structured.COURSES_DICT s'
       = sorted_at (select_value (subject_select (Structured.dom s)))
                   (Structured.COURSES_DICT s)).
Proof.
  destruct op as [f|p f| | |]; simpl.
  - tauto.
  - pose proof (structured_update_globals p f s) as H. simpl in H. tauto.
  - tauto.
  - pose proof (structured_update_globals false None s) as H. simpl in H.
    unfold Structured.handleSubjectChange.
    destruct (Structured.updateNumberDropdown false None s) as [s1|e s1]; simpl in *;
      [|tauto].
    destruct (Structured.numberChoice s1); simpl; [|tauto].
    match goal with |- context [if ?b then _ else _] => destruct b end; simpl; tauto.
  - unfold Structured.handleNumberChange, Structured.applyClassFilter.
    match goal with |- context [if ?b then _ else _] => destruct b end; simpl; tauto.
Qed.

(** Sorting one array in place keeps the subjects of the catalog and the
    numbers of each, touches no other subject, and changes nothing when the
    array was in order. *)
Lemma sorted_at_lookup selected m subject :
  match m !! subject with
  | None => sorted_at selected m !! subject = None
  | Some numbers =>
      ∃ numbers', sorted_at selected m !! subject = Some numbers'
        ∧ numbers' ≡ₚ numbers
        ∧ (numbers' = numbers
           ∨ subject = selected ∧ numbers' = array_sort numeric_compare numbers)
        ∧ (in_sort_order numbers = false ∨ numbers' = numbers)
  end.
Proof.
  unfold sorted_at. destruct (m !! selected) as [l|] eqn:Hsel.
  - destruct (decide (selected = subject)) as [->|Hne].
    + rewrite Hsel, lookup_insert_eq. eexists. split; [done|]. split_and!.
      * apply array_sort_perm.
      * by right.
      * destruct (in_sort_order l) eqn:E; [right|by left].
        by apply array_sort_in_order.
    + rewrite lookup_insert_ne by done.
      destruct (m !! subject) as [numbers|]; [|done].
      exists numbers. split_and!; try done; first [by left|by right].
  - destruct (m !! subject) as [numbers|]; [|done].
    exists numbers. split_and!; try done; first [by left|by right].
Qed.

End IndexFacts.

(* ================================================================== *)
(** ** Initialization never throws on the template's page              *)
(* ================================================================== *)

Module InitFacts.
Import Js Dom Spec JsFacts NumberFacts SortFacts DomFacts FlatFacts.

Lemma headed_clear current d :
  template_page d → headed current (clear_after_first (subject_select d)).
Proof.
  unfold template_page, headed, clear_after_first.
  destruct (subject_select d) as [|o [|o' rest]]; [done| |]; intros H; simpl.
  - split; [done|constructor].
  - split; [done|constructor].
Qed.

Lemma keep_last_selected_weaker (Q : option_el → Prop) opts :
  (∀ o, Q o → Q (set_selected false o)) →
  Forall Q opts → Forall Q (keep_last_selected opts).
Proof.
  intros HQ. induction 1 as [|o opts Ho Hall IH]; simpl; [constructor|].
  constructor; [|done].
  destruct (opt_selected o && existsb opt_selected opts); [by apply HQ|done].
Qed.

Lemma headed_append current opts o :
  headed current opts →
  (opt_selected o = true → opt_value o = current) →
  headed current (append_child opts o).
Proof.
  unfold headed, append_child, selectedness.
  destruct opts as [|h rest]; [done|]. intros [Hh Hrest] Ho.
  assert (Forall (λ x, opt_selected x = true → opt_value x = current) (rest ++ [o])) as Hall.
  { apply Forall_app. split; [done|]. by constructor. }
  change ((h :: rest) ++ [o]) with (h :: (rest ++ [o])).
  destruct (existsb opt_selected (h :: rest ++ [o])); simpl.
  - split; [by destruct (opt_selected h && existsb opt_selected (rest ++ [o]))|].
    apply keep_last_selected_weaker; [|done]. intros x _. simpl. discriminate.
  - done.
Qed.

Lemma headed_add_options current entries opts :
  headed current opts → headed current (Flat.add_options current entries opts).
Proof.
  revert opts. unfold Flat.add_options.
  induction entries as [|e entries IH]; intros opts H; simpl; [done|].
  apply IH, headed_append; [done|]. simpl. by intros ->%String.eqb_eq.
Qed.

Lemma headed_value current opts :
  headed current opts →
  select_value opts = EmptyString ∨ select_value opts = current.
Proof.
  unfold headed, select_value. destruct opts as [|h rest]; [done|].
  intros [Hh Hrest]. simpl. destruct (opt_selected h); [by left|].
  destruct (find opt_selected rest) as [x|] eqn:E; [|by left].
  apply find_some in E as [Hin Hsel]. right.
  rewrite Forall_forall in Hrest. apply Hrest; [|done]. by apply list_elem_of_In.
Qed.









(** A selected subject that the catalog does not have, and that is not the
    name of an inherited property either, gets the empty list of numbers. *)
Lemma unknown_subject_only_sentinel p f (s : Structured.state) :
  get_prop (Structured.COURSES_DICT s) (select_value (subject_select (Structured.dom s)))
  = Undefined →
  ∃ s', Structured.updateNumberDropdown p f s = Done s'
        ∧ number_select (Structured.dom s') = [all_numbers]
        ∧ Structured.COURSES_DICT s' = Structured.COURSES_DICT s.
Proof.
  intros Hg. unfold Structured.updateNumberDropdown. simpl. rewrite Hg.
  destruct (truthy _); by eexists.
Qed.

End InitFacts.

(* ================================================================== *)
(** ** Properties of the course index and of the filter                 *)
(* ================================================================== *)

Module Claims.
Import Js Dom Spec JsFacts NumberFacts SortFacts DomFacts FlatFacts IndexFacts InitFacts.

Local Open Scope string_scope.
Local Open Scope list_scope.

(** C1. A course code that matches [^[A-Z]+[0-9]+$] is decomposed by the
    script's pattern into a subject and a number whose concatenation is the
    code again, and no other cut of the code into capitals followed by digits
    exists. *)
Theorem course_code_roundtrip (code : string) :
  matches course_code_pattern code →
  ∃ subject number,
    course_match code = Some (subject, number)
    ∧ subject +:+ number = code
    ∧ matches (Plus (Class is_upper)) subject
    ∧ matches (Plus (Class is_digit)) number
    ∧ ∀ subject' number',
        matches (Plus (Class is_upper)) subject' →
        matches (Plus (Class is_digit)) number' →
        subject' +:+ number' = code →
        subject' = subject ∧ number' = number.
Proof.
  intros Hcode. apply course_match_iff in Hcode as [[subject number] Hm].
  exists subject, number. split; [done|].
  pose proof Hm as (-> & Hs & Hsu & Hn & Hnd)%course_match_Some.
  split; [done|]. split; [by apply matches_plus_class|].
  split; [by apply matches_plus_class|].
  intros subject' number' [Hs' Hsu']%matches_plus_class [Hn' Hnd']%matches_plus_class Heq.
  assert (course_match (subject +:+ number) = Some (subject', number')) as Hm'.
  { apply course_match_Some. done. }
  rewrite Hm in Hm'. by injection Hm' as -> ->.
Qed.

Lemma course_code_roundtrip_witness :
  matches course_code_pattern "CS124"
  ∧ ∃ subject number,
      course_match "CS124" = Some (subject, number)
      ∧ subject +:+ number = "CS124"
      ∧ matches (Plus (Class is_upper)) subject
      ∧ matches (Plus (Class is_digit)) number
      ∧ ∀ subject' number',
          matches (Plus (Class is_upper)) subject' →
          matches (Plus (Class is_digit)) number' →
          subject' +:+ number' = "CS124" →
          subject' = subject ∧ number' = number.
Proof.
  assert (matches course_code_pattern "CS124") as H.
  { apply matches_course_code. exists "CS", "124". vm_compute. done. }
  split; [exact H|]. exact (course_code_roundtrip "CS124" H).
Defined.

(** C2. [applyClassFilter] writes into the hidden field the value that the
    combination rule gives for the two drop-down values, whatever they are,
    and submits the form with it. *)
Theorem applyClassFilter_combines :
  (∀ s : Flat.state,
     let subject := select_value (subject_select (Flat.dom s)) in
     let number := select_value (number_select (Flat.dom s)) in
     ∃ s', Flat.applyClassFilter s = Done s'
       ∧ class_filter_hidden (Flat.dom s') = combined_filter subject number
       ∧ course_filter_submits (Flat.dom s')
         = course_filter_submits (Flat.dom s) ++ [combined_filter subject number])
  ∧ (∀ s : Structured.state,
     let subject := select_value (subject_select (Structured.dom s)) in
     let number := select_value (number_select (Structured.dom s)) in
     ∃ s', Structured.applyClassFilter s = Done s'
       ∧ class_filter_hidden (Structured.dom s') = combined_filter subject number
       ∧ course_filter_submits (Structured.dom s')
         = course_filter_submits (Structured.dom s) ++ [combined_filter subject number]).
Proof.
  split; intros s subject number; eexists; (split; [reflexivity|]); simpl;
    fold subject; fold number; destruct subject, number; done.
Qed.

(** The three rows of the truth table of the combination rule. *)
Example combined_filter_table :
  combined_filter "CS" "124" = "CS124"
  ∧ combined_filter "CS" "" = "All"
  ∧ ∀ number, combined_filter "" number = "All".
Proof. done. Qed.

(** C4. The subjects that [parseClasses] returns for a class list are free
    of duplicates and in strictly ascending lexicographic order; they are
    the subjects of the codes that match the pattern. *)
Theorem subjects_unique_sorted (s : Flat.state) :
  ∃ idx, Flat.parseClasses s = Ok idx
    ∧ NoDup (Flat.subjects idx)
    ∧ StronglySorted string_lt (Flat.subjects idx)
    ∧ ∀ subject, subject ∈ Flat.subjects idx ↔
        ∃ cls number, cls ∈ Flat.CLASSES s ∧ course_match cls = Some (subject, number).
Proof.
  unfold Flat.parseClasses.
  destruct (parse_list_index (Flat.CLASSES s)) as (idx & Hidx & _ & Hsub & Hnd & Hsorted).
  exists idx. split_and!; try done.
  intros subject. rewrite Hsub. split.
  - intros Hne. destruct (numbers_for subject (Flat.CLASSES s)) as [|n ns] eqn:E; [done|].
    assert (n ∈ numbers_for subject (Flat.CLASSES s)) as Hn by (rewrite E; left).
    apply numbers_for_elem in Hn as (cls & ? & ?). eauto.
  - intros (cls & n & Hin & Hm) E.
    assert (n ∈ numbers_for subject (Flat.CLASSES s)) as Hn
      by (apply numbers_for_elem; eauto).
    rewrite E in Hn. by apply elem_of_nil in Hn.
Qed.

Example subjects_example :
  Flat.parse_list ["CS225"; "MATH241"; "CS124"]
  = Ok (Flat.Index ["CS"; "MATH"] {["CS" := ["225"; "124"]; "MATH" := ["241"]]}).
Proof. vm_compute. reflexivity. Qed.

(** C6. A code that the pattern rejects is passed over: [parseClasses]
    returns (it does not throw), the index is the one the list without the
    code gives, so the code brings no subject, and no subject's numbers hold
    an entry that would spell the code. *)
Theorem unmatched_code_dropped (l1 : list string) (c : string) (l2 : list string) :
  ¬ matches course_code_pattern c →
  ∃ idx, Flat.parse_list (l1 ++ c :: l2) = Ok idx
    ∧ Flat.parse_list (l1 ++ l2) = Ok idx
    ∧ (∀ subject, subject ∈ Flat.subjects idx →
         ∃ cls number, cls ∈ l1 ++ l2 ∧ cls ≠ c
                       ∧ course_match cls = Some (subject, number))
    ∧ (∀ subject numbers number,
         Flat.classesBySubject idx !! subject = Some numbers →
         number ∈ numbers → subject +:+ number ≠ c).
Proof.
  intros Hc%course_match_None.
  destruct (parse_list_index (l1 ++ l2)) as (idx & Hidx & Hmap & Hsub & _).
  exists idx. split_and!.
  - unfold Flat.parse_list in *. by rewrite for_each_skip.
  - done.
  - intros subject Hin%Hsub.
    destruct (numbers_for subject (l1 ++ l2)) as [|n ns] eqn:E; [done|].
    assert (n ∈ numbers_for subject (l1 ++ l2)) as Hn by (rewrite E; left).
    apply numbers_for_elem in Hn as (cls & ? & ?).
    exists cls, n. split_and!; try done. intros ->. congruence.
  - intros subject numbers number Hl Hn Heq.
    rewrite Hmap in Hl.
    destruct (numbers_for subject (l1 ++ l2)) as [|n ns] eqn:E; [done|].
    injection Hl as <-. rewrite <- E in Hn.
    apply numbers_for_elem in Hn as (cls & _ & Hm).
    pose proof Hm as (-> & _)%course_match_Some. congruence.
Qed.

Lemma unmatched_code_dropped_witness :
  ¬ matches course_code_pattern "cs124"
  ∧ ∃ idx, Flat.parse_list (["CS225"] ++ "cs124" :: ["MATH241"]) = Ok idx
      ∧ Flat.parse_list (["CS225"] ++ ["MATH241"]) = Ok idx
      ∧ (∀ subject, subject ∈ Flat.subjects idx →
           ∃ cls number, cls ∈ ["CS225"] ++ ["MATH241"] ∧ cls ≠ "cs124"
                         ∧ course_match cls = Some (subject, number))
      ∧ (∀ subject numbers number,
           Flat.classesBySubject idx !! subject = Some numbers →
           number ∈ numbers → subject +:+ number ≠ "cs124").
Proof.
  assert (¬ matches course_code_pattern "cs124") as H.
  { apply course_match_None. vm_compute. reflexivity. }
  split; [exact H|]. exact (unmatched_code_dropped ["CS225"] "cs124" ["MATH241"] H).
Defined.

(** C3, as the specification words it, fails for numbers that no double
    holds: of the codes CS9007199254740993 and CS9007199254740992, in this
    order, [parseInt] reads the same Number from both numbers, the
    comparator returns zero, and the greater number stays in front. *)
Lemma long_numbers_not_in_value_order :
  ¬ (∀ (s : Flat.state) (idx : Flat.index) (preserve : bool) (filter : option string),
       Flat.parseClasses s = Ok idx →
       select_value (subject_select (Flat.dom s)) ∈ Flat.subjects idx →
       ∃ s' presented,
         Flat.updateNumberDropdown preserve filter s = Done s'
         ∧ map opt_value (number_select (Flat.dom s')) = "" :: presented
         ∧ StronglySorted value_le presented).
Proof.
  intros H.
  pose (d := Page [OptionEl "" "All Subjects" false; OptionEl "CS" "CS" true]
                  [all_numbers] "All" [] [] [] None []).
  pose (s := Flat.State (Finite 1) ["CS9007199254740993"; "CS9007199254740992"]
                        None None [] d).
  pose (idx := Flat.Index ["CS"] {["CS" := ["9007199254740993"; "9007199254740992"]]}).
  destruct (H s idx false None) as (s' & presented & Hd & Hv & Hs).
  - vm_compute. reflexivity.
  - vm_compute. left.
  - vm_compute in Hd. injection Hd as <-. vm_compute in Hv. injection Hv as <-.
    apply StronglySorted_inv in Hs as [_ Hs]. apply Forall_cons in Hs as [Hs _].
    vm_compute in Hs. by apply Hs.
Qed.

(** C3, amended. For a subject of the index, the numbers that
    [updateNumberDropdown] lists after the "All Numbers" entry are the
    numbers of that subject's codes, in ascending order of the doubles
    nearest to the numbers the digit strings denote; when all of them are
    below [2^53] this is the ascending order of the numbers themselves (so
    "9" comes before "10"), not the order of the strings. *)
Theorem numbers_presented_in_numeric_order
    (s : Flat.state) (idx : Flat.index) (preserve : bool) (filter : option string) :
  Flat.parseClasses s = Ok idx →
  select_value (subject_select (Flat.dom s)) ∈ Flat.subjects idx →
  ∃ s' presented,
    Flat.updateNumberDropdown preserve filter s = Done s'
    ∧ map opt_value (number_select (Flat.dom s')) = "" :: presented
    ∧ presented ≡ₚ numbers_for (select_value (subject_select (Flat.dom s))) (Flat.CLASSES s)
    ∧ Forall digits presented
    ∧ StronglySorted double_le presented
    ∧ (Forall (λ n, digits_value n < 2 ^ 53) presented →
       StronglySorted value_le presented).
Proof.
  intros Hidx Hsub. unfold Flat.updateNumberDropdown. rewrite Hidx.
  set (subject := select_value (subject_select (Flat.dom s))) in *.
  unfold Flat.parseClasses in Hidx.
  destruct (parse_list_index (Flat.CLASSES s)) as (idx' & Hidx' & Hmap & Hsubj & _).
  rewrite Hidx in Hidx'. injection Hidx' as <-.
  apply Hsubj in Hsub.
  destruct (numbers_for subject (Flat.CLASSES s)) as [|n ns] eqn:E; [done|].
  assert (truthy subject = true) as Ht.
  { assert (n ∈ numbers_for subject (Flat.CLASSES s)) as Hn by (rewrite E; left).
    apply numbers_for_elem in Hn as (cls & _ & Hm).
    by apply course_match_Some in Hm as (_ & ? & _). }
  rewrite Ht. unfold get_prop. rewrite Hmap, E.
  assert (Forall digits (array_sort numeric_compare (n :: ns))) as Hdig.
  { rewrite array_sort_perm, <- E. apply numbers_for_digits. }
  assert (StronglySorted double_le (array_sort numeric_compare (n :: ns))) as Hsorted.
  { apply (sorted_among digits numeric_le); [apply numeric_le_double|done|].
    apply numeric_sorted. rewrite <- E. apply numbers_for_digits. }
  eexists. exists (array_sort numeric_compare (n :: ns)).
  split; [reflexivity|]. split_and!; try done.
  - simpl. by rewrite values_add_options.
  - apply array_sort_perm.
  - intros Hb.
    apply (sorted_among (λ n, digits n ∧ digits_value n < 2 ^ 53) double_le);
      [|by apply Forall_and|done].
    intros a b [Ha Hva] [Hb' Hvb]. by apply double_le_value.
Qed.

(** The page of the example: the codes CS9, CS124 and CS10, with CS chosen. *)
Example numbers_example :
  let d := Page [OptionEl "" "All Subjects" false; OptionEl "CS" "CS" true]
                [all_numbers] "All" [] [] [] None [] in
  let s := Flat.State (Finite 1) ["CS9"; "CS124"; "CS10"] None None [] d in
  map opt_value (number_select (Flat.dom (final (Flat.updateNumberDropdown false None s))))
  = [""; "9"; "10"; "124"]
  ∧ map digits_value ["9"; "10"; "124"] = [9; 10; 124].
Proof. vm_compute. done. Qed.

Lemma numbers_presented_witness :
  let d := Page [OptionEl "" "All Subjects" false; OptionEl "CS" "CS" true]
                [all_numbers] "All" [] [] [] None [] in
  let s := Flat.State (Finite 1) ["CS9"; "CS124"; "CS10"] None None [] d in
  let idx := Flat.Index ["CS"] {["CS" := ["9"; "124"; "10"]]} in
  Flat.parseClasses s = Ok idx
  ∧ select_value (subject_select (Flat.dom s)) ∈ Flat.subjects idx
  ∧ ∃ s' presented,
      Flat.updateNumberDropdown false None s = Done s'
      ∧ map opt_value (number_select (Flat.dom s')) = "" :: presented
      ∧ presented ≡ₚ numbers_for (select_value (subject_select (Flat.dom s))) (Flat.CLASSES s)
      ∧ Forall digits presented
      ∧ StronglySorted double_le presented
      ∧ (Forall (λ n, digits_value n < 2 ^ 53) presented →
         StronglySorted value_le presented).
Proof.
  intros d s idx.
  assert (Flat.parseClasses s = Ok idx) as H1 by (vm_compute; reflexivity).
  assert (select_value (subject_select (Flat.dom s)) ∈ Flat.subjects idx) as H2
    by (vm_compute; left).
  split; [exact H1|]. split; [exact H2|].
  exact (numbers_presented_in_numeric_order s idx false None H1 H2).
Defined.

(** C5, as the specification words it, fails where no subject is selected:
    with both lists on their first entry the handler writes "All", not the
    (empty) concatenation of the two values. *)
Lemma number_change_not_always_concatenation :
  ¬ (∀ s : Flat.state,
       let subject := select_value (subject_select (Flat.dom s)) in
       let number := select_value (number_select (Flat.dom s)) in
       class_filter_hidden (Flat.dom (final (Flat.handleNumberChange s)))
       = if negb (truthy number) && truthy subject then "All"
         else subject +:+ number).
Proof.
  intros H.
  specialize (H (Flat.State (Finite 1) [] None None []
                   (Page [OptionEl "" "All Subjects" true] [all_numbers]
                         "" [] [] [] None []))).
  vm_compute in H. discriminate.
Qed.

(** C5, amended. The number listener always submits the form. The value it
    submits is "All" when no number is selected but a subject is, the
    concatenation of subject and number when both are selected, and "All"
    when no subject is selected. *)
Theorem number_change_submits :
  (∀ s : Flat.state,
     let subject := select_value (subject_select (Flat.dom s)) in
     let number := select_value (number_select (Flat.dom s)) in
     let combined :=
       if negb (truthy number) && truthy subject then "All"
       else if truthy subject then subject +:+ number
       else "All" in
     ∃ s', Flat.handleNumberChange s = Done s'
       ∧ class_filter_hidden (Flat.dom s') = combined
       ∧ course_filter_submits (Flat.dom s')
         = course_filter_submits (Flat.dom s) ++ [combined])
  ∧ (∀ s : Structured.state,
     let subject := select_value (subject_select (Structured.dom s)) in
     let number := select_value (number_select (Structured.dom s)) in
     let combined :=
       if negb (truthy number) && truthy subject then "All"
       else if truthy subject then subject +:+ number
       else "All" in
     ∃ s', Structured.handleNumberChange s = Done s'
       ∧ class_filter_hidden (Structured.dom s') = combined
       ∧ course_filter_submits (Structured.dom s')
         = course_filter_submits (Structured.dom s) ++ [combined]).
Proof.
  split; intros s subject number combined; unfold combined.
  - unfold Flat.handleNumberChange, Flat.applyClassFilter.
    fold subject; fold number.
    destruct (truthy number), (truthy subject); simpl; eexists; done.
  - unfold Structured.handleNumberChange, Structured.applyClassFilter.
    fold subject; fold number.
    destruct (truthy number), (truthy subject); simpl; eexists; done.
Qed.

(** C8, as the specification words it, fails where doubles no longer tell
    neighbouring integers apart: with the counter at [2^53] the call leaves
    it at [2^53]. *)
Lemma page_counter_stuck :
  ¬ (∀ (s : Flat.state) (n : Z),
       Flat.currentPage s = Finite n →
       Flat.currentPage (fst (Flat.loadMore_request s)) = Finite (n + 1)).
Proof.
  intros H.
  specialize (H (Flat.State (Finite (2 ^ 53)) [] None None []
                   (Page [] [] "All" [] [] [] None []))
                (2 ^ 53) eq_refl).
  vm_compute in H. discriminate.
Qed.

(** C8, amended. [loadMore] sets [currentPage] to the Number
    [currentPage + 1] and sends the request for that page before anything
    comes back; for a counter [n] with [n + 1] between [-2^53] and [2^53]
    that is [n + 1] exactly.  When the fetch settles the counter is left as
    it is, whatever the outcome.  After a failure (no connection, a status
    outside 200-299, an unreadable body) what the user sees of the page is
    unchanged and the console holds one more message.  After a success the
    fragment is the new last child of the container, the earlier ones
    untouched, and the button is hidden if [has_more] is false and left as
    it was otherwise. *)
Theorem loadMore_pagination :
  (∀ s : Flat.state,
     let '(s1, req) := Flat.loadMore_request s in
     Flat.currentPage s1 = num_add (Flat.currentPage s) (Finite 1)
     ∧ (∀ n, Flat.currentPage s = Finite n → - 2 ^ 53 < n + 1 < 2 ^ 53 →
          Flat.currentPage s1 = Finite (n + 1) ∧ req_page req = Finite (n + 1))
     ∧ req_page req = Flat.currentPage s1
     ∧ Flat.dom s1 = Flat.dom s)
  ∧ (∀ (r : fetched) (s : Flat.state),
       let s2 := Flat.loadMore_settle r s in
       Flat.currentPage s2 = Flat.currentPage s
       ∧ Flat.currentPage (Flat.loadMore r s) = num_add (Flat.currentPage s) (Finite 1)
       ∧ (∀ n, Flat.currentPage s = Finite n → - 2 ^ 53 < n + 1 < 2 ^ 53 →
            Flat.currentPage (Flat.loadMore r s) = Finite (n + 1))
       ∧ match r with
         | Fetched data =>
             notes_container (Flat.dom s2) = notes_container (Flat.dom s) ++ [html data]
             ∧ load_more (Flat.dom s2)
               = (if has_more data then load_more (Flat.dom s)
                  else (λ _, "none") <$> load_more (Flat.dom s))
             ∧ console_errors (Flat.dom s2) = console_errors (Flat.dom s)
         | _ =>
             visible (Flat.dom s2) = visible (Flat.dom s)
             ∧ console_errors (Flat.dom s2)
               = console_errors (Flat.dom s) ++ ["Failed to load more notes"]
         end)
  ∧ (∀ s : Structured.state,
     let '(s1, req) := Structured.loadMore_request s in
     Structured.currentPage s1 = num_add (Structured.currentPage s) (Finite 1)
     ∧ (∀ n, Structured.currentPage s = Finite n → - 2 ^ 53 < n + 1 < 2 ^ 53 →
          Structured.currentPage s1 = Finite (n + 1) ∧ req_page req = Finite (n + 1))
     ∧ req_page req = Structured.currentPage s1
     ∧ Structured.dom s1 = Structured.dom s)
  ∧ (∀ (r : fetched) (s : Structured.state),
       let s2 := Structured.loadMore_settle r s in
       Structured.currentPage s2 = Structured.currentPage s
       ∧ Structured.currentPage (Structured.loadMore r s)
         = num_add (Structured.currentPage s) (Finite 1)
       ∧ (∀ n, Structured.currentPage s = Finite n → - 2 ^ 53 < n + 1 < 2 ^ 53 →
            Structured.currentPage (Structured.loadMore r s) = Finite (n + 1))
       ∧ match r with
         | Fetched data =>
             notes_container (Structured.dom s2)
             = notes_container (Structured.dom s) ++ [html data]
             ∧ load_more (Structured.dom s2)
               = (if has_more data then load_more (Structured.dom s)
                  else (λ _, "none") <$> load_more (Structured.dom s))
             ∧ console_errors (Structured.dom s2) = console_errors (Structured.dom s)
         | _ =>
             visible (Structured.dom s2) = visible (Structured.dom s)
             ∧ console_errors (Structured.dom s2)
               = console_errors (Structured.dom s) ++ ["Failed to load more notes"]
         end).
Proof.
  assert (∀ x n, x = Finite n → - 2 ^ 53 < n + 1 < 2 ^ 53 →
            num_add x (Finite 1) = Finite (n + 1)) as Hexact.
  { intros x n -> Hn. simpl. by apply to_number_exact. }
  split_and!.
  - intros s. simpl. split_and!; try done. intros n Hs Hn.
    by rewrite (Hexact _ n Hs Hn).
  - intros r s. simpl. split; [by destruct r|]. split; [by destruct r|].
    split; [intros n Hs Hn; rewrite <- (Hexact _ n Hs Hn); by destruct r|].
    destruct r as [| | |[h m]]; simpl; try done.
    destruct m; simpl; split_and!; done.
  - intros s. simpl. split_and!; try done. intros n Hs Hn.
    by rewrite (Hexact _ n Hs Hn).
  - intros r s. simpl. split; [by destruct r|]. split; [by destruct r|].
    split; [intros n Hs Hn; rewrite <- (Hexact _ n Hs Hn); by destruct r|].
    destruct r as [| | |[h m]]; simpl; try done.
    destruct m; simpl; split_and!; done.
Qed.

(** The page of the pagination example: page 1, one fragment shown, the
    button visible. *)
Example loadMore_example :
  let d := Page [] [] "All" [] [("class_filter", "All")] ["<div>A</div>"] (Some "") [] in
  let s := Flat.State (Finite 1) [] None None [] d in
  let more := Flat.loadMore (Fetched (NotesData "<div>X</div>" true)) s in
  let last := Flat.loadMore (Fetched (NotesData "<div>X</div>" false)) s in
  let lost := Flat.loadMore NotOk s in
  (Flat.currentPage more, notes_container (Flat.dom more), load_more (Flat.dom more))
    = (Finite 2, ["<div>A</div>"; "<div>X</div>"], Some "")
  ∧ (Flat.currentPage last, notes_container (Flat.dom last), load_more (Flat.dom last))
    = (Finite 2, ["<div>A</div>"; "<div>X</div>"], Some "none")
  ∧ (Flat.currentPage lost, notes_container (Flat.dom lost), load_more (Flat.dom lost))
    = (Finite 2, ["<div>A</div>"], Some "").
Proof. vm_compute. done. Qed.

(** C9, as the specification words it, fails at a subject whose name every
    object inherits: the catalog is empty and "constructor" is the selected
    subject; the look-up finds the inherited property, the fallback to the
    empty array is not taken, and the call throws. *)
Lemma inherited_name_breaks_number_dropdown :
  ¬ (∀ (s : Structured.state) (preserve : bool) (filter : option string),
       Structured.COURSES_DICT s !! select_value (subject_select (Structured.dom s))
       = None →
       ∃ s', Structured.updateNumberDropdown preserve filter s = Done s'
             ∧ number_select (Structured.dom s') = [all_numbers]).
Proof.
  intros H.
  destruct (H (Structured.State (Finite 1) [] ∅ ["constructor"] None None []
                 (Page [OptionEl "" "All Subjects" false;
                        OptionEl "constructor" "constructor" true]
                       [all_numbers] "All" [] [] [] None []))
              false None) as (s' & Hd & _).
  - vm_compute. reflexivity.
  - vm_compute in Hd. discriminate.
Qed.

(** C9, amended. In both scripts, for a selected subject that is not a key
    of the mapping and not the name of a property that every object inherits
    (no subject made of capitals is one), [updateNumberDropdown] runs to its
    end and leaves the number list with the "All Numbers" entry alone; the
    subject list and the catalog are as they were. *)
Theorem subject_without_entry_lists_no_number
    (preserve : bool) (filter : option string)
    (sf : Flat.state) (idx : Flat.index) (ss : Structured.state) :
  Flat.parseClasses sf = Ok idx →
  Flat.classesBySubject idx !! select_value (subject_select (Flat.dom sf)) = None →
  select_value (subject_select (Flat.dom sf)) ∉ object_prototype_names →
  Structured.COURSES_DICT ss !! select_value (subject_select (Structured.dom ss)) = None →
  select_value (subject_select (Structured.dom ss)) ∉ object_prototype_names →
  (∃ sf', Flat.updateNumberDropdown preserve filter sf = Done sf'
          ∧ number_select (Flat.dom sf') = [all_numbers]
          ∧ subject_select (Flat.dom sf') = subject_select (Flat.dom sf))
  ∧ (∃ ss', Structured.updateNumberDropdown preserve filter ss = Done ss'
            ∧ number_select (Structured.dom ss') = [all_numbers]
            ∧ subject_select (Structured.dom ss') = subject_select (Structured.dom ss)
            ∧ Structured.COURSES_DICT ss' = Structured.COURSES_DICT ss)
  ∧ (∀ subject, str_all is_upper subject = true → subject ∉ object_prototype_names).
Proof.
  intros Hidx Hf Hfn Hs Hsn. split_and!.
  - unfold Flat.updateNumberDropdown. rewrite Hidx. unfold get_prop. rewrite Hf.
    rewrite decide_False by done.
    destruct (truthy _); by eexists.
  - unfold Structured.updateNumberDropdown, get_prop. simpl. rewrite Hs.
    rewrite decide_False by done.
    destruct (truthy _); by eexists.
  - apply upper_not_inherited.
Qed.

(** Both scripts, the subject ECE selected on a page whose classes are those
    of CS only. *)
Lemma subject_without_entry_witness :
  let d := Page [OptionEl "" "All Subjects" false; OptionEl "ECE" "ECE" true]
                [all_numbers; OptionEl "124" "124" true] "All" [] [] [] None [] in
  let sf := Flat.State (Finite 1) ["CS124"] None None [] d in
  let idx := Flat.Index ["CS"] {["CS" := ["124"]]} in
  let ss := Structured.State (Finite 1) ["CS124"] {["CS" := ["124"]]} ["CS"; "ECE"]
                             None None [] d in
  Flat.parseClasses sf = Ok idx
  ∧ Flat.classesBySubject idx !! select_value (subject_select (Flat.dom sf)) = None
  ∧ (select_value (subject_select (Flat.dom sf)) ∉ object_prototype_names)
  ∧ Structured.COURSES_DICT ss !! select_value (subject_select (Structured.dom ss)) = None
  ∧ (select_value (subject_select (Structured.dom ss)) ∉ object_prototype_names)
  ∧ (∃ sf', Flat.updateNumberDropdown true (Some "CS124") sf = Done sf'
            ∧ number_select (Flat.dom sf') = [all_numbers]
            ∧ subject_select (Flat.dom sf') = subject_select (Flat.dom sf))
  ∧ (∃ ss', Structured.updateNumberDropdown true (Some "CS124") ss = Done ss'
            ∧ number_select (Structured.dom ss') = [all_numbers]
            ∧ subject_select (Structured.dom ss') = subject_select (Structured.dom ss)
            ∧ Structured.COURSES_DICT ss' = Structured.COURSES_DICT ss)
  ∧ (∀ subject, str_all is_upper subject = true → subject ∉ object_prototype_names).
Proof.
  intros d sf idx ss.
  assert (Flat.parseClasses sf = Ok idx) as H1 by (vm_compute; reflexivity).
  assert (Flat.classesBySubject idx !! select_value (subject_select (Flat.dom sf)) = None)
    as H2 by (vm_compute; reflexivity).
  assert (select_value (subject_select (Flat.dom sf)) ∉ object_prototype_names) as H3
    by (apply upper_not_inherited; vm_compute; reflexivity).
  assert (Structured.COURSES_DICT ss
            !! select_value (subject_select (Structured.dom ss)) = None)
    as H4 by (vm_compute; reflexivity).
  assert (select_value (subject_select (Structured.dom ss)) ∉ object_prototype_names)
    as H5 by (apply upper_not_inherited; vm_compute; reflexivity).
  split; [exact H1|]. split; [exact H2|]. split; [exact H3|].
  split; [exact H4|]. split; [exact H5|].
  exact (subject_without_entry_lists_no_number true (Some "CS124") sf idx ss
           H1 H2 H3 H4 H5).
Defined.

(** C7, as the specification words it, fails in the structured script: the
    server sends the numbers of CS as 225, 124; rebuilding the number list
    with CS selected leaves them in the catalog as 124, 225. *)
Lemma rebuild_reorders_catalog :
  ¬ (∀ (op : Structured.operation) (s : Structured.state),
       Structured.COURSES_DICT (final (Structured.run op s))
       = Structured.COURSES_DICT s).
Proof.
  intros H.
  specialize (H (Structured.UpdateNumberDropdown false None)
                (Structured.State (Finite 1) [] {["CS" := ["225"; "124"]]} ["CS"]
                   None None []
                   (Page [OptionEl "" "All Subjects" false; OptionEl "CS" "CS" true]
                         [all_numbers] "All" [] [] [] None []))).
  apply (f_equal (λ m, m !! "CS")) in H. vm_compute in H. discriminate.
Qed.

(** C7, amended. No operation after initialization assigns the subjects, the
    class list, or takes a subject or a number out of the catalog or adds
    one.  The flat script builds its index from the unchanged class list on
    every call, each time the same.  In the structured script rebuilding the
    number list sorts the array of the selected subject in place with the
    numeric comparator: it keeps its numbers, possibly in another order, it
    is unchanged if it was in sort order already, and the arrays of all
    other subjects are untouched. *)
Theorem index_after_operations :
  (∀ (op : Flat.operation) (s : Flat.state),
     let s' := final (Flat.run op s) in
     Flat.CLASSES s' = Flat.CLASSES s
     ∧ Flat.parseClasses s' = Flat.parseClasses s)
  ∧ (∀ (op : Structured.operation) (s : Structured.state),
     let s' := final (Structured.run op s) in
     let selected := select_value (subject_select (Structured.dom s)) in
     Structured.SUBJECTS s' = Structured.SUBJECTS s
     ∧ Structured.CLASSES s' = Structured.CLASSES s
     ∧ Structured.subjects (Structured.parseClasses s')
       = Structured.subjects (Structured.parseClasses s)
     ∧ ∀ subject,
         match Structured.COURSES_DICT s !! subject with
         | None => Structured.COURSES_DICT s' !! subject = None
         | Some numbers =>
             ∃ numbers', Structured.COURSES_DICT s' !! subject = Some numbers'
               ∧ numbers' ≡ₚ numbers
               ∧ (numbers' = numbers
                  ∨ subject = selected
                    ∧ numbers' = array_sort numeric_compare numbers)
               ∧ (in_sort_order numbers = false ∨ numbers' = numbers)
         end).
Proof.
  split.
  - intros op s s'. unfold s', Flat.parseClasses.
    by rewrite flat_run_CLASSES.
  - intros op s s' selected.
    destruct (structured_run_globals op s) as (Hs & Hc & Hd). fold s' in Hs, Hc, Hd.
    split_and!; try done.
    intros subject. destruct Hd as [-> | ->].
    + destruct (Structured.COURSES_DICT s !! subject) as [numbers|]; [|done].
      exists numbers. split_and!; try done; first [by left|by right].
    + apply sorted_at_lookup.
Qed.



(** The page with no data attribute at all, in the flat script: with the
    note modal, and without it. *)
Example no_attribute_example :
  let d := Page [OptionEl "" "All Subjects" true] [] "" [] [] [] None [] in
  let s := Flat.State NaN ["stale"] None None [] d in
  let data := Dataset None None None None None in
  (∃ s', Flat.on_DOMContentLoaded parse_empty_array data
           (Notes.Ui {["note-modal" := []]} "" None) s = Done s'
         ∧ Flat.currentPage s' = Finite 1
         ∧ Flat.CLASSES s' = []
         ∧ subject_select (Flat.dom s') = [OptionEl "" "All Subjects" true]
         ∧ number_select (Flat.dom s') = [all_numbers]
         ∧ Flat.listeners s'
           = [("subject-select", HandleSubjectChange);
              ("number-select", HandleNumberChange);
              ("note-modal", HandleModal OverlayClick);
              ("document", HandleModal (EscapeKey false))])
  ∧ (∃ s', Flat.on_DOMContentLoaded parse_empty_array data (Notes.Ui ∅ "" None) s
           = Raised (TypeError "Cannot read properties of null") s'
         ∧ Flat.currentPage s' = Finite 1
         ∧ Flat.CLASSES s' = []
         ∧ number_select (Flat.dom s') = [all_numbers]
         ∧ Flat.listeners s'
           = [("subject-select", HandleSubjectChange);
              ("number-select", HandleNumberChange)]).
Proof. split; eexists; vm_compute; done. Qed.

End Claims.

(* ================================================================== *)
(** ** Further facts about the index                                    *)
(* ================================================================== *)

Module IndexMore.
Import Js Dom Spec JsFacts NumberFacts SortFacts DomFacts FlatFacts.

Lemma numbers_for_app subject l1 l2 :
  numbers_for subject (l1 ++ l2) = numbers_for subject l1 ++ numbers_for subject l2.
Proof.
  induction l1 as [|cls l1 IH]; simpl; [done|].
  destruct (course_match cls) as [[s n]|]; [|done].
  destruct (decide (s = subject)); [|done]. by rewrite IH.
Qed.

Lemma numbers_for_perm subject l1 l2 :
  l1 ≡ₚ l2 → numbers_for subject l1 ≡ₚ numbers_for subject l2.
Proof.
  induction 1 as [|x l l' _ IH|x y l|l l' l'' _ IH1 _ IH2]; simpl.
  - done.
  - destruct (course_match x) as [[s n]|]; [|done].
    destruct (decide (s = subject)); [by constructor|done].
  - destruct (course_match x) as [[s n]|], (course_match y) as [[s' n']|];
      try done; repeat case_decide; try done. apply perm_swap.
  - by etransitivity.
Qed.

Lemma string_lt_asym a b : string_lt a b → ¬ string_lt b a.
Proof.
  unfold string_lt. intros H1 H2. rewrite String.compare_antisym, H2 in H1.
  discriminate.
Qed.

Lemma string_lt_irrefl a : ¬ string_lt a a.
Proof. intros H. exact (string_lt_asym a a H H). Qed.

(** A strictly ascending list is determined by its elements. *)
Lemma strictly_sorted_unique (l1 l2 : list string) :
  StronglySorted string_lt l1 → StronglySorted string_lt l2 →
  (∀ x, x ∈ l1 ↔ x ∈ l2) → l1 = l2.
Proof.
  intros H1. revert l2. induction H1 as [|x l1 Hs1 IH Hx]; intros l2 H2 Hel.
  - destruct l2 as [|y l2]; [done|]. exfalso.
    eapply elem_of_nil, Hel. left.
  - destruct H2 as [|y l2 Hs2 Hy].
    { exfalso. eapply elem_of_nil, Hel. left. }
    rewrite Forall_forall in Hx, Hy.
    assert (x = y) as ->.
    { destruct (decide (x = y)) as [|Hne]; [done|]. exfalso.
      assert (x ∈ l2) as Hx2.
      { assert (x ∈ y :: l2) as [|]%elem_of_cons by (apply Hel; left); done. }
      assert (y ∈ l1) as Hy1.
      { assert (y ∈ x :: l1) as [|]%elem_of_cons by (apply Hel; left); done. }
      by eapply string_lt_asym; [apply Hx|apply Hy]. }
    f_equal. apply IH; [done|]. intros z. split; intros Hz.
    + assert (z ∈ y :: l2) as [->|]%elem_of_cons by (apply Hel; by right); [|done].
      exfalso. by eapply string_lt_irrefl, Hx.
    + assert (z ∈ y :: l1) as [->|]%elem_of_cons by (apply Hel; by right); [|done].
      exfalso. by eapply string_lt_irrefl, Hy.
Qed.

End IndexMore.

(* ================================================================== *)
(** ** Facts about selection in a list                                  *)
(* ================================================================== *)

Module SelectFacts.
Import Js Dom Spec Notions JsFacts DomFacts.

Lemma set_selected_false_id o : opt_selected o = false → set_selected false o = o.
Proof. destruct o as [v t []]; simpl; [discriminate|done]. Qed.

(** Appending a selected entry unselects every earlier one. *)
Lemma keep_last_app_selected opts o :
  opt_selected o = true →
  keep_last_selected (opts ++ [o]) = map (set_selected false) opts ++ [o].
Proof.
  intros Ho. induction opts as [|h opts IH]; simpl.
  - by rewrite andb_false_r.
  - rewrite IH. f_equal.
    rewrite existsb_app. simpl. rewrite Ho, orb_true_r, andb_true_r.
    destruct (opt_selected h) eqn:E; [done|]. by rewrite set_selected_false_id.
Qed.

Lemma append_child_selected opts o :
  opt_selected o = true →
  append_child opts o = map (set_selected false) opts ++ [o].
Proof.
  intros Ho. unfold append_child, selectedness.
  rewrite existsb_app. simpl. rewrite Ho, orb_true_r.
  by apply keep_last_app_selected.
Qed.

Lemma find_unselected opts :
  find opt_selected (map (set_selected false) opts) = None.
Proof. induction opts as [|h opts IH]; simpl; done. Qed.

Lemma find_app_None {A} (p : A → bool) l1 l2 :
  find p l1 = None → find p (l1 ++ l2) = find p l2.
Proof.
  induction l1 as [|x l1 IH]; simpl; [done|]. destruct (p x); [done|]. apply IH.
Qed.

Lemma find_app_Some {A} (p : A → bool) l1 l2 x :
  find p l1 = Some x → find p (l1 ++ l2) = Some x.
Proof.
  induction l1 as [|y l1 IH]; simpl; [done|]. destruct (p y); [done|]. apply IH.
Qed.

Lemma existsb_find (opts : list option_el) :
  existsb opt_selected opts = true → ∃ o, find opt_selected opts = Some o.
Proof.
  induction opts as [|h opts IH]; simpl; [done|].
  destruct (opt_selected h); [by eexists|]. apply IH.
Qed.

Lemma one_selected_after_selected opts o :
  opt_selected o = true → one_selected (opt_value o) (append_child opts o).
Proof.
  intros Ho. rewrite append_child_selected by done. unfold one_selected. split_and!.
  - rewrite existsb_app. simpl. by rewrite Ho, orb_true_r.
  - rewrite keep_last_app_selected by done. f_equal.
    rewrite map_map. apply map_ext. done.
  - unfold select_value. rewrite find_app_None by apply find_unselected.
    simpl. by rewrite Ho.
Qed.

Lemma keep_last_app_unselected opts o :
  opt_selected o = false → keep_last_selected opts = opts →
  keep_last_selected (opts ++ [o]) = opts ++ [o].
Proof.
  intros Ho. induction opts as [|h opts IH]; simpl.
  - intros _. by rewrite andb_false_r.
  - intros [= Hh Hrest]. rewrite (IH Hrest). f_equal.
    rewrite existsb_app. simpl. rewrite Ho, orb_false_r. done.
Qed.

Lemma one_selected_after_unselected v opts o :
  opt_selected o = false → one_selected v opts → one_selected v (append_child opts o).
Proof.
  intros Ho (Hex & Hkeep & Hval). unfold append_child, selectedness.
  rewrite existsb_app, Hex. simpl.
  rewrite keep_last_app_unselected by done. unfold one_selected. split_and!.
  - rewrite existsb_app, Hex. done.
  - by apply keep_last_app_unselected.
  - unfold select_value in *. destruct (existsb_find _ Hex) as [x Hx].
    rewrite (find_app_Some _ _ _ _ Hx). by rewrite Hx in Hval.
Qed.

(** Once the entry for the current value is in the list it stays the
    selected one, however many entries follow. *)
Lemma one_selected_add_options current entries opts :
  one_selected current opts →
  one_selected current (Flat.add_options current entries opts).
Proof.
  revert opts. unfold Flat.add_options.
  induction entries as [|e entries IH]; intros opts H; simpl; [done|].
  apply IH. destruct (e =? current)%string eqn:E.
  - apply String.eqb_eq in E. subst e.
    by apply (one_selected_after_selected opts (OptionEl current current true)).
  - by apply one_selected_after_unselected.
Qed.

Lemma one_selected_when_listed current entries opts :
  current ∈ entries →
  one_selected current (Flat.add_options current entries opts).
Proof.
  revert opts. induction entries as [|e entries IH]; intros opts Hin.
  - by apply elem_of_nil in Hin.
  - change (Flat.add_options current (e :: entries) opts)
      with (Flat.add_options current entries
              (append_child opts (OptionEl e e (e =? current)%string))).
    destruct (e =? current)%string eqn:E.
    + apply String.eqb_eq in E. subst e.
      apply one_selected_add_options.
      by apply (one_selected_after_selected opts (OptionEl current current true)).
    + apply IH. apply elem_of_cons in Hin as [->|Hin]; [|done].
      by rewrite String.eqb_refl in E.
Qed.

(** When no entry is the current one the sentinel keeps the selection. *)
Lemma one_selected_when_not_listed v current entries opts :
  current ∉ entries → one_selected v opts →
  one_selected v (Flat.add_options current entries opts).
Proof.
  revert opts. unfold Flat.add_options.
  induction entries as [|e entries IH]; intros opts Hnin H; simpl; [done|].
  apply not_elem_of_cons in Hnin as [Hne Hnin].
  apply IH; [done|]. apply one_selected_after_unselected; [|done].
  simpl. apply String.eqb_neq. congruence.
Qed.

Lemma select_value_in opts :
  select_value opts = EmptyString ∨ select_value opts ∈ map opt_value opts.
Proof.
  unfold select_value. destruct (find opt_selected opts) as [o|] eqn:E; [|by left].
  right. apply find_some in E as [Hin _].
  apply list_elem_of_In. by apply in_map.
Qed.

Lemma values_clear_after_first opts :
  map opt_value (clear_after_first opts) = take 1 (map opt_value opts).
Proof. by destruct opts as [|o [|o' rest]]. Qed.

End SelectFacts.
(* ================================================================== *)
(** ** Facts about the two lists of the flat script                     *)
(* ================================================================== *)

Module DropdownFacts.
Import Js Dom Spec Notions JsFacts NumberFacts SortFacts DomFacts FlatFacts InitFacts.
Import IndexMore SelectFacts.

Lemma flat_populate_eq f s :
  ∃ idx, Flat.parse_list (Flat.CLASSES s) = Ok idx
    ∧ Flat.populateSubjects f s
      = Done (Flat.set_dom
                (set_subject_select
                   (Flat.add_options
                      (match filter_parts f with
                       | Some (subject, _) => subject
                       | None => EmptyString
                       end)
                      (Flat.subjects idx)
                      (clear_after_first (subject_select (Flat.dom s))))
                   (Flat.dom s)) s).
Proof.
  unfold Flat.populateSubjects, Flat.parseClasses.
  destruct (parse_list_index (Flat.CLASSES s)) as (idx & Hidx & _).
  exists idx. by rewrite Hidx.
Qed.

(** With a run of capitals selected, or nothing, the number list is rebuilt
    from the numbers of that subject's codes. *)
Lemma flat_update_eq p f s :
  let subject := select_value (subject_select (Flat.dom s)) in
  str_all is_upper subject = true →
  Flat.updateNumberDropdown p f s
  = Done (Flat.set_dom
            (set_number_select
               (if truthy subject
                then Flat.add_options
                       (match (if p then filter_parts f else None) with
                        | Some (_, number) => number
                        | None => EmptyString
                        end)
                       (array_sort numeric_compare
                          (numbers_for subject (Flat.CLASSES s)))
                       [all_numbers]
                else [all_numbers])
               (Flat.dom s)) s).
Proof.
  intros subject Hup. unfold Flat.updateNumberDropdown, Flat.parseClasses.
  destruct (parse_list_index (Flat.CLASSES s)) as (idx & -> & Hmap & _).
  fold subject. destruct (truthy subject); [|done].
  unfold get_prop. rewrite Hmap.
  destruct (numbers_for subject (Flat.CLASSES s)) as [|n ns] eqn:E; [|done].
  rewrite decide_False by (by apply upper_not_inherited). done.
Qed.

Lemma subject_of_index_upper classes idx subject :
  Flat.parse_list classes = Ok idx → subject ∈ Flat.subjects idx →
  str_all is_upper subject = true ∧ truthy subject = true.
Proof.
  intros Hidx Hin.
  destruct (parse_list_index classes) as (idx' & Hidx' & _ & Hsub & _).
  rewrite Hidx in Hidx'. injection Hidx' as <-.
  apply Hsub in Hin.
  destruct (numbers_for subject classes) as [|n ns] eqn:E; [done|].
  assert (n ∈ numbers_for subject classes) as Hn by (rewrite E; left).
  apply numbers_for_elem in Hn as (cls & _ & Hm).
  by apply course_match_Some in Hm as (_ & ? & ? & _).
Qed.

(** The test in front of the pattern never decides anything. *)
Lemma filter_parts_Some f : filter_parts (Some f) = course_match f.
Proof.
  unfold filter_parts. destruct (String.eqb_spec f "All") as [E|Hne].
  - rewrite E. vm_compute. reflexivity.
  - by destruct f.
Qed.

Lemma one_selected_sentinel : one_selected EmptyString [all_numbers].
Proof. by unfold one_selected. Qed.

(** Without a number to preserve the rebuilt list has its first entry
    selected. *)
Lemma number_list_reset entries :
  one_selected EmptyString (Flat.add_options EmptyString entries [all_numbers]).
Proof.
  destruct (decide (EmptyString ∈ entries)) as [Hin|Hnin].
  - by apply one_selected_when_listed.
  - apply one_selected_when_not_listed; [done|apply one_selected_sentinel].
Qed.

End DropdownFacts.
(* ================================================================== *)
(** ** Facts about a session at the filter form                         *)
(* ================================================================== *)

Module SessionFacts.
Import Js Dom Spec Session Notions.
Import JsFacts NumberFacts SortFacts DomFacts FlatFacts InitFacts.
Import IndexMore SelectFacts DropdownFacts.

Lemma values_imap (g : nat → option_el → option_el) opts :
  (∀ j o, opt_value (g j o) = opt_value o) →
  map opt_value (imap g opts) = map opt_value opts.
Proof.
  revert g. induction opts as [|o opts IH]; intros g Hg; [done|].
  simpl. rewrite Hg. f_equal. apply IH. intros j o'. apply Hg.
Qed.

Lemma values_choose i opts : map opt_value (choose i opts) = map opt_value opts.
Proof. unfold choose. case_decide; [|done]. by apply values_imap. Qed.

(** Rebuilding the number list of a page whose subject list comes from the
    class list makes the form one built from the class list. *)
Lemma built_update classes p f s :
  Flat.CLASSES s = classes →
  (∃ idx, Flat.parse_list classes = Ok idx
     ∧ map opt_value (subject_select (Flat.dom s)) = EmptyString :: Flat.subjects idx) →
  ∃ s', Flat.updateNumberDropdown p f s = Done s'
    ∧ form_built classes (Flat.dom s')
    ∧ Flat.CLASSES s' = classes
    ∧ Flat.currentPage s' = Flat.currentPage s
    ∧ Flat.numberChoice s' = Flat.numberChoice s
    ∧ Flat.listeners s' = Flat.listeners s
    ∧ subject_select (Flat.dom s') = subject_select (Flat.dom s)
    ∧ class_filter_hidden (Flat.dom s') = class_filter_hidden (Flat.dom s)
    ∧ course_filter_submits (Flat.dom s') = course_filter_submits (Flat.dom s).
Proof.
  intros Hc Hsub.
  assert (str_all is_upper (select_value (subject_select (Flat.dom s))) = true) as Hup.
  { destruct Hsub as (idx & Hidx & Hv).
    destruct (select_value_in (subject_select (Flat.dom s))) as [E|Hin].
    - by rewrite E.
    - rewrite Hv in Hin. apply elem_of_cons in Hin as [E|Hin]; [by rewrite E|].
      by destruct (subject_of_index_upper classes idx _ Hidx Hin). }
  rewrite (flat_update_eq p f s Hup). eexists. split; [reflexivity|].
  simpl. split_and!; try done.
  unfold form_built. simpl. split; [done|].
  rewrite Hc.
  destruct (truthy (select_value (subject_select (Flat.dom s)))).
  - eexists. rewrite values_add_options. simpl. split; [reflexivity|].
    intros n Hin. by rewrite array_sort_perm in Hin.
  - exists []. split; [done|]. by intros n ?%elem_of_nil.
Qed.

(** Initialization on the template's page gives a form built from the class
    list, and submits nothing. *)
Lemma built_initialize p classes f u s :
  template_page (Flat.dom s) →
  is_Some (Notes.elements u !! "note-modal") →
  ∃ s', Flat.initializePage p classes f u s = Done s'
    ∧ built_from classes s'
    ∧ Flat.currentPage s' = p
    ∧ course_filter_submits (Flat.dom s') = course_filter_submits (Flat.dom s).
Proof.
  intros Ht [cl Hm]. unfold Flat.initializePage, Notes.flat_wire. rewrite Hm.
  set (s0 := Flat.State p classes _ _ _ _).
  destruct (flat_populate_eq (Some f) s0) as (idx & Hidx & ->).
  simpl in Hidx. simpl and_then.
  match goal with |- context [Flat.updateNumberDropdown true (Some f) ?s1] =>
    destruct (built_update classes true (Some f) s1)
      as (s2 & -> & Hb & Hc & Hp & Hn & Hl & Hs & Hh & Hsb)
  end.
  { done. }
  { exists idx. split; [done|]. simpl.
    rewrite values_add_options, values_clear_after_first.
    unfold template_page in Ht.
    destruct (subject_select (Flat.dom s)) as [|o rest]; [done|].
    simpl. by rewrite Ht. }
  simpl. eexists. split; [reflexivity|]. simpl. split_and!; done.
Qed.

(** One choice of the user in a form built from the class list: the listener
    runs to its end, the form is still built from the class list, and what
    it submitted, if anything, is allowed. *)
Lemma built_react classes ev s :
  built_from classes s →
  ∃ s' new,
    react ev s = Done s'
    ∧ built_from classes s'
    ∧ course_filter_submits (Flat.dom s') = course_filter_submits (Flat.dom s) ++ new
    ∧ Forall (allowed classes) new.
Proof.
  intros (Hc & Hn & Hsub & (numbers & Hnv & Hnum)).
  destruct ev as [i|i]; simpl.
  - unfold Flat.handleSubjectChange.
    set (s1 := Flat.set_dom _ s).
    destruct (built_update classes false None s1)
      as (s2 & -> & Hb2 & Hc2 & _ & Hn2 & _ & Hs2 & Hh2 & Hsb2).
    { done. }
    { destruct Hsub as (idx & Hidx & Hv). exists idx. split; [done|].
      simpl. by rewrite values_choose. }
    simpl. rewrite Hn2. simpl. destruct Hn as [c Hn]. rewrite Hn.
    destruct (truthy (select_value (subject_select (Flat.dom s2)))) eqn:Et; simpl.
    + eexists _, []. split; [done|]. split_and!.
      * unfold built_from. simpl. split_and!; [done|by eexists|done].
      * simpl. by rewrite Hsb2, app_nil_r.
      * constructor.
    + eexists _, ["All"%string]. split; [done|]. split_and!.
      * unfold built_from. simpl. split_and!; [done|by eexists|].
        destruct Hb2 as [? ?]. split; done.
      * simpl. by rewrite Hsb2.
      * repeat constructor.
  - unfold Flat.handleNumberChange, Flat.applyClassFilter. simpl.
    set (chosen := choose i (number_select (Flat.dom s))).
    set (subject := select_value (subject_select (Flat.dom s))) in *.
    assert (∀ v, built_from classes
                   (Flat.set_dom
                      (submit_filter v
                         (set_number_select chosen (Flat.dom s))) s)) as Hb2.
    { intros v. unfold built_from, form_built. simpl. split_and!; try done.
      exists numbers. unfold chosen. by rewrite values_choose. }
    destruct (truthy (select_value chosen)) eqn:En,
             (truthy subject) eqn:Es; simpl.
    + eexists _, [subject +:+ select_value chosen]. split; [done|].
      split_and!; [apply Hb2|done|]. constructor; [|constructor]. right.
      assert (select_value chosen ∈ numbers_for subject classes) as Hin.
      { apply Hnum.
        destruct (select_value_in chosen) as [E|Hin]; [by rewrite E in En|].
        unfold chosen in Hin at 2. rewrite values_choose, Hnv in Hin.
        apply elem_of_cons in Hin as [E|Hin]; [by rewrite E in En|done]. }
      apply numbers_for_elem in Hin as (cls & Hcls & Hm).
      pose proof Hm as (-> & _)%course_match_Some. split; [done|by eexists].
    + eexists _, ["All"%string]. split; [done|].
      split_and!; [apply Hb2|done|repeat constructor].
    + eexists _, ["All"%string]. split; [done|].
      split_and!; [apply Hb2|done|repeat constructor].
    + eexists _, ["All"%string]. split; [done|].
      split_and!; [apply Hb2|done|repeat constructor].
Qed.

(** A whole session. *)
Lemma built_play classes evs s :
  built_from classes s →
  ∃ s' new,
    play evs s = Done s'
    ∧ built_from classes s'
    ∧ course_filter_submits (Flat.dom s') = course_filter_submits (Flat.dom s) ++ new
    ∧ Forall (allowed classes) new.
Proof.
  revert s. induction evs as [|ev evs IH]; intros s Hb; simpl.
  - exists s, []. split_and!; try done. by rewrite app_nil_r.
  - destruct (built_react classes ev s Hb) as (s1 & new1 & -> & Hb1 & Hs1 & Ha1).
    simpl. destruct (IH s1 Hb1) as (s2 & new2 & Hrun & Hb2 & Hs2 & Ha2).
    exists s2, (new1 ++ new2). split_and!; try done.
    + by rewrite Hs2, Hs1, app_assoc.
    + by apply Forall_app.
Qed.

End SessionFacts.
(* ================================================================== *)
(** ** Facts about pagination                                           *)
(* ================================================================== *)

Module PageFacts.
Import Js Dom Spec Session Notions.
Import JsFacts NumberFacts DomFacts FlatFacts InitFacts DropdownFacts.

Lemma loadMore_page r s :
  Flat.currentPage (Flat.loadMore r s) = num_add (Flat.currentPage s) (Finite 1).
Proof. by destruct r. Qed.

Lemma loadMore_container r s :
  notes_container (Flat.dom (Flat.loadMore r s))
  = notes_container (Flat.dom s) ++ delivered [r].
Proof.
  destruct r as [| | |[h m]]; simpl; try by rewrite app_nil_r.
  by destruct m.
Qed.

Lemma loadMore_console r s :
  (length (console_errors (Flat.dom (Flat.loadMore r s))) + length (delivered [r])
   = S (length (console_errors (Flat.dom s))))%nat.
Proof.
  destruct r as [| | |[h m]]; simpl; rewrite ?length_app; simpl; try lia.
  destruct m; simpl; lia.
Qed.

Lemma loadMore_button r s :
  load_more (Flat.dom (Flat.loadMore r s))
  = match r, load_more (Flat.dom s) with
    | Fetched data, Some v => Some (if has_more data then v else "none"%string)
    | _, b => b
    end.
Proof.
  destruct r as [| | |[h m]]; simpl; try by destruct (load_more (Flat.dom s)).
  destruct m; simpl; by destruct (load_more (Flat.dom s)).
Qed.

Lemma load_all_cons r rs s :
  load_all (r :: rs) s = load_all rs (Flat.loadMore r s).
Proof. reflexivity. Qed.

(** The page an initialization that runs to its end leaves in the counter. *)
Lemma flat_initializePage_page p c f u s s' :
  Flat.initializePage p c f u s = Done s' → Flat.currentPage s' = p.
Proof.
  unfold Flat.initializePage.
  set (s0 := Flat.State p c _ _ _ _).
  destruct (flat_populate_eq (Some f) s0) as (idx & _ & ->). simpl and_then.
  unfold Flat.updateNumberDropdown, Flat.parseClasses. simpl.
  destruct (Flat.parse_list c) as [idx'|]; [|done].
  destruct (Notes.flat_wire u) as [ls|e];
    destruct (truthy _); simpl; try done.
  - destruct (get_prop _ _); simpl; try done; by intros [= <-].
  - by intros [= <-].
  - destruct (get_prop _ _); simpl; done.
Qed.

End PageFacts.
(* ================================================================== *)
(** ** Facts about class lists                                          *)
(* ================================================================== *)

Module ClassFacts.
Import Js Dom Notes Notions JsFacts.

Lemma elem_of_class_remove x c l : x ∈ class_remove c l ↔ x ∈ l ∧ x ≠ c.
Proof.
  unfold class_remove. rewrite !list_elem_of_In, filter_In, negb_true_iff,
    String.eqb_neq. done.
Qed.

Lemma class_remove_absent c l : c ∉ l → class_remove c l = l.
Proof.
  unfold class_remove. induction l as [|x l IH]; intros Hc; [done|].
  apply not_elem_of_cons in Hc as [Hne Hc]. simpl.
  assert ((x =? c)%string = false) as -> by (apply String.eqb_neq; congruence).
  simpl. by rewrite IH.
Qed.

Lemma class_remove_app c l1 l2 :
  class_remove c (l1 ++ l2) = class_remove c l1 ++ class_remove c l2.
Proof. unfold class_remove. apply List.filter_app. Qed.

Lemma class_remove_self c : class_remove c [c] = [].
Proof. unfold class_remove. simpl. by rewrite String.eqb_refl. Qed.

Lemma class_remove_add c l : class_remove c (class_add c l) = class_remove c l.
Proof.
  unfold class_add. case_decide; [done|].
  by rewrite class_remove_app, class_remove_self, app_nil_r.
Qed.

Lemma class_remove_idem c l : class_remove c (class_remove c l) = class_remove c l.
Proof.
  apply class_remove_absent. rewrite elem_of_class_remove. by intros [_ ?].
Qed.

Lemma elem_of_class_toggle x c l :
  x ∈ class_toggle c l ↔ (if decide (x = c) then c ∉ l else x ∈ l).
Proof.
  unfold class_toggle. destruct (decide (c ∈ l)) as [Hc|Hc].
  - rewrite elem_of_class_remove. case_decide; subst; [tauto|tauto].
  - rewrite elem_of_app, list_elem_of_singleton. case_decide; subst; tauto.
Qed.

Lemma class_toggle_twice x c l : x ∈ class_toggle c (class_toggle c l) ↔ x ∈ l.
Proof.
  rewrite elem_of_class_toggle. case_decide as Hx.
  - subst. rewrite elem_of_class_toggle. rewrite decide_True by done.
    destruct (decide (c ∈ l)); tauto.
  - rewrite elem_of_class_toggle. by rewrite decide_False.
Qed.

Lemma edit_form_id_inj a b : "edit-form-" +:+ a = "edit-form-" +:+ b → a = b.
Proof. apply (inj (String.append "edit-form-")). Qed.

Lemma note_content_id_inj a b : "note-content-" +:+ a = "note-content-" +:+ b → a = b.
Proof. apply (inj (String.append "note-content-")). Qed.

Lemma edit_form_not_content a b : "edit-form-" +:+ a ≠ "note-content-" +:+ b.
Proof. rewrite !app_cons. discriminate. Qed.

End ClassFacts.
(* ================================================================== *)
(** ** Further properties of the scripts                                *)
(* ================================================================== *)

Module Extras.
Import Js Dom Spec Notes Session Notions.
Import JsFacts NumberFacts SortFacts DomFacts FlatFacts IndexFacts InitFacts IndexMore SelectFacts DropdownFacts SessionFacts PageFacts ClassFacts.

Local Open Scope string_scope.
Local Open Scope list_scope.

(** X1. The test [currentFilter && currentFilter !== "All"] in front of the
    pattern never decides anything: the empty filter and "All" do not match
    the pattern, so the parts read from a filter are those of the pattern
    alone, and [null] has none. *)
Theorem filter_guard_redundant :
  filter_parts None = None
  ∧ ∀ f, filter_parts (Some f) = course_match f.
Proof.
  split; [done|]. apply filter_parts_Some.
Qed.

(** X2. The index holds what the class list holds, no more and no less: a
    number is listed under a subject exactly when the code they spell is in
    the class list, the subjects are the keys of the mapping, and no subject
    has an empty list. *)
Theorem index_round_trip (classes : list string) :
  ∃ idx, Flat.parse_list classes = Ok idx
    ∧ (∀ subject number,
         (∃ numbers, Flat.classesBySubject idx !! subject = Some numbers
                     ∧ number ∈ numbers)
         ↔ (subject +:+ number ∈ classes
            ∧ course_match (subject +:+ number) = Some (subject, number)))
    ∧ (∀ subject,
         subject ∈ Flat.subjects idx ↔ is_Some (Flat.classesBySubject idx !! subject))
    ∧ ∀ subject, Flat.classesBySubject idx !! subject ≠ Some [].
Proof.
  destruct (parse_list_index classes) as (idx & Hidx & Hmap & Hsub & _).
  exists idx. split; [done|]. split_and!.
  - intros subject number. rewrite Hmap. split.
    + intros (numbers & Hl & Hn).
      destruct (numbers_for subject classes) as [|n ns] eqn:E; [done|].
      injection Hl as <-. rewrite <- E in Hn.
      apply numbers_for_elem in Hn as (cls & Hin & Hm).
      pose proof Hm as (-> & _)%course_match_Some. done.
    + intros [Hin Hm].
      assert (number ∈ numbers_for subject classes) as Hn
        by (apply numbers_for_elem; eauto).
      destruct (numbers_for subject classes) as [|n ns]; [by apply elem_of_nil in Hn|].
      eauto.
  - intros subject. rewrite Hsub, Hmap.
    destruct (numbers_for subject classes) as [|n ns]; split.
    + done.
    + by intros [? ?].
    + intros _. by eexists.
    + done.
  - intros subject. rewrite Hmap. by destruct (numbers_for subject classes).
Qed.

(** X3. The subjects of the index depend on which codes the class list
    holds, not on their order: two class lists that are rearrangements of
    each other give the same subject sequence, and under each subject the
    same numbers, rearranged. *)
Theorem index_of_rearranged_list (classes classes' : list string) :
  classes ≡ₚ classes' →
  ∃ idx idx',
    Flat.parse_list classes = Ok idx ∧ Flat.parse_list classes' = Ok idx'
    ∧ Flat.subjects idx = Flat.subjects idx'
    ∧ ∀ subject,
        match Flat.classesBySubject idx !! subject,
              Flat.classesBySubject idx' !! subject with
        | Some numbers, Some numbers' => numbers ≡ₚ numbers'
        | None, None => True
        | _, _ => False
        end.
Proof.
  intros Hp.
  destruct (parse_list_index classes) as (idx & Hidx & Hmap & Hsub & _ & Hs).
  destruct (parse_list_index classes') as (idx' & Hidx' & Hmap' & Hsub' & _ & Hs').
  exists idx, idx'. split_and!; try done.
  - apply strictly_sorted_unique; try done.
    intros x. rewrite Hsub, Hsub'.
    pose proof (numbers_for_perm x _ _ Hp) as Hx.
    split; intros H E; apply H.
    + rewrite E in Hx. by apply Permutation_nil_r in Hx.
    + rewrite E in Hx. by apply Permutation_nil_l in Hx.
  - intros subject. rewrite Hmap, Hmap'.
    pose proof (numbers_for_perm subject _ _ Hp) as Hx.
    destruct (numbers_for subject classes) as [|n ns],
             (numbers_for subject classes') as [|n' ns']; try done.
    + by apply Permutation_nil_l in Hx.
    + by apply Permutation_nil_r in Hx.
Qed.

Lemma index_of_rearranged_list_witness :
  ["CS225"; "MATH241"; "CS124"] ≡ₚ ["CS124"; "CS225"; "MATH241"]
  ∧ ∃ idx idx',
      Flat.parse_list ["CS225"; "MATH241"; "CS124"] = Ok idx
      ∧ Flat.parse_list ["CS124"; "CS225"; "MATH241"] = Ok idx'
      ∧ Flat.subjects idx = Flat.subjects idx'
      ∧ ∀ subject,
          match Flat.classesBySubject idx !! subject,
                Flat.classesBySubject idx' !! subject with
          | Some numbers, Some numbers' => numbers ≡ₚ numbers'
          | None, None => True
          | _, _ => False
          end.
Proof.
  assert (["CS225"; "MATH241"; "CS124"] ≡ₚ ["CS124"; "CS225"; "MATH241"]) as H.
  { change (["CS225"; "MATH241"] ++ ["CS124"] ≡ₚ ["CS124"] ++ ["CS225"; "MATH241"]).
    apply Permutation_app_comm. }
  split; [exact H|]. exact (index_of_rearranged_list _ _ H).
Defined.

(** X4. A further code at the end of the class list, if it matches the
    pattern, puts its number at the end of its subject's numbers and leaves
    the numbers of every other subject as they were. *)
Theorem index_of_extended_list (classes : list string) (cls subject number : string) :
  course_match cls = Some (subject, number) →
  ∃ idx idx',
    Flat.parse_list classes = Ok idx
    ∧ Flat.parse_list (classes ++ [cls]) = Ok idx'
    ∧ Flat.classesBySubject idx' !! subject
      = Some (default [] (Flat.classesBySubject idx !! subject) ++ [number])
    ∧ ∀ other, other ≠ subject →
        Flat.classesBySubject idx' !! other = Flat.classesBySubject idx !! other.
Proof.
  intros Hm.
  destruct (parse_list_index classes) as (idx & Hidx & Hmap & _).
  destruct (parse_list_index (classes ++ [cls])) as (idx' & Hidx' & Hmap' & _).
  exists idx, idx'. split_and!; try done.
  - rewrite Hmap', Hmap, numbers_for_app. simpl. rewrite Hm.
    rewrite decide_True by done.
    destruct (numbers_for subject classes); done.
  - intros other Hne. rewrite Hmap', Hmap, numbers_for_app. simpl. rewrite Hm.
    rewrite decide_False by done. by rewrite app_nil_r.
Qed.

Lemma index_of_extended_list_witness :
  course_match "CS225" = Some ("CS", "225")
  ∧ ∃ idx idx',
      Flat.parse_list ["CS124"; "MATH241"] = Ok idx
      ∧ Flat.parse_list (["CS124"; "MATH241"] ++ ["CS225"]) = Ok idx'
      ∧ Flat.classesBySubject idx' !! "CS"
        = Some (default [] (Flat.classesBySubject idx !! "CS") ++ ["225"])
      ∧ ∀ other, other ≠ "CS" →
          Flat.classesBySubject idx' !! other = Flat.classesBySubject idx !! other.
Proof.
  assert (course_match "CS225" = Some ("CS", "225")) as H by (vm_compute; reflexivity).
  split; [exact H|].
  exact (index_of_extended_list ["CS124"; "MATH241"] "CS225" "CS" "225" H).
Defined.

(** X5. The sort of the numbers is stable: strings of digits that [parseInt]
    reads as the same Number (7, 07 and 007, say) come out of the sort in the
    order they went in. *)
Theorem numeric_sort_stable (l : list string) (v : number) :
  Forall digits l →
  reading_as v (array_sort numeric_compare l) = reading_as v l.
Proof.
  unfold reading_as. intros Hl.
  set (p := λ s, same_number (parseInt s) v).
  assert (Hins : ∀ x l', digits x → Forall digits l' →
            List.filter p (sort_insert numeric_compare x l') = List.filter p (x :: l')).
  { intros x l' Hx. induction l' as [|y l' IH]; intros Hl'; [done|].
    apply Forall_cons in Hl' as [Hy Hl']. simpl sort_insert.
    destruct (num_pos (numeric_compare x y)) eqn:E; [|done].
    assert (p x && p y = false) as Hxy.
    { destruct (p x) eqn:Px, (p y) eqn:Py; try done. exfalso.
      unfold p in Px, Py. unfold numeric_compare in E.
      destruct Hx as [Hx1 Hx2], Hy as [Hy1 Hy2].
      pose proof (parseInt_ordinary x Hx1 Hx2) as Ox.
      pose proof (parseInt_ordinary y Hy1 Hy2) as Oy.
      assert (num_le (parseInt x) (parseInt y)) as Hle.
      { destruct (parseInt x), (parseInt y), v; simpl in *; try done.
        apply Z.eqb_eq in Px, Py. lia. }
      apply num_sub_pos in Hle; [congruence|done..]. }
    simpl. rewrite (IH Hl'). simpl.
    destruct (p x), (p y); done. }
  induction Hl as [|x l Hx Hl IH]; [done|].
  simpl array_sort. rewrite Hins; [|done|by rewrite array_sort_perm].
  simpl. by rewrite IH.
Qed.

Lemma numeric_sort_stable_witness :
  Forall digits ["7"; "10"; "07"; "9"; "007"]
  ∧ reading_as (Finite 7) (array_sort numeric_compare ["7"; "10"; "07"; "9"; "007"])
    = reading_as (Finite 7) ["7"; "10"; "07"; "9"; "007"].
Proof.
  assert (Forall digits ["7"; "10"; "07"; "9"; "007"]) as H.
  { repeat constructor. }
  split; [exact H|]. exact (numeric_sort_stable _ (Finite 7) H).
Defined.

(** X6. On the template's page [populateSubjects] leaves the subject list
    with the empty entry followed by the subjects of the index, whatever was
    listed before, and leaves the page fit for the next call: calling it
    again lists the same values, not more. *)
Theorem populateSubjects_lists_index (f : option string) (s : Flat.state) :
  template_page (Flat.dom s) →
  ∃ idx s',
    Flat.parseClasses s = Ok idx
    ∧ Flat.populateSubjects f s = Done s'
    ∧ map opt_value (subject_select (Flat.dom s')) = "" :: Flat.subjects idx
    ∧ template_page (Flat.dom s')
    ∧ Flat.CLASSES s' = Flat.CLASSES s
    ∧ number_select (Flat.dom s') = number_select (Flat.dom s)
    ∧ course_filter_submits (Flat.dom s') = course_filter_submits (Flat.dom s).
Proof.
  intros Ht. destruct (flat_populate_eq f s) as (idx & Hidx & Hrun).
  eexists idx, _. split; [done|]. split; [exact Hrun|]. simpl.
  assert (map opt_value
            (Flat.add_options
               (match filter_parts f with
                | Some (subject, _) => subject
                | None => ""
                end) (Flat.subjects idx)
               (clear_after_first (subject_select (Flat.dom s))))
          = "" :: Flat.subjects idx) as Hv.
  { rewrite values_add_options, values_clear_after_first.
    unfold template_page in Ht.
    destruct (subject_select (Flat.dom s)) as [|o rest]; [done|].
    simpl. by rewrite Ht. }
  split_and!; try done.
  unfold template_page. simpl.
  destruct (Flat.add_options _ _ _) as [|o rest]; [done|].
  simpl in Hv. by injection Hv.
Qed.

Lemma populateSubjects_lists_index_witness :
  let d := Page [OptionEl "" "All Subjects" true; OptionEl "OLD" "OLD" false]
                [all_numbers] "All" [] [] [] None [] in
  let s := Flat.State (Finite 1) ["CS225"; "MATH241"; "CS124"] None None [] d in
  template_page (Flat.dom s)
  ∧ ∃ idx s',
      Flat.parseClasses s = Ok idx
      ∧ Flat.populateSubjects (Some "CS124") s = Done s'
      ∧ map opt_value (subject_select (Flat.dom s')) = "" :: Flat.subjects idx
      ∧ template_page (Flat.dom s')
      ∧ Flat.CLASSES s' = Flat.CLASSES s
      ∧ number_select (Flat.dom s') = number_select (Flat.dom s)
      ∧ course_filter_submits (Flat.dom s') = course_filter_submits (Flat.dom s).
Proof.
  intros d s.
  assert (template_page (Flat.dom s)) as H by reflexivity.
  split; [exact H|]. exact (populateSubjects_lists_index (Some "CS124") s H).
Defined.

(** X7. A page that has the note modal, initialized with a filter that is a
    code of the class list, shows that code in its two lists: the code's
    subject is the selected subject, its number the selected number, nothing
    has been submitted, and applying the filter from there submits the same
    code again. *)
Theorem initial_filter_round_trip
    (p : number) (classes : list string) (f subject number : string)
    (u : ui) (s : Flat.state) :
  is_Some (elements u !! "note-modal") →
  course_match f = Some (subject, number) →
  f ∈ classes →
  ∃ s',
    Flat.initializePage p classes f u s = Done s'
    ∧ select_value (subject_select (Flat.dom s')) = subject
    ∧ select_value (number_select (Flat.dom s')) = number
    ∧ course_filter_submits (Flat.dom s') = course_filter_submits (Flat.dom s)
    ∧ ∃ s'', Flat.applyClassFilter s' = Done s''
        ∧ class_filter_hidden (Flat.dom s'') = f
        ∧ course_filter_submits (Flat.dom s'')
          = course_filter_submits (Flat.dom s) ++ [f].
Proof.
  intros [cl Hmod] Hm Hin.
  pose proof Hm as (Hf & Hts & Hus & Htn & Hdn)%course_match_Some.
  assert (number ∈ numbers_for subject classes) as Hn
    by (apply numbers_for_elem; eauto).
  destruct (parse_list_index classes) as (idx & Hidx & _ & Hsub & _).
  assert (subject ∈ Flat.subjects idx) as Hs.
  { apply Hsub. intros E. rewrite E in Hn. by apply elem_of_nil in Hn. }
  unfold Flat.initializePage, flat_wire. rewrite Hmod.
  set (s0 := Flat.State p classes _ _ _ _).
  destruct (flat_populate_eq (Some f) s0) as (idx' & Hidx' & ->).
  simpl in Hidx'. rewrite Hidx in Hidx'. injection Hidx' as <-.
  pose proof filter_parts_Some as Hg. rewrite Hg, Hm.
  simpl and_then.
  set (subjects_list := Flat.add_options subject (Flat.subjects idx) _).
  assert (one_selected subject subjects_list) as (_ & _ & Hsel)
    by (by apply one_selected_when_listed).
  match goal with |- context [Flat.updateNumberDropdown true (Some f) ?s1] =>
    pose proof (flat_update_eq true (Some f) s1) as Hupd
  end.
  rewrite Hg, Hm in Hupd. simpl in Hupd. rewrite Hsel in Hupd.
  specialize (Hupd Hus). rewrite Hupd. rewrite Hts. simpl and_then.
  set (numbers_list := Flat.add_options number _ _).
  assert (one_selected number numbers_list) as (_ & _ & Hnum).
  { apply one_selected_when_listed. by rewrite array_sort_perm. }
  eexists. split; [reflexivity|]. simpl.
  split; [done|]. split; [done|]. split; [done|].
  eexists. split; [reflexivity|]. simpl.
  fold subjects_list numbers_list. rewrite Hsel, Hnum, Hts, Htn. simpl.
  by rewrite Hf.
Qed.

Lemma initial_filter_round_trip_witness :
  let d := Page [OptionEl "" "All Subjects" true] [all_numbers] "All" [] [] [] None [] in
  let s := Flat.State (Finite 1) [] None None [] d in
  let classes := ["CS225"; "MATH241"; "CS124"] in
  let u := Ui {["note-modal" := []]} "" None in
  is_Some (elements u !! "note-modal")
  ∧ course_match "CS124" = Some ("CS", "124")
  ∧ "CS124" ∈ classes
  ∧ ∃ s',
      Flat.initializePage (Finite 1) classes "CS124" u s = Done s'
      ∧ select_value (subject_select (Flat.dom s')) = "CS"
      ∧ select_value (number_select (Flat.dom s')) = "124"
      ∧ course_filter_submits (Flat.dom s') = course_filter_submits (Flat.dom s)
      ∧ ∃ s'', Flat.applyClassFilter s' = Done s''
          ∧ class_filter_hidden (Flat.dom s'') = "CS124"
          ∧ course_filter_submits (Flat.dom s'')
            = course_filter_submits (Flat.dom s) ++ ["CS124"].
Proof.
  intros d s classes u.
  assert (is_Some (elements u !! "note-modal")) as H0 by (by eexists).
  assert (course_match "CS124" = Some ("CS", "124")) as H1 by (vm_compute; reflexivity).
  assert ("CS124" ∈ classes) as H2 by (do 2 right; left).
  split; [exact H0|]. split; [exact H1|]. split; [exact H2|].
  exact (initial_filter_round_trip (Finite 1) classes "CS124" "CS" "124" u s H0 H1 H2).
Defined.

(** X8. A page initialized with "All", or with any filter that is not a
    course code, has nothing chosen: on the template's page, the note modal
    on it, the subject list stays on its empty entry, the number list holds
    its "All Numbers" entry alone, and applying the filter from there
    submits "All". *)
Theorem initial_filter_without_code
    (p : number) (classes : list string) (f : string) (u : ui) (s : Flat.state) :
  is_Some (elements u !! "note-modal") →
  template_page (Flat.dom s) →
  course_match f = None →
  ∃ s',
    Flat.initializePage p classes f u s = Done s'
    ∧ select_value (subject_select (Flat.dom s')) = ""
    ∧ number_select (Flat.dom s') = [all_numbers]
    ∧ ∃ s'', Flat.applyClassFilter s' = Done s''
        ∧ class_filter_hidden (Flat.dom s'') = "All".
Proof.
  intros [cl Hmod] Ht Hm. unfold Flat.initializePage, flat_wire. rewrite Hmod.
  set (s0 := Flat.State p classes _ _ _ _).
  destruct (flat_populate_eq (Some f) s0) as (idx & Hidx & ->).
  rewrite filter_parts_Some, Hm. simpl and_then.
  set (subjects_list := Flat.add_options "" (Flat.subjects idx) _).
  assert (select_value subjects_list = "") as Hsel.
  { destruct (headed_value "" subjects_list) as [E|E]; try done.
    apply headed_add_options. by apply (headed_clear "" (Flat.dom s)). }
  match goal with |- context [Flat.updateNumberDropdown true (Some f) ?s1] =>
    pose proof (flat_update_eq true (Some f) s1) as Hupd
  end.
  simpl in Hupd. fold subjects_list in Hupd. rewrite Hsel in Hupd.
  specialize (Hupd eq_refl). simpl in Hupd. rewrite Hupd. simpl and_then.
  eexists. split; [reflexivity|]. simpl. split; [done|]. split; [done|].
  eexists. split; [reflexivity|]. simpl.
  fold subjects_list. by rewrite Hsel.
Qed.

Lemma initial_filter_without_code_witness :
  let d := Page [OptionEl "" "All Subjects" true] [all_numbers] "" [] [] [] None [] in
  let s := Flat.State (Finite 1) [] None None [] d in
  let u := Ui {["note-modal" := []]} "" None in
  is_Some (elements u !! "note-modal")
  ∧ template_page (Flat.dom s)
  ∧ course_match "All" = None
  ∧ ∃ s',
      Flat.initializePage (Finite 1) ["CS124"] "All" u s = Done s'
      ∧ select_value (subject_select (Flat.dom s')) = ""
      ∧ number_select (Flat.dom s') = [all_numbers]
      ∧ ∃ s'', Flat.applyClassFilter s' = Done s''
          ∧ class_filter_hidden (Flat.dom s'') = "All".
Proof.
  intros d s u.
  assert (is_Some (elements u !! "note-modal")) as H0 by (by eexists).
  assert (template_page (Flat.dom s)) as H1 by reflexivity.
  assert (course_match "All" = None) as H2 by (vm_compute; reflexivity).
  split; [exact H0|]. split; [exact H1|]. split; [exact H2|].
  exact (initial_filter_without_code (Finite 1) ["CS124"] "All" u s H0 H1 H2).
Defined.

(** X9. A page that has the note modal, initialized with a code whose
    subject is in the class list but whose number is not listed under it,
    shows the subject with no number chosen, and applying the filter from
    there submits "All": the subject of the filter is lost. *)
Theorem initial_filter_unknown_number
    (p : number) (classes : list string) (f subject number : string)
    (u : ui) (s : Flat.state) :
  is_Some (elements u !! "note-modal") →
  course_match f = Some (subject, number) →
  numbers_for subject classes ≠ [] →
  number ∉ numbers_for subject classes →
  ∃ s',
    Flat.initializePage p classes f u s = Done s'
    ∧ select_value (subject_select (Flat.dom s')) = subject
    ∧ select_value (number_select (Flat.dom s')) = ""
    ∧ ∃ s'', Flat.applyClassFilter s' = Done s''
        ∧ class_filter_hidden (Flat.dom s'') = "All".
Proof.
  intros [cl Hmod] Hm Hne Hnin.
  pose proof Hm as (Hf & Hts & Hus & Htn & Hdn)%course_match_Some.
  destruct (parse_list_index classes) as (idx & Hidx & _ & Hsub & _).
  assert (subject ∈ Flat.subjects idx) as Hs by (by apply Hsub).
  unfold Flat.initializePage, flat_wire. rewrite Hmod.
  set (s0 := Flat.State p classes _ _ _ _).
  destruct (flat_populate_eq (Some f) s0) as (idx' & Hidx' & ->).
  simpl in Hidx'. rewrite Hidx in Hidx'. injection Hidx' as <-.
  rewrite filter_parts_Some, Hm. simpl and_then.
  set (subjects_list := Flat.add_options subject (Flat.subjects idx) _).
  assert (one_selected subject subjects_list) as (_ & _ & Hsel)
    by (by apply one_selected_when_listed).
  match goal with |- context [Flat.updateNumberDropdown true (Some f) ?s1] =>
    pose proof (flat_update_eq true (Some f) s1) as Hupd
  end.
  rewrite filter_parts_Some, Hm in Hupd. simpl in Hupd. rewrite Hsel in Hupd.
  specialize (Hupd Hus). rewrite Hupd. rewrite Hts. simpl and_then.
  set (numbers_list := Flat.add_options number _ _).
  assert (one_selected "" numbers_list) as (_ & _ & Hnum).
  { apply one_selected_when_not_listed; [|apply one_selected_sentinel].
    by rewrite array_sort_perm. }
  eexists. split; [reflexivity|]. simpl.
  split; [done|]. split; [done|].
  eexists. split; [reflexivity|]. simpl.
  fold subjects_list numbers_list. by rewrite Hsel, Hnum, Hts.
Qed.

Lemma initial_filter_unknown_number_witness :
  let d := Page [OptionEl "" "All Subjects" true] [all_numbers] "" [] [] [] None [] in
  let s := Flat.State (Finite 1) [] None None [] d in
  let u := Ui {["note-modal" := []]} "" None in
  is_Some (elements u !! "note-modal")
  ∧ course_match "CS999" = Some ("CS", "999")
  ∧ numbers_for "CS" ["CS124"; "CS225"] ≠ []
  ∧ ("999" ∉ numbers_for "CS" ["CS124"; "CS225"])
  ∧ ∃ s',
      Flat.initializePage (Finite 1) ["CS124"; "CS225"] "CS999" u s = Done s'
      ∧ select_value (subject_select (Flat.dom s')) = "CS"
      ∧ select_value (number_select (Flat.dom s')) = ""
      ∧ ∃ s'', Flat.applyClassFilter s' = Done s''
          ∧ class_filter_hidden (Flat.dom s'') = "All".
Proof.
  intros d s u.
  assert (is_Some (elements u !! "note-modal")) as H0 by (by eexists).
  assert (course_match "CS999" = Some ("CS", "999")) as H1 by (vm_compute; reflexivity).
  assert (numbers_for "CS" ["CS124"; "CS225"] ≠ []) as H2 by (vm_compute; discriminate).
  assert ("999" ∉ numbers_for "CS" ["CS124"; "CS225"]) as H3.
  { vm_compute. intros H. apply list_elem_of_In in H. simpl in H.
    destruct H as [H|[H|[]]]; discriminate. }
  split; [exact H0|]. split; [exact H1|]. split; [exact H2|]. split; [exact H3|].
  exact (initial_filter_unknown_number (Finite 1) ["CS124"; "CS225"] "CS999" "CS" "999"
           u s H0 H1 H2 H3).
Defined.

(** X10. The subject listener, on an initialized page whose selected subject
    is a run of capitals or empty: it runs to its end, the number list it
    rebuilds has no number chosen, and the form is submitted, with "All",
    exactly when no subject is selected; with a subject selected nothing is
    submitted and the hidden field is left alone. *)
Theorem subject_change_resets_number (s : Flat.state) :
  is_Some (Flat.numberChoice s) →
  str_all is_upper (select_value (subject_select (Flat.dom s))) = true →
  ∃ s',
    Flat.handleSubjectChange s = Done s'
    ∧ subject_select (Flat.dom s') = subject_select (Flat.dom s)
    ∧ select_value (number_select (Flat.dom s')) = ""
    ∧ (if truthy (select_value (subject_select (Flat.dom s)))
       then course_filter_submits (Flat.dom s') = course_filter_submits (Flat.dom s)
            ∧ class_filter_hidden (Flat.dom s') = class_filter_hidden (Flat.dom s)
       else course_filter_submits (Flat.dom s')
            = course_filter_submits (Flat.dom s) ++ ["All"]
            ∧ class_filter_hidden (Flat.dom s') = "All").
Proof.
  intros [c Hc] Hup. unfold Flat.handleSubjectChange.
  rewrite (flat_update_eq false None s Hup). simpl. rewrite Hc.
  destruct (truthy (select_value (subject_select (Flat.dom s)))) eqn:Et; simpl.
  - eexists. split; [reflexivity|]. simpl. split_and!; try done.
    by destruct (number_list_reset
                   (array_sort numeric_compare
                      (numbers_for (select_value (subject_select (Flat.dom s)))
                         (Flat.CLASSES s)))) as (_ & _ & ?).
  - eexists. split; [reflexivity|]. simpl. done.
Qed.

Lemma subject_change_resets_number_witness :
  let d := Page [OptionEl "" "All Subjects" false; OptionEl "CS" "CS" true]
                [all_numbers; OptionEl "124" "124" true] "CS124" []
                [] [] None [] in
  let s := Flat.State (Finite 1) ["CS124"; "CS225"] None
             (Some (Choices "number-select" "Type to search numbers...")) [] d in
  is_Some (Flat.numberChoice s)
  ∧ str_all is_upper (select_value (subject_select (Flat.dom s))) = true
  ∧ ∃ s',
      Flat.handleSubjectChange s = Done s'
      ∧ subject_select (Flat.dom s') = subject_select (Flat.dom s)
      ∧ select_value (number_select (Flat.dom s')) = ""
      ∧ (if truthy (select_value (subject_select (Flat.dom s)))
         then course_filter_submits (Flat.dom s') = course_filter_submits (Flat.dom s)
              ∧ class_filter_hidden (Flat.dom s') = class_filter_hidden (Flat.dom s)
         else course_filter_submits (Flat.dom s')
              = course_filter_submits (Flat.dom s) ++ ["All"]
              ∧ class_filter_hidden (Flat.dom s') = "All").
Proof.
  intros d s.
  assert (is_Some (Flat.numberChoice s)) as H1 by (by eexists).
  assert (str_all is_upper (select_value (subject_select (Flat.dom s))) = true) as H2
    by reflexivity.
  split; [exact H1|]. split; [exact H2|].
  exact (subject_change_resets_number s H1 H2).
Defined.

(** X11. Whatever the user chooses in the two lists of a page that was
    initialized on the template, the note modal on it, and in whatever
    order, no listener throws and every value the form is submitted with is
    "All" or a code of the class list that matches the pattern. *)
Theorem session_submits_catalog_codes
    (p : number) (classes : list string) (f : string) (u : ui) (s : Flat.state)
    (evs : list user_event) :
  is_Some (elements u !! "note-modal") →
  template_page (Flat.dom s) →
  ∃ s0 s' new,
    Flat.initializePage p classes f u s = Done s0
    ∧ play evs s0 = Done s'
    ∧ course_filter_submits (Flat.dom s') = course_filter_submits (Flat.dom s) ++ new
    ∧ Forall (allowed classes) new.
Proof.
  intros Hmod Ht.
  destruct (built_initialize p classes f u s Ht Hmod) as (s0 & Hinit & Hb & _ & Hs0).
  destruct (built_play classes evs s0 Hb) as (s' & new & Hplay & _ & Hs' & Hall).
  exists s0, s', new. split_and!; try done. by rewrite Hs', Hs0.
Qed.

Lemma session_submits_catalog_codes_witness :
  let d := Page [OptionEl "" "All Subjects" true] [all_numbers] "" [] [] [] None [] in
  let s := Flat.State (Finite 1) [] None None [] d in
  let classes := ["CS225"; "MATH241"; "CS124"] in
  let evs := [PickSubject 1; PickNumber 2; PickNumber 0; PickSubject 0] in
  let u := Ui {["note-modal" := []]} "" None in
  is_Some (elements u !! "note-modal")
  ∧ template_page (Flat.dom s)
  ∧ ∃ s0 s' new,
      Flat.initializePage (Finite 1) classes "All" u s = Done s0
      ∧ play evs s0 = Done s'
      ∧ course_filter_submits (Flat.dom s') = course_filter_submits (Flat.dom s) ++ new
      ∧ Forall (allowed classes) new.
Proof.
  intros d s classes evs u.
  assert (is_Some (elements u !! "note-modal")) as H0 by (by eexists).
  assert (template_page (Flat.dom s)) as H by reflexivity.
  split; [exact H0|]. split; [exact H|].
  exact (session_submits_catalog_codes (Finite 1) classes "All" u s evs H0 H).
Defined.

(** What the session of the example submits. *)
Example session_example :
  let d := Page [OptionEl "" "All Subjects" true] [all_numbers] "" [] [] [] None [] in
  let s := Flat.State (Finite 1) [] None None [] d in
  let classes := ["CS225"; "MATH241"; "CS124"] in
  let evs := [PickSubject 1; PickNumber 2; PickNumber 0; PickSubject 0] in
  let u := Ui {["note-modal" := []]} "" None in
  course_filter_submits
    (Flat.dom (final (play evs (final (Flat.initializePage (Finite 1) classes "All" u s)))))
  = ["CS225"; "All"; "All"].
Proof. vm_compute. reflexivity. Qed.

(** X12. Rebuilding the number list is idempotent in the flat script: a
    second call with the same arguments ends as the first one did, in the
    same state, whether the first ran to its end or threw. *)
Theorem flat_rebuild_idempotent (p : bool) (f : option string) (s : Flat.state) :
  Flat.updateNumberDropdown p f (final (Flat.updateNumberDropdown p f s))
  = Flat.updateNumberDropdown p f s.
Proof.
  unfold Flat.updateNumberDropdown, Flat.parseClasses.
  destruct (Flat.parse_list (Flat.CLASSES s)) as [idx|e] eqn:Hidx; simpl.
  - destruct (truthy (select_value (subject_select (Flat.dom s)))) eqn:Et; simpl.
    + destruct (get_prop (Flat.classesBySubject idx)
                  (select_value (subject_select (Flat.dom s)))) eqn:Eg;
        simpl; rewrite Hidx; simpl; rewrite Et, Eg; done.
    + rewrite Hidx. simpl. by rewrite Et.
  - by rewrite Hidx.
Qed.

(** X13. In the structured script the first rebuild for a subject may
    reorder the catalog, a second one changes nothing: when the numbers of
    the selected subject are strings of digits, calling
    [updateNumberDropdown] again on the state the first call produced gives
    that state back. *)
Theorem structured_rebuild_idempotent
    (p : bool) (f : option string) (s s1 : Structured.state) :
  Structured.updateNumberDropdown p f s = Done s1 →
  Forall digits
    (default [] (Structured.COURSES_DICT s
                   !! select_value (subject_select (Structured.dom s)))) →
  Structured.updateNumberDropdown p f s1 = Done s1.
Proof.
  unfold Structured.updateNumberDropdown. simpl.
  set (subject := select_value (subject_select (Structured.dom s))).
  destruct (truthy subject) eqn:Et.
  - unfold get_prop.
    destruct (Structured.COURSES_DICT s !! subject) as [numbers|] eqn:El; simpl.
    + intros [= <-] Hd. simpl. fold subject. rewrite Et.
      rewrite lookup_insert_eq.
      assert (array_sort numeric_compare (array_sort numeric_compare numbers)
              = array_sort numeric_compare numbers) as ->.
      { apply array_sort_in_order.
        pose proof (numeric_sorted numbers Hd) as Hs.
        assert (Forall digits (array_sort numeric_compare numbers)) as Hd'
          by (by rewrite array_sort_perm).
        induction Hs as [|x l Hs IH Hx]; [done|].
        apply Forall_cons in Hd' as [[Hx1 Hx2] Hl].
        destruct l as [|y l]; [done|].
        change (in_sort_order (x :: y :: l))
          with (negb (num_pos (numeric_compare x y)) && in_sort_order (y :: l)).
        rewrite (IH Hl), andb_true_r. apply negb_true_iff.
        apply Forall_cons in Hx as [Hxy _].
        apply Forall_cons in Hl as [[Hy1 Hy2] _].
        apply num_sub_pos; [by apply parseInt_ordinary..|done]. }
      by rewrite insert_insert_eq.
    + destruct (decide (subject ∈ object_prototype_names)); [done|].
      intros [= <-] _. simpl. fold subject. rewrite Et, El.
      by rewrite decide_False.
  - intros [= <-] _. simpl. fold subject. by rewrite Et.
Qed.

Lemma structured_rebuild_idempotent_witness :
  let d := Page [OptionEl "" "All Subjects" false; OptionEl "CS" "CS" true]
                [all_numbers] "All" [] [] [] None [] in
  let s := Structured.State (Finite 1) [] {["CS" := ["225"; "124"]]} ["CS"]
             None None [] d in
  let s1 := Structured.State (Finite 1) [] {["CS" := ["124"; "225"]]} ["CS"]
              None None []
              (set_number_select
                 [all_numbers; OptionEl "124" "124" false; OptionEl "225" "225" false] d) in
  Structured.updateNumberDropdown false None s = Done s1
  ∧ Forall digits
      (default [] (Structured.COURSES_DICT s
                     !! select_value (subject_select (Structured.dom s))))
  ∧ Structured.updateNumberDropdown false None s1 = Done s1.
Proof.
  intros d s s1.
  assert (Structured.updateNumberDropdown false None s = Done s1) as H1.
  { vm_compute. reflexivity. }
  assert (Forall digits
            (default [] (Structured.COURSES_DICT s
                           !! select_value (subject_select (Structured.dom s))))) as H2.
  { vm_compute. repeat constructor. }
  split; [exact H1|]. split; [exact H2|].
  exact (structured_rebuild_idempotent false None s s1 H1 H2).
Defined.

(** X14. The two scripts build the same lists when the server's catalog is
    the index of the class list: with the same document, [populateSubjects]
    and [updateNumberDropdown] end in the same way and leave the same
    document in the structured script as in the flat one. *)
Theorem scripts_agree_on_lists
    (sf : Flat.state) (ss : Structured.state) (idx : Flat.index)
    (p : bool) (f : option string) :
  Flat.parseClasses sf = Ok idx →
  Structured.SUBJECTS ss = Flat.subjects idx →
  Structured.COURSES_DICT ss = Flat.classesBySubject idx →
  Structured.dom ss = Flat.dom sf →
  (∃ sf' ss', Flat.populateSubjects f sf = Done sf'
              ∧ Structured.populateSubjects f ss = Done ss'
              ∧ Structured.dom ss' = Flat.dom sf')
  ∧ match Flat.updateNumberDropdown p f sf, Structured.updateNumberDropdown p f ss with
    | Done sf', Done ss' => Structured.dom ss' = Flat.dom sf'
    | Raised e sf', Raised e' ss' => e' = e ∧ Structured.dom ss' = Flat.dom sf'
    | _, _ => False
    end.
Proof.
  intros Hidx Hsub Hcat Hdom. split.
  - unfold Flat.populateSubjects, Structured.populateSubjects. rewrite Hidx. simpl.
    eexists _, _. split; [reflexivity|]. split; [reflexivity|]. simpl.
    by rewrite Hsub, Hdom.
  - unfold Flat.updateNumberDropdown, Structured.updateNumberDropdown.
    rewrite Hidx. simpl. rewrite Hcat, Hdom.
    destruct (truthy (select_value (subject_select (Flat.dom sf)))); simpl; [|done].
    destruct (get_prop (Flat.classesBySubject idx)
                (select_value (subject_select (Flat.dom sf)))); simpl; done.
Qed.

Lemma scripts_agree_on_lists_witness :
  let d := Page [OptionEl "" "All Subjects" false; OptionEl "CS" "CS" true]
                [all_numbers] "All" [] [] [] None [] in
  let sf := Flat.State (Finite 1) ["CS225"; "CS124"] None None [] d in
  let idx := Flat.Index ["CS"] {["CS" := ["225"; "124"]]} in
  let ss := Structured.State (Finite 1) [] {["CS" := ["225"; "124"]]} ["CS"]
              None None [] d in
  Flat.parseClasses sf = Ok idx
  ∧ Structured.SUBJECTS ss = Flat.subjects idx
  ∧ Structured.COURSES_DICT ss = Flat.classesBySubject idx
  ∧ Structured.dom ss = Flat.dom sf
  ∧ (∃ sf' ss', Flat.populateSubjects (Some "CS124") sf = Done sf'
                ∧ Structured.populateSubjects (Some "CS124") ss = Done ss'
                ∧ Structured.dom ss' = Flat.dom sf')
  ∧ match Flat.updateNumberDropdown true (Some "CS124") sf,
          Structured.updateNumberDropdown true (Some "CS124") ss with
    | Done sf', Done ss' => Structured.dom ss' = Flat.dom sf'
    | Raised e sf', Raised e' ss' => e' = e ∧ Structured.dom ss' = Flat.dom sf'
    | _, _ => False
    end.
Proof.
  intros d sf idx ss.
  assert (Flat.parseClasses sf = Ok idx) as H1 by (vm_compute; reflexivity).
  assert (Structured.SUBJECTS ss = Flat.subjects idx) as H2 by reflexivity.
  assert (Structured.COURSES_DICT ss = Flat.classesBySubject idx) as H3 by reflexivity.
  assert (Structured.dom ss = Flat.dom sf) as H4 by reflexivity.
  split; [exact H1|]. split; [exact H2|]. split; [exact H3|]. split; [exact H4|].
  exact (scripts_agree_on_lists sf ss idx true (Some "CS124") H1 H2 H3 H4).
Defined.

(** X15. Every call of [loadMore] uses up a page number, whether its fetch
    delivers or not: after any run of calls, each settled before the next,
    a counter that started at page [n] stands at [n] plus the number of
    calls, as long as that stays below [2^53]. *)
Theorem load_more_counts_calls (rs : list fetched) (s : Flat.state) (n : Z) :
  Flat.currentPage s = Finite n →
  0 <= n →
  n + Z.of_nat (length rs) < 2 ^ 53 →
  Flat.currentPage (load_all rs s) = Finite (n + Z.of_nat (length rs)).
Proof.
  revert s n. induction rs as [|r rs IH]; intros s n Hp Hn Hb.
  - simpl. rewrite Hp. f_equal. lia.
  - rewrite load_all_cons. simpl length in *.
    rewrite (IH (Flat.loadMore r s) (n + 1)); [f_equal; lia| |lia|lia].
    rewrite loadMore_page, Hp. apply num_add_one_exact. lia.
Qed.

Lemma load_more_counts_calls_witness :
  let d := Page [] [] "All" [] [] ["<div>A</div>"] (Some "") [] in
  let s := Flat.State (Finite 1) [] None None [] d in
  let rs := [NotOk; NetworkFailure; Fetched (NotesData "<div>X</div>" true)] in
  Flat.currentPage s = Finite 1
  ∧ 0 <= 1
  ∧ 1 + Z.of_nat (length rs) < 2 ^ 53
  ∧ Flat.currentPage (load_all rs s) = Finite (1 + Z.of_nat (length rs)).
Proof.
  intros d s rs.
  assert (Flat.currentPage s = Finite 1) as H1 by reflexivity.
  assert (0 <= 1) as H2 by lia.
  assert (1 + Z.of_nat (length rs) < 2 ^ 53) as H3 by (vm_compute; reflexivity).
  split; [exact H1|]. split; [exact H2|]. split; [exact H3|].
  exact (load_more_counts_calls rs s 1 H1 H2 H3).
Defined.

(** X16. After any run of [loadMore] calls, each settled before the next,
    the container holds what it held before followed by the fragments of the
    fetches that delivered, in the order of the calls, and the console has
    one more message for each fetch that did not. *)
Theorem load_more_appends_delivered (rs : list fetched) (s : Flat.state) :
  notes_container (Flat.dom (load_all rs s))
  = notes_container (Flat.dom s) ++ delivered rs
  ∧ (length (console_errors (Flat.dom (load_all rs s))) + length (delivered rs)
     = length (console_errors (Flat.dom s)) + length rs)%nat.
Proof.
  revert s. induction rs as [|r rs IH]; intros s.
  - simpl. split; [by rewrite app_nil_r|lia].
  - rewrite load_all_cons. destruct (IH (Flat.loadMore r s)) as [Hc He].
    pose proof (loadMore_console r s) as Hl.
    assert (delivered (r :: rs) = delivered [r] ++ delivered rs) as ->
      by (by destruct r).
    rewrite Hc, loadMore_container, <- app_assoc. split; [done|].
    rewrite length_app. simpl length in *. lia.
Qed.


(** X18. A fetch that settles and an operation of the filter form do not get
    in each other's way: whether the fetch settles before the operation or
    after it, the operation ends in the same way and the page is the same. *)
Theorem settling_commutes_with_filter
    (op : Flat.operation) (r : fetched) (s : Flat.state) :
  Flat.run op (Flat.loadMore_settle r s)
  = outcome_map (Flat.loadMore_settle r) (Flat.run op s).
Proof.
  destruct op as [f|p f| | |]; simpl.
  - unfold Flat.populateSubjects, Flat.parseClasses.
    destruct r as [| | |[h m]]; simpl;
      destruct (Flat.parse_list (Flat.CLASSES s)); simpl; try done.
    by destruct m.
  - unfold Flat.updateNumberDropdown, Flat.parseClasses.
    destruct r as [| | |[h m]]; simpl;
      destruct (Flat.parse_list (Flat.CLASSES s)) as [idx|]; simpl; try done;
      try destruct m; simpl;
      destruct (truthy (select_value (subject_select (Flat.dom s)))); simpl;
        try done;
      destruct (get_prop (Flat.classesBySubject idx) _); simpl; done.
  - unfold Flat.applyClassFilter.
    destruct r as [| | |[h m]]; simpl; try done. by destruct m.
  - unfold Flat.handleSubjectChange, Flat.updateNumberDropdown, Flat.parseClasses.
    destruct r as [| | |[h m]]; simpl;
      destruct (Flat.parse_list (Flat.CLASSES s)) as [idx|]; simpl; try done;
      try destruct m; simpl;
      destruct (truthy (select_value (subject_select (Flat.dom s)))) eqn:Et;
        simpl; try rewrite Et; simpl; try done;
      try (destruct (get_prop (Flat.classesBySubject idx) _); simpl; try done);
      destruct (Flat.numberChoice s); simpl; try rewrite Et; simpl; done.
  - unfold Flat.handleNumberChange, Flat.applyClassFilter.
    destruct r as [| | |[h m]]; simpl; try destruct m; simpl;
      by destruct (negb (truthy (select_value (number_select (Flat.dom s))))
                   && truthy (select_value (subject_select (Flat.dom s)))).
Qed.

(** X19. [loadMore] hides the button and never shows it again: once a fetch
    has delivered with [has_more] false the button is hidden after every
    later call, also one whose answer says there is more; and a button that
    is not in the page stays absent. *)
Theorem load_more_button_stays_hidden (rs : list fetched) (s : Flat.state) :
  (load_more (Flat.dom s) = Some "none" →
   load_more (Flat.dom (load_all rs s)) = Some "none")
  ∧ (load_more (Flat.dom s) = None →
     load_more (Flat.dom (load_all rs s)) = None)
  ∧ (is_Some (load_more (Flat.dom s)) →
     (∃ data, Fetched data ∈ rs ∧ has_more data = false) →
     load_more (Flat.dom (load_all rs s)) = Some "none").
Proof.
  assert (Hkeep : ∀ rs s, load_more (Flat.dom s) = Some "none" →
                    load_more (Flat.dom (load_all rs s)) = Some "none").
  { clear. induction rs as [|r rs IH]; intros s H; [done|].
    rewrite load_all_cons. apply IH. rewrite loadMore_button, H.
    destruct r as [| | |[h m]]; try done. by destruct m. }
  split; [apply Hkeep|]. split.
  - revert s. induction rs as [|r rs IH]; intros s H; [done|].
    rewrite load_all_cons. apply IH. rewrite loadMore_button, H. by destruct r.
  - revert s. induction rs as [|r rs IH]; intros s [v Hv] (data & Hin & Hm).
    + by apply elem_of_nil in Hin.
    + rewrite load_all_cons. apply elem_of_cons in Hin as [<-|Hin].
      * apply Hkeep. rewrite loadMore_button, Hv, Hm. done.
      * apply IH; [|by exists data].
        rewrite loadMore_button, Hv. destruct r; by eexists.
Qed.

(** X20. A [data-page] attribute whose text does not start with a number
    makes the counter [NaN] for good: the page initializes with it, and
    after any run of [loadMore] calls the counter is still [NaN], so every
    request asks for page [NaN]. *)
Theorem page_not_a_number
    (parse_array : string → result (list string)) (data : dataset) (text : string)
    (u : ui) (s s0 : Flat.state) (rs : list fetched) :
  data_page data = Some text →
  text ≠ "" →
  parseInt text = NaN →
  Flat.on_DOMContentLoaded parse_array data u s = Done s0 →
  Flat.currentPage s0 = NaN
  ∧ Flat.currentPage (load_all rs s0) = NaN
  ∧ req_page (snd (Flat.loadMore_request (load_all rs s0))) = NaN.
Proof.
  intros Hd Hne Hnan. unfold Flat.on_DOMContentLoaded, Flat.read_page_data.
  rewrite Hd. destruct text as [|c text]; [done|]. simpl or_default.
  rewrite Hnan.
  destruct (parse_array _) as [classes|]; simpl; [|done].
  intros Hinit%flat_initializePage_page.
  assert (∀ rs s, Flat.currentPage s = NaN → Flat.currentPage (load_all rs s) = NaN)
    as Hall.
  { clear. induction rs as [|r rs IH]; intros s H; [done|].
    rewrite load_all_cons. apply IH. by rewrite loadMore_page, H. }
  split; [done|]. split; [by apply Hall|].
  simpl. by rewrite Hall.
Qed.

Lemma page_not_a_number_witness :
  let d := Page [OptionEl "" "All Subjects" true] [] "" [] [] [] None [] in
  let s := Flat.State (Finite 1) [] None None [] d in
  let s0 := Flat.State NaN []
              (Some (Choices "subject-select" "Type to search subjects..."))
              (Some (Choices "number-select" "Type to search numbers..."))
              [("subject-select", HandleSubjectChange);
               ("number-select", HandleNumberChange);
               ("note-modal", HandleModal OverlayClick);
               ("document", HandleModal (EscapeKey false))]
              (set_number_select [all_numbers] d) in
  let data := Dataset (Some "next") None None None None in
  let u := Ui {["note-modal" := []]} "" None in
  data_page data = Some "next"
  ∧ "next" ≠ ""
  ∧ parseInt "next" = NaN
  ∧ Flat.on_DOMContentLoaded parse_empty_array data u s = Done s0
  ∧ Flat.currentPage s0 = NaN
  ∧ Flat.currentPage (load_all [NotOk] s0) = NaN
  ∧ req_page (snd (Flat.loadMore_request (load_all [NotOk] s0))) = NaN.
Proof.
  intros d s s0 data u.
  assert (data_page data = Some "next") as H1 by reflexivity.
  assert ("next" ≠ "") as H2 by discriminate.
  assert (parseInt "next" = NaN) as H3 by (vm_compute; reflexivity).
  assert (Flat.on_DOMContentLoaded parse_empty_array data u s = Done s0) as H4
    by (vm_compute; reflexivity).
  split; [exact H1|]. split; [exact H2|]. split; [exact H3|]. split; [exact H4|].
  exact (page_not_a_number parse_empty_array data "next" u s s0 [NotOk] H1 H2 H3 H4).
Defined.

(** X21. Closing the modal absorbs what came before: opening it and then
    closing it ends exactly as closing it alone does, and closing it a
    second time changes nothing more. *)
Theorem close_absorbs (u : ui) :
  and_then (openModal u) closeModal = closeModal u
  ∧ and_then (closeModal u) closeModal = closeModal u.
Proof.
  unfold openModal, closeModal, update_classes. split.
  - destruct (elements u !! "note-modal") as [classes|] eqn:E; simpl; [|done].
    rewrite lookup_insert_eq. simpl.
    rewrite class_remove_add, insert_insert_eq. done.
  - destruct (elements u !! "note-modal") as [classes|] eqn:E; simpl; [|done].
    destruct (create_note_form u) as [controls|] eqn:F; simpl; [|done].
    rewrite lookup_insert_eq. simpl.
    rewrite class_remove_idem, insert_insert_eq, map_map. done.
Qed.

(** X22. On a page that has the modal and its form, [closeModal] runs to its
    end: the modal is no longer active and keeps its other classes, the body
    scrolls again, every control of the form has its default value back
    (what was typed is gone), and no other element is touched. *)
Theorem closeModal_resets (u : ui) (classes : list string) (controls : list field) :
  elements u !! "note-modal" = Some classes →
  create_note_form u = Some controls →
  ∃ u' classes' controls',
    closeModal u = Done u'
    ∧ elements u' !! "note-modal" = Some classes'
    ∧ (∀ c, c ∈ classes' ↔ c ∈ classes ∧ c ≠ "active")
    ∧ body_overflow u' = ""
    ∧ create_note_form u' = Some controls'
    ∧ map field_name controls' = map field_name controls
    ∧ Forall (λ f, field_value f = field_default f) controls'
    ∧ map field_default controls' = map field_default controls
    ∧ ∀ id, id ≠ "note-modal" → elements u' !! id = elements u !! id.
Proof.
  intros Hm Hf. unfold closeModal, update_classes. rewrite Hm. simpl. rewrite Hf.
  eexists _, _, _. split; [reflexivity|]. simpl. split_and!; try done.
  - apply lookup_insert_eq.
  - intros c. apply elem_of_class_remove.
  - rewrite map_map. by apply map_ext.
  - apply Forall_forall. intros f Hin. apply list_elem_of_In, in_map_iff in Hin.
    by destruct Hin as (g & <- & _).
  - rewrite map_map. by apply map_ext.
  - intros id Hne. by rewrite lookup_insert_ne.
Qed.

Lemma closeModal_resets_witness :
  let u := Ui {["note-modal" := ["modal-overlay"; "active"]]} "hidden"
              (Some [Field "title" "My notes" ""; Field "class_code" "CS124" "CS225"]) in
  elements u !! "note-modal" = Some ["modal-overlay"; "active"]
  ∧ create_note_form u
    = Some [Field "title" "My notes" ""; Field "class_code" "CS124" "CS225"]
  ∧ ∃ u' classes' controls',
      closeModal u = Done u'
      ∧ elements u' !! "note-modal" = Some classes'
      ∧ (∀ c, c ∈ classes' ↔ c ∈ ["modal-overlay"; "active"] ∧ c ≠ "active")
      ∧ body_overflow u' = ""
      ∧ create_note_form u' = Some controls'
      ∧ map field_name controls'
        = map field_name [Field "title" "My notes" ""; Field "class_code" "CS124" "CS225"]
      ∧ Forall (λ f, field_value f = field_default f) controls'
      ∧ map field_default controls'
        = map field_default
            [Field "title" "My notes" ""; Field "class_code" "CS124" "CS225"]
      ∧ ∀ id, id ≠ "note-modal" → elements u' !! id = elements u !! id.
Proof.
  intros u.
  assert (elements u !! "note-modal" = Some ["modal-overlay"; "active"]) as H1
    by (vm_compute; reflexivity).
  assert (create_note_form u
          = Some [Field "title" "My notes" ""; Field "class_code" "CS124" "CS225"])
    as H2 by reflexivity.
  split; [exact H1|]. split; [exact H2|].
  exact (closeModal_resets u _ _ H1 H2).
Defined.

(** X23. What the modal functions do where an element is missing.  Without
    the modal both throw and change nothing: opening does not lock the
    scrolling of a page it could not cover.  With the modal but without the
    form, closing throws only after it has made the modal inactive and given
    the scrolling back. *)
Theorem modal_with_missing_elements (u : ui) :
  (elements u !! "note-modal" = None →
   (∃ e, openModal u = Raised e u) ∧ (∃ e, closeModal u = Raised e u))
  ∧ (∀ classes,
       elements u !! "note-modal" = Some classes →
       create_note_form u = None →
       ∃ e u', closeModal u = Raised e u'
               ∧ elements u' !! "note-modal" = Some (class_remove "active" classes)
               ∧ body_overflow u' = "").
Proof.
  unfold openModal, closeModal, update_classes. split.
  - intros ->. simpl. split; by eexists.
  - intros classes -> Hf. simpl. rewrite Hf. eexists _, _. split; [reflexivity|].
    simpl. split; [apply lookup_insert_eq|done].
Qed.

(** X24. Which events dismiss the modal, in either script, on a page that
    has it: a click on the overlay itself, and the Escape key while the
    modal is active, do exactly what [closeModal] does; a click inside the
    modal, any other key, and Escape while the modal is not active, change
    nothing, so the form keeps what was typed. *)
Theorem modal_dismissal (u : ui) (ls : list listener) (ev : event) :
  is_Some (elements u !! "note-modal") →
  flat_wire u = Ok ls ∨ structured_wire u = Ok ls →
  dispatch ls ev u = if dismisses ev u then final (closeModal u) else u.
Proof.
  intros [classes Hm] Hw.
  assert (∃ g, ls = [OverlayClick; EscapeKey g]) as [g ->].
  { unfold flat_wire, structured_wire in Hw. rewrite Hm in Hw.
    destruct Hw as [[= <-]|[= <-]]; by eexists. }
  destruct ev as [on_overlay|key]; simpl.
  - by destruct on_overlay.
  - rewrite Hm. destruct (key =? "Escape")%string; simpl; [|done].
    by destruct (class_contains "active" classes).
Qed.

Lemma modal_dismissal_witness :
  let u := Ui {["note-modal" := ["modal-overlay"]]} ""
              (Some [Field "title" "My notes" ""]) in
  is_Some (elements u !! "note-modal")
  ∧ (flat_wire u = Ok [OverlayClick; EscapeKey false]
     ∨ structured_wire u = Ok [OverlayClick; EscapeKey false])
  ∧ dispatch [OverlayClick; EscapeKey false] (KeyDown "Escape") u
    = if dismisses (KeyDown "Escape") u then final (closeModal u) else u.
Proof.
  intros u.
  assert (is_Some (elements u !! "note-modal")) as H1 by (vm_compute; by eexists).
  assert (flat_wire u = Ok [OverlayClick; EscapeKey false]
          ∨ structured_wire u = Ok [OverlayClick; EscapeKey false]) as H2
    by (left; vm_compute; reflexivity).
  split; [exact H1|]. split; [exact H2|].
  exact (modal_dismissal u _ (KeyDown "Escape") H1 H2).
Defined.

(** X25. On a page without the modal the first script throws while it
    registers its listeners, and the later one registers the key listener
    alone, which then ignores every event without throwing. *)
Theorem wiring_without_modal (u : ui) :
  elements u !! "note-modal" = None →
  (∃ e, flat_wire u = Throw e)
  ∧ ∃ ls, structured_wire u = Ok ls
      ∧ ∀ ev, Forall (λ l, listen l ev u = Done u) ls ∧ dispatch ls ev u = u.
Proof.
  intros Hm. unfold flat_wire, structured_wire. rewrite Hm. split; [by eexists|].
  exists [EscapeKey true]. split; [reflexivity|]. intros ev.
  assert (listen (EscapeKey true) ev u = Done u) as H.
  { destruct ev as [b|key]; simpl; [done|]. rewrite Hm.
    by destruct (key =? "Escape")%string. }
  split; [by repeat constructor|].
  change (dispatch [EscapeKey true] ev u) with (final (listen (EscapeKey true) ev u)).
  by rewrite H.
Qed.

Lemma wiring_without_modal_witness :
  let u := Ui ∅ "" None in
  elements u !! "note-modal" = None
  ∧ (∃ e, flat_wire u = Throw e)
  ∧ ∃ ls, structured_wire u = Ok ls
      ∧ ∀ ev, Forall (λ l, listen l ev u = Done u) ls ∧ dispatch ls ev u = u.
Proof.
  intros u.
  assert (elements u !! "note-modal" = None) as H by reflexivity.
  split; [exact H|]. exact (wiring_without_modal u H).
Defined.

(** X26. [toggleEdit] on a note whose two elements exist flips "active" on
    the note's form and "editing" on its content, keeps every other class of
    the two, and touches nothing else: not the elements of any other note,
    not the body, not the create form. *)
Theorem toggleEdit_flips (noteId : string) (u : ui) (form content : list string) :
  elements u !! ("edit-form-" +:+ noteId) = Some form →
  elements u !! ("note-content-" +:+ noteId) = Some content →
  ∃ u' form' content',
    toggleEdit noteId u = Done u'
    ∧ elements u' !! ("edit-form-" +:+ noteId) = Some form'
    ∧ elements u' !! ("note-content-" +:+ noteId) = Some content'
    ∧ ("active" ∈ form' ↔ "active" ∉ form)
    ∧ ("editing" ∈ content' ↔ "editing" ∉ content)
    ∧ (∀ c, c ≠ "active" → (c ∈ form' ↔ c ∈ form))
    ∧ (∀ c, c ≠ "editing" → (c ∈ content' ↔ c ∈ content))
    ∧ (∀ other, other ≠ noteId →
         elements u' !! ("edit-form-" +:+ other) = elements u !! ("edit-form-" +:+ other)
         ∧ elements u' !! ("note-content-" +:+ other)
           = elements u !! ("note-content-" +:+ other))
    ∧ elements u' !! "note-modal" = elements u !! "note-modal"
    ∧ body_overflow u' = body_overflow u
    ∧ create_note_form u' = create_note_form u.
Proof.
  intros Hf Hc. unfold toggleEdit, update_classes. rewrite Hf. simpl.
  rewrite lookup_insert_ne by apply edit_form_not_content. rewrite Hc.
  eexists _, (class_toggle "active" form), (class_toggle "editing" content).
  split; [reflexivity|]. simpl. split_and!.
  - rewrite lookup_insert_ne by (symmetry; apply edit_form_not_content).
    apply lookup_insert_eq.
  - apply lookup_insert_eq.
  - rewrite elem_of_class_toggle. by rewrite decide_True.
  - rewrite elem_of_class_toggle. by rewrite decide_True.
  - intros c Hne. rewrite elem_of_class_toggle. by rewrite decide_False.
  - intros c Hne. rewrite elem_of_class_toggle. by rewrite decide_False.
  - intros other Hne. split.
    + rewrite lookup_insert_ne by (symmetry; apply edit_form_not_content).
      rewrite lookup_insert_ne; [done|]. intros H%edit_form_id_inj. congruence.
    + rewrite lookup_insert_ne by (intros H%note_content_id_inj; congruence).
      rewrite lookup_insert_ne; [done|]. apply edit_form_not_content.
  - rewrite !lookup_insert_ne; [done|by rewrite app_cons|by rewrite app_cons].
  - done.
  - done.
Qed.

Lemma toggleEdit_flips_witness :
  let u := Ui {["edit-form-7" := ["edit-form"];
                "note-content-7" := ["note-content"];
                "edit-form-8" := ["edit-form"; "active"];
                "note-content-8" := ["note-content"; "editing"]]} "" None in
  elements u !! ("edit-form-" +:+ "7") = Some ["edit-form"]
  ∧ elements u !! ("note-content-" +:+ "7") = Some ["note-content"]
  ∧ ∃ u' form' content',
      toggleEdit "7" u = Done u'
      ∧ elements u' !! ("edit-form-" +:+ "7") = Some form'
      ∧ elements u' !! ("note-content-" +:+ "7") = Some content'
      ∧ ("active" ∈ form' ↔ "active" ∉ ["edit-form"])
      ∧ ("editing" ∈ content' ↔ "editing" ∉ ["note-content"])
      ∧ (∀ c, c ≠ "active" → (c ∈ form' ↔ c ∈ ["edit-form"]))
      ∧ (∀ c, c ≠ "editing" → (c ∈ content' ↔ c ∈ ["note-content"]))
      ∧ (∀ other, other ≠ "7" →
           elements u' !! ("edit-form-" +:+ other) = elements u !! ("edit-form-" +:+ other)
           ∧ elements u' !! ("note-content-" +:+ other)
             = elements u !! ("note-content-" +:+ other))
      ∧ elements u' !! "note-modal" = elements u !! "note-modal"
      ∧ body_overflow u' = body_overflow u
      ∧ create_note_form u' = create_note_form u.
Proof.
  intros u.
  assert (elements u !! ("edit-form-" +:+ "7") = Some ["edit-form"]) as H1
    by (vm_compute; reflexivity).
  assert (elements u !! ("note-content-" +:+ "7") = Some ["note-content"]) as H2
    by (vm_compute; reflexivity).
  split; [exact H1|]. split; [exact H2|].
  exact (toggleEdit_flips "7" u _ _ H1 H2).
Defined.

(** X27. Toggling a note twice brings every element back to the classes it
    had (the order of the classes within an element may differ), so the
    second click on "edit" undoes the first. *)
Theorem toggleEdit_twice (noteId : string) (u : ui) :
  is_Some (elements u !! ("edit-form-" +:+ noteId)) →
  is_Some (elements u !! ("note-content-" +:+ noteId)) →
  ∃ u1 u2,
    toggleEdit noteId u = Done u1
    ∧ toggleEdit noteId u1 = Done u2
    ∧ (∀ id, same_classes (elements u2 !! id) (elements u !! id))
    ∧ body_overflow u2 = body_overflow u
    ∧ create_note_form u2 = create_note_form u.
Proof.
  intros [form Hf] [content Hc]. unfold toggleEdit, update_classes.
  assert ("edit-form-" +:+ noteId ≠ "note-content-" +:+ noteId) as Hne
    by apply edit_form_not_content.
  rewrite Hf. simpl. rewrite lookup_insert_ne by done. rewrite Hc.
  eexists _, _. split; [reflexivity|]. simpl.
  rewrite lookup_insert_ne by done. rewrite lookup_insert_eq. simpl.
  rewrite lookup_insert_ne by done. rewrite lookup_insert_eq.
  split; [reflexivity|]. simpl. split_and!; try done.
  intros id. unfold same_classes.
  destruct (decide (id = "note-content-" +:+ noteId)) as [->|H1].
  { rewrite lookup_insert_eq, Hc. intros c. apply class_toggle_twice. }
  rewrite lookup_insert_ne by done.
  destruct (decide (id = "edit-form-" +:+ noteId)) as [->|H2].
  { rewrite lookup_insert_eq, Hf. intros c. apply class_toggle_twice. }
  rewrite !lookup_insert_ne by done.
  by destruct (elements u !! id).
Qed.

Lemma toggleEdit_twice_witness :
  let u := Ui {["edit-form-7" := ["active"; "edit-form"];
                "note-content-7" := ["note-content"]]} "" None in
  is_Some (elements u !! ("edit-form-" +:+ "7"))
  ∧ is_Some (elements u !! ("note-content-" +:+ "7"))
  ∧ ∃ u1 u2,
      toggleEdit "7" u = Done u1
      ∧ toggleEdit "7" u1 = Done u2
      ∧ (∀ id, same_classes (elements u2 !! id) (elements u !! id))
      ∧ body_overflow u2 = body_overflow u
      ∧ create_note_form u2 = create_note_form u.
Proof.
  intros u.
  assert (is_Some (elements u !! ("edit-form-" +:+ "7"))) as H1
    by (vm_compute; by eexists).
  assert (is_Some (elements u !! ("note-content-" +:+ "7"))) as H2
    by (vm_compute; by eexists).
  split; [exact H1|]. split; [exact H2|].
  exact (toggleEdit_twice "7" u H1 H2).
Defined.

(** X28. [toggleEdit] where an element of the note is missing.  Without the
    note's form it throws and changes nothing, whether the content exists or
    not.  With the form but without the content it throws after the form has
    been toggled, so the form is shown (or hidden) while the content keeps
    its state. *)
Theorem toggleEdit_with_missing_elements (noteId : string) (u : ui) :
  (elements u !! ("edit-form-" +:+ noteId) = None →
   ∃ e, toggleEdit noteId u = Raised e u)
  ∧ (∀ form,
       elements u !! ("edit-form-" +:+ noteId) = Some form →
       elements u !! ("note-content-" +:+ noteId) = None →
       ∃ e u', toggleEdit noteId u = Raised e u'
               ∧ elements u' !! ("edit-form-" +:+ noteId)
                 = Some (class_toggle "active" form)
               ∧ ("active" ∈ class_toggle "active" form ↔ "active" ∉ form)
               ∧ ∀ id, id ≠ "edit-form-" +:+ noteId →
                   elements u' !! id = elements u !! id).
Proof.
  unfold toggleEdit, update_classes. split.
  - intros ->. simpl. by eexists.
  - intros form -> Hc. simpl.
    rewrite lookup_insert_ne by apply edit_form_not_content. rewrite Hc.
    eexists _, _. split; [reflexivity|]. simpl. split_and!.
    + apply lookup_insert_eq.
    + rewrite elem_of_class_toggle. by rewrite decide_True.
    + intros id Hne. by rewrite lookup_insert_ne.
Qed.

(** X29. The later script lists the subjects as the server sent them: on the
    template's page the subject list after [populateSubjects] holds the empty
    entry and then [SUBJECTS] entry by entry, in the server's order and with
    any repetition it has; nothing is sorted or dropped. *)
Theorem structured_subjects_as_sent (f : option string) (s : Structured.state) :
  template_page (Structured.dom s) →
  ∃ s',
    Structured.populateSubjects f s = Done s'
    ∧ map opt_value (subject_select (Structured.dom s')) = "" :: Structured.SUBJECTS s
    ∧ template_page (Structured.dom s')
    ∧ Structured.SUBJECTS s' = Structured.SUBJECTS s
    ∧ Structured.COURSES_DICT s' = Structured.COURSES_DICT s.
Proof.
  intros Ht. unfold Structured.populateSubjects. eexists. split; [reflexivity|].
  simpl.
  assert (map opt_value
            (Structured.add_options
               (match filter_parts f with
                | Some (subject, _) => subject
                | None => ""
                end) (Structured.SUBJECTS s)
               (clear_after_first (subject_select (Structured.dom s))))
          = "" :: Structured.SUBJECTS s) as Hv.
  { change Structured.add_options with Flat.add_options.
    rewrite values_add_options, values_clear_after_first.
    unfold template_page in Ht.
    destruct (subject_select (Structured.dom s)) as [|o rest]; [done|].
    simpl. by rewrite Ht. }
  split_and!; try done.
  unfold template_page. simpl.
  destruct (Structured.add_options _ _ _) as [|o rest]; [done|].
  simpl in Hv. by injection Hv.
Qed.

Lemma structured_subjects_as_sent_witness :
  let d := Page [OptionEl "" "All Subjects" true] [all_numbers] "All" [] [] [] None [] in
  let s := Structured.State (Finite 1) [] ∅ ["MATH"; "CS"; "MATH"] None None [] d in
  template_page (Structured.dom s)
  ∧ ∃ s',
      Structured.populateSubjects None s = Done s'
      ∧ map opt_value (subject_select (Structured.dom s')) = "" :: Structured.SUBJECTS s
      ∧ template_page (Structured.dom s')
      ∧ Structured.SUBJECTS s' = Structured.SUBJECTS s
      ∧ Structured.COURSES_DICT s' = Structured.COURSES_DICT s.
Proof.
  intros d s.
  assert (template_page (Structured.dom s)) as H by reflexivity.
  split; [exact H|]. exact (structured_subjects_as_sent None s H).
Defined.

(** X30. In the later script a selected subject made of capitals that the
    catalog has no entry for gets the empty number list: the call runs to
    its end, the number list holds its "All Numbers" entry alone, and the
    catalog is left as it was. *)
Theorem structured_subject_without_entry
    (p : bool) (f : option string) (s : Structured.state) :
  let subject := select_value (subject_select (Structured.dom s)) in
  str_all is_upper subject = true →
  Structured.COURSES_DICT s !! subject = None →
  ∃ s',
    Structured.updateNumberDropdown p f s = Done s'
    ∧ number_select (Structured.dom s') = [all_numbers]
    ∧ Structured.COURSES_DICT s' = Structured.COURSES_DICT s
    ∧ subject_select (Structured.dom s') = subject_select (Structured.dom s).
Proof.
  intros subject Hup Hnone. unfold Structured.updateNumberDropdown. simpl.
  fold subject. unfold get_prop. rewrite Hnone.
  rewrite decide_False by (by apply upper_not_inherited).
  destruct (truthy subject); by eexists.
Qed.

Lemma structured_subject_without_entry_witness :
  let d := Page [OptionEl "" "All Subjects" false; OptionEl "ECE" "ECE" true]
                [all_numbers; OptionEl "124" "124" true] "All" [] [] [] None [] in
  let s := Structured.State (Finite 1) [] {["CS" := ["124"]]} ["CS"; "ECE"]
             None None [] d in
  str_all is_upper (select_value (subject_select (Structured.dom s))) = true
  ∧ Structured.COURSES_DICT s !! select_value (subject_select (Structured.dom s)) = None
  ∧ ∃ s',
      Structured.updateNumberDropdown false None s = Done s'
      ∧ number_select (Structured.dom s') = [all_numbers]
      ∧ Structured.COURSES_DICT s' = Structured.COURSES_DICT s
      ∧ subject_select (Structured.dom s') = subject_select (Structured.dom s).
Proof.
  intros d s.
  assert (str_all is_upper (select_value (subject_select (Structured.dom s))) = true)
    as H1 by reflexivity.
  assert (Structured.COURSES_DICT s
            !! select_value (subject_select (Structured.dom s)) = None) as H2
    by (vm_compute; reflexivity).
  split; [exact H1|]. split; [exact H2|].
  exact (structured_subject_without_entry false None s H1 H2).
Defined.

End Extras.
